(** * Automation-openRMS: the resilient interaction engine

    A shallow embedding of the page objects of the Playwright suite
    (automation/pages/HomePage.ts, LoginPage.ts, PatientDetailPage.ts and the
    PatientSearchPage class) together with the properties that the design
    document states about them.

    Conventions of the embedding.
    - A JavaScript string is a list of code units.  The code units are the
      256 values of [ascii], read as the Latin-1 range U+0000..U+00FF; the
      character classes below are the restrictions of the ECMAScript classes
      to that range.
    - [null]/[undefined] is [None]; a rejected promise is [Throw].
    - What Playwright answers for a locator is a field of a document record:
      the page objects are functions of that record. *)

From Stdlib Require Import List Ascii String Bool Arith Lia.
Import ListNotations.

Set Implicit Arguments.

(* ================================================================== *)
(** * Part I: definitions                                              *)
(* ================================================================== *)

(* ------------------------------------------------------------------ *)
(** ** JavaScript strings                                              *)
(* ------------------------------------------------------------------ *)

Module JS.

Definition str := list ascii.

(** A literal of the source. *)
Definition lit (s : string) : str := list_ascii_of_string s.
Arguments lit s%_string.

Definition code (c : ascii) : nat := nat_of_ascii c.

(** LineTerminator: LF and CR (U+2028 and U+2029 lie outside the range). *)
Definition isLineTerminator (c : ascii) : bool :=
  (code c =? 10) || (code c =? 13).

(** WhiteSpace and LineTerminator, the set shared by [trim] and [\s]:
    TAB, LF, VT, FF, CR, SP and NBSP. *)
Definition isWhiteSpace (c : ascii) : bool :=
  ((9 <=? code c) && (code c <=? 13)) || (code c =? 32) || (code c =? 160).

(** [.] without the [s] flag. *)
Definition dot (c : ascii) : bool := negb (isLineTerminator c).

(** [\d] *)
Definition isDigit (c : ascii) : bool := (48 <=? code c) && (code c <=? 57).

(** [\w] *)
Definition isWordChar (c : ascii) : bool :=
  ((65 <=? code c) && (code c <=? 90)) ||
  ((97 <=? code c) && (code c <=? 122)) ||
  isDigit c || (code c =? 95).

Definition isChar (x : ascii) (c : ascii) : bool := Ascii.eqb x c.

(** [String.prototype.toLowerCase]: A-Z, and U+00C0..U+00DE but U+00D7. *)
Definition lowerChar (c : ascii) : ascii :=
  if ((65 <=? code c) && (code c <=? 90)) ||
     ((192 <=? code c) && (code c <=? 222) && negb (code c =? 215))
  then ascii_of_nat (code c + 32) else c.

Definition toLowerCase (s : str) : str := map lowerChar s.

Fixpoint trimStart (s : str) : str :=
  match s with
  | c :: s' => if isWhiteSpace c then trimStart s' else s
  | [] => []
  end.

Definition trimEnd (s : str) : str := rev (trimStart (rev s)).

(** [String.prototype.trim] *)
Definition trim (s : str) : str := trimEnd (trimStart s).

Fixpoint streq (a b : str) : bool :=
  match a, b with
  | [], [] => true
  | x :: a', y :: b' => Ascii.eqb x y && streq a' b'
  | _, _ => false
  end.

Fixpoint startsWith (s p : str) : bool :=
  match p, s with
  | [], _ => true
  | x :: p', y :: s' => Ascii.eqb x y && startsWith s' p'
  | _ :: _, [] => false
  end.

(** [String.prototype.includes] *)
Fixpoint includes (s needle : str) : bool :=
  startsWith s needle ||
  match s with
  | [] => false
  | _ :: s' => includes s' needle
  end.

(** [Array.prototype.includes] on an array of strings. *)
Definition arrayIncludes (a : list str) (t : str) : bool :=
  existsb (fun x => streq x t) a.

(** A string in a condition: the empty string is falsy. *)
Definition truthy (s : str) : bool :=
  match s with [] => false | _ :: _ => true end.

(** [x || ''] for a possibly absent string. *)
Definition orEmpty (o : option str) : str :=
  match o with Some s => s | None => [] end.

(** [s.replace(/\s+/g, ' ')]: every maximal run of white space becomes one
    space; [inRun] tells that the run was already replaced. *)
Fixpoint collapseFrom (inRun : bool) (s : str) : str :=
  match s with
  | [] => []
  | c :: s' =>
      if isWhiteSpace c
      then (if inRun then collapseFrom true s' else " "%char :: collapseFrom true s')
      else c :: collapseFrom false s'
  end.

Definition collapseSpaces (s : str) : str := collapseFrom false s.

(** [s.replace(/[()]/g, '')] *)
Definition dropParens (s : str) : str :=
  filter (fun c => negb (isChar "("%char c || isChar ")"%char c)) s.

(** [s.replace(/\.$/, '')]: without the [m] flag [$] is the end of input, so
    the only candidate is a final full stop. *)
Definition dropFinalDot (s : str) : str :=
  match rev s with
  | c :: r => if isChar "."%char c then rev r else s
  | [] => s
  end.

End JS.

(* ------------------------------------------------------------------ *)
(** ** Regular expressions as backtracking matchers                    *)
(* ------------------------------------------------------------------ *)

(** Each regular expression of the source is written with the combinators
    below, atom by atom and in the order of the source.  A matcher takes the
    remaining input and the continuation for the rest of the pattern, and
    tries alternatives in the priority order of ECMAScript: a greedy
    quantifier the longest repetition first, a lazy one the shortest. *)

Module Regex.
Import JS.

Section Combinators.
Variable R : Type.

Definition Cont := str -> option R.

(** A literal run of characters. *)
Fixpoint chars (p : str) (k : Cont) (s : str) : option R :=
  match p with
  | [] => k s
  | x :: p' =>
      match s with
      | c :: s' => if Ascii.eqb x c then chars p' k s' else None
      | [] => None
      end
  end.

(** [X*] for a character class [X]; [acc] is the text consumed so far, in
    reverse, so that the continuation receives the captured text. *)
Fixpoint starGreedy (cls : ascii -> bool) (k : str -> Cont) (acc : str) (s : str)
  : option R :=
  match s with
  | c :: s' =>
      if cls c
      then match starGreedy cls k (c :: acc) s' with
           | Some r => Some r
           | None => k (rev acc) s
           end
      else k (rev acc) s
  | [] => k (rev acc) s
  end.

(** [X*?] *)
Fixpoint starLazy (cls : ascii -> bool) (k : str -> Cont) (acc : str) (s : str)
  : option R :=
  match k (rev acc) s with
  | Some r => Some r
  | None =>
      match s with
      | c :: s' => if cls c then starLazy cls k (c :: acc) s' else None
      | [] => None
      end
  end.

(** [X+] *)
Definition plusGreedy (cls : ascii -> bool) (k : str -> Cont) (s : str) : option R :=
  match s with
  | c :: s' => if cls c then starGreedy cls k [c] s' else None
  | [] => None
  end.

(** [X?] *)
Definition optional (cls : ascii -> bool) (k : Cont) (s : str) : option R :=
  match s with
  | c :: s' =>
      if cls c
      then match k s' with Some r => Some r | None => k s end
      else k s
  | [] => k s
  end.

(** [X{n}] *)
Fixpoint times (n : nat) (cls : ascii -> bool) (k : str -> Cont) (acc : str) (s : str)
  : option R :=
  match n with
  | 0 => k (rev acc) s
  | S n' =>
      match s with
      | c :: s' => if cls c then times n' cls k (c :: acc) s' else None
      | [] => None
      end
  end.

(** [X{1,2}] *)
Definition oneOrTwo (cls : ascii -> bool) (k : str -> Cont) (s : str) : option R :=
  match times 2 cls k [] s with
  | Some r => Some r
  | None => times 1 cls k [] s
  end.

(** [$] without the [m] flag. *)
Definition endOfInput (k : Cont) (s : str) : option R :=
  match s with
  | [] => k s
  | _ :: _ => None
  end.

(** [String.prototype.match] with a pattern that has no [g] flag: the
    leftmost position at which the pattern matches. *)
Fixpoint search (m : Cont) (s : str) : option R :=
  match m s with
  | Some r => Some r
  | None =>
      match s with
      | _ :: s' => search m s'
      | [] => None
      end
  end.

End Combinators.

(** The pattern of [getWelcomeMessageParts],
      Logged in as .*?\( (.*?) \) at (.* ) \.?$
    (shown with blanks between its parts), groups 1 and 2. *)
Definition welcomeRegex : str -> option (str * str) :=
  search
    (chars (lit "Logged in as ")
      (starLazy dot (fun _ =>
        chars (lit "(")
          (starLazy dot (fun g1 =>
            chars (lit ") at ")
              (starGreedy dot (fun g2 =>
                optional (isChar "."%char)
                  (endOfInput (fun _ => Some (g1, g2)))) [])) [])) [])).

(** The pattern of [getPatientBirthdate],
      \( \s* ( \d{1,2} \. \w{3} \. \d{4} ) \s* \)
    (shown with blanks between its parts), group 1. *)
Definition birthdateRegex : str -> option str :=
  search
    (chars (lit "(")
      (starGreedy isWhiteSpace (fun _ =>
        oneOrTwo isDigit (fun d =>
          chars (lit ".")
            (times 3 isWordChar (fun w =>
              chars (lit ".")
                (times 4 isDigit (fun y =>
                  starGreedy isWhiteSpace (fun _ =>
                    chars (lit ")")
                      (fun _ => Some (d ++ lit "." ++ w ++ lit "." ++ y))) [])
                  [])) []))) [])).

(** The pattern of [getPatientId],
      Patient ID \s* (.+)
    (shown with blanks between its parts), group 1. *)
Definition patientIdRegex : str -> option str :=
  search
    (chars (lit "Patient ID")
      (starGreedy isWhiteSpace (fun _ =>
        plusGreedy dot (fun g1 _ => Some g1)) [])).

End Regex.

(* ------------------------------------------------------------------ *)
(** ** Promises that may reject                                        *)
(* ------------------------------------------------------------------ *)

Module Eff.

(** What a Playwright call rejects with. *)
Inductive Error : Type :=
| TimeoutError          (* the locator did not resolve within its wait *)
| InteractionError      (* the action could not be carried out *)
| StrictModeViolation   (* the locator resolved to more than one element *)
| TypeError.            (* a property of [undefined] was read *)

Inductive result (A : Type) : Type :=
| Ok (a : A)
| Throw (e : Error).

Arguments Ok {A} a.
Arguments Throw {A} e.

Definition bind {A B : Type} (m : result A) (f : A -> result B) : result B :=
  match m with
  | Ok a => f a
  | Throw e => Throw e
  end.

(** [try { body } catch { handler }] *)
Definition tryCatch {A : Type} (body : result A) (handler : Error -> result A)
  : result A :=
  match body with
  | Ok a => Ok a
  | Throw e => handler e
  end.

Definition raises {A : Type} (m : result A) : bool :=
  match m with Ok _ => false | Throw _ => true end.

End Eff.

Declare Scope eff_scope.
Delimit Scope eff_scope with eff.
Notation "x <- m ;; k" := (Eff.bind m (fun x => k))
  (at level 61, m at next level, right associativity) : eff_scope.
Notation "m ;;; k" := (Eff.bind m (fun _ => k))
  (at level 61, right associativity) : eff_scope.

(* ------------------------------------------------------------------ *)
(** ** HomePage                                                        *)
(* ------------------------------------------------------------------ *)

Module HomePage.
Import JS Eff.
Local Open Scope eff_scope.

(** The answers of the [h4] locator [loginUserInfo]. *)
Record Document : Type := {
  loginUserInfo_waitFor : result unit;
  loginUserInfo_textContent : result (option str)
}.

Record WelcomeParts : Type := {
  userInfo : str;
  ward : str
}.

(** [getWelcomeMessageParts]: [None] is the [null] of the source. *)
Definition getWelcomeMessageParts (d : Document) : result (option WelcomeParts) :=
  tryCatch
    (loginUserInfo_waitFor d ;;;
     content <- loginUserInfo_textContent d ;;
     let text := option_map trim content in
     if negb (truthy (orEmpty text)) then Ok None
     else
       match Regex.welcomeRegex (orEmpty text) with
       | Some (g1, g2) =>
           Ok (Some {| userInfo := g1; ward := dropFinalDot (trim g2) |})
       | None => Ok None
       end)
    (fun _ => Ok None).

(** A page whose [h4] holds [text]. *)
Definition showing (text : str) : Document :=
  {| loginUserInfo_waitFor := Ok tt;
     loginUserInfo_textContent := Ok (Some text) |}.

(** A text without line terminators and without the character [x]. *)
Definition plainWithout (x : ascii) (s : str) : bool :=
  forallb (fun c => dot c && negb (isChar x c)) s.

(** The text "Logged in as U (Role) at L." *)
Definition welcomeText (U Role L : str) : str :=
  lit "Logged in as " ++ U ++ lit " (" ++ Role ++ lit ") at " ++ L ++ lit ".".

End HomePage.

(* ------------------------------------------------------------------ *)
(** ** PatientDetailPage                                               *)
(* ------------------------------------------------------------------ *)

Module PatientDetailPage.
Import JS Eff.
Local Open Scope eff_scope.

(** The locators that the field extractors read. *)
Inductive Selector : Type :=
| GivenName          (* .PersonName-givenName *)
| FamilyName         (* .PersonName-familyName *)
| GenderInSection    (* text=/Male|Female/ inside .demographics, first *)
| GenderAnywhere     (* text=/Male|Female/, first *)
| AgeText            (* text=/\d+ year\(s\)/, first *)
| BirthdateText      (* text=/\d{1,2}\.\w{3}\.\d{4}/, first *)
| BirthdateClass     (* [class*=birthdate], first *)
| BirthdateTestId    (* [data-testid*=birthdate], first *)
| PatientIdParent.   (* the parent of the text Patient ID *)

(** [locator.textContent()]: rejects when the locator does not resolve. *)
Record Document : Type := {
  textContent : Selector -> result (option str)
}.

(** [getPatientGivenName] *)
Definition getPatientGivenName (d : Document) : result str :=
  tryCatch
    (givenNameText <- textContent d GivenName ;;
     Ok (orEmpty (option_map trim givenNameText)))
    (fun _ => Ok []).

(** [getPatientFamilyName] *)
Definition getPatientFamilyName (d : Document) : result str :=
  tryCatch
    (familyNameText <- textContent d FamilyName ;;
     Ok (orEmpty (option_map trim familyNameText)))
    (fun _ => Ok []).

(** [getPatientGender]: the second locator is tried in the [catch] of the
    first. *)
Definition getPatientGender (d : Document) : result str :=
  tryCatch
    (genderText <- textContent d GenderInSection ;;
     Ok (orEmpty (option_map trim genderText)))
    (fun _ =>
       tryCatch
         (genderText <- textContent d GenderAnywhere ;;
          Ok (orEmpty (option_map trim genderText)))
         (fun _ => Ok [])).

(** [getPatientAge] *)
Definition getPatientAge (d : Document) : result str :=
  tryCatch
    (ageText <- textContent d AgeText ;;
     if truthy (orEmpty ageText)
     then Ok (trim (collapseSpaces (orEmpty ageText)))
     else Ok [])
    (fun _ => Ok []).

(** The fallback selectors of [getPatientBirthdate], in source order. *)
Definition selectors : list Selector :=
  [BirthdateText; BirthdateClass; BirthdateTestId].

(** The [for] loop over the selectors; each iteration has its own
    [try]/[catch] that moves on to the next selector. *)
Fixpoint trySelectors (d : Document) (l : list Selector) : result str :=
  match l with
  | [] => Ok []
  | selector :: rest =>
      match textContent d selector with
      | Ok birthdateText =>
          if truthy (orEmpty birthdateText) && truthy (trim (orEmpty birthdateText))
          then Ok (trim (collapseSpaces (dropParens (orEmpty birthdateText))))
          else trySelectors d rest
      | Throw _ => trySelectors d rest
      end
  end.

(** [getPatientBirthdate] *)
Definition getPatientBirthdate (d : Document) : result str :=
  tryCatch
    (ageText <- getPatientAge d ;;
     match (if truthy ageText then Regex.birthdateRegex ageText else None) with
     | Some g1 => Ok (trim (collapseSpaces g1))
     | None => trySelectors d selectors
     end)
    (fun _ => Ok []).

(** [getPatientId]: [match?.[1]?.trim() || ''] *)
Definition getPatientId (d : Document) : result str :=
  tryCatch
    (patientIdText <- textContent d PatientIdParent ;;
     let m := match patientIdText with
              | Some t => Regex.patientIdRegex t
              | None => None
              end in
     Ok (orEmpty (option_map trim m)))
    (fun _ => Ok []).

(** A probe of the birthdate extractor has failed. *)
Definition ageProbeFails (d : Document) : Prop :=
  exists ageText, getPatientAge d = Ok ageText /\
    (ageText = [] \/ Regex.birthdateRegex ageText = None).

Definition selectorProbeFails (d : Document) (sel : Selector) : Prop :=
  (exists e, textContent d sel = Throw e) \/
  textContent d sel = Ok None \/
  (exists t, textContent d sel = Ok (Some t) /\ trim t = []).

(** The probe of the patient-id extractor has failed. *)
Definition idProbeFails (d : Document) : Prop :=
  (exists e, textContent d PatientIdParent = Throw e) \/
  textContent d PatientIdParent = Ok None \/
  (exists t, textContent d PatientIdParent = Ok (Some t) /\
     (Regex.patientIdRegex t = None \/
      exists g, Regex.patientIdRegex t = Some g /\ trim g = [])).

(** A page on which only the age element is present, with text [t]. *)
Definition withAge (t : str) : Document :=
  {| textContent := fun sel =>
       match sel with
       | AgeText => Ok (Some t)
       | _ => Throw TimeoutError
       end |}.

(** A page with a blank given name, no family name and no gender, an age
    but no birthdate in it, a blank birthdate element and a patient-id label
    that is followed by nothing. *)
Definition sparse : Document :=
  {| textContent := fun sel =>
       match sel with
       | GivenName => Ok (Some (lit " "))
       | FamilyName => Ok None
       | GenderInSection => Throw TimeoutError
       | GenderAnywhere => Throw TimeoutError
       | AgeText => Ok (Some (lit "49 year(s)"))
       | BirthdateText => Throw TimeoutError
       | BirthdateClass => Ok (Some (lit "   "))
       | BirthdateTestId => Ok None
       | PatientIdParent => Ok (Some (lit "Patient ID"))
       end |}.

(** A text contains a parenthesised date: an opening parenthesis, white
    space, one or two digits, a full stop, three word characters, a full
    stop, four digits, white space, a closing parenthesis. *)
Definition isDate (g : str) : Prop :=
  exists d w y,
    g = d ++ lit "." ++ w ++ lit "." ++ y /\
    (List.length d = 1 \/ List.length d = 2) /\ forallb isDigit d = true /\
    List.length w = 3 /\ forallb isWordChar w = true /\
    List.length y = 4 /\ forallb isDigit y = true.

Definition hasParenthesisedDate (t : str) : Prop :=
  exists pre ws1 g ws2 post,
    t = pre ++ lit "(" ++ ws1 ++ g ++ ws2 ++ lit ")" ++ post /\
    forallb isWhiteSpace ws1 = true /\ isDate g /\
    forallb isWhiteSpace ws2 = true.

End PatientDetailPage.

(* ------------------------------------------------------------------ *)
(** ** LoginPage                                                       *)
(* ------------------------------------------------------------------ *)

Module LoginPage.
Import JS Eff.
Local Open Scope eff_scope.

(** The answers of the login page: the probe of the location control, the
    two enumerations, the visibility test of the recovery branch and the
    two ways of choosing.  [text_isVisible t] is the answer of
    [page.locator('text="t"').isVisible()], which rejects when the text
    resolves to more than one element.  [randomIndex n] is the value of
    [Math.floor(Math.random() * n)] drawn in this run. *)
Record Document : Type := {
  locationDropdown_isSelect : result bool;
  locationOptions_waitFor : result unit;
  locationOptions_allTextContents : list str;
  locationButtons_waitFor : result unit;
  locationButtons_allTextContents : list str;
  text_isVisible : str -> result bool;
  locationButton_waitFor : str -> result unit;
  locationButton_click : str -> result unit;
  locationDropdown_selectOption : option str -> result unit;
  randomIndex : nat -> nat
}.

(** What a successful selection did. *)
Inductive Selection : Type :=
| SelectedOption (label : option str)
| ClickedButton (text : str).

(** [options.filter(option => option.trim() !== '')] *)
Definition nonBlank (l : list str) : list str :=
  filter (fun option => truthy (trim option)) l.

(** The hard-coded list of [getLocationOptionsFromButtons]. *)
Definition commonLocations : list str :=
  [ lit "Inpatient Ward"; lit "Outpatient Clinic"; lit "Laboratory";
    lit "Pharmacy"; lit "Registration Desk"; lit "Isolation Ward" ].

(** [testConfig.testData.VALID_LOCATIONS] of the fixtures. *)
Definition VALID_LOCATIONS : list str :=
  [ lit "Inpatient Ward"; lit "Outpatient Clinic"; lit "Laboratory";
    lit "Pharmacy"; lit "Registration Desk"; lit "Isolation Ward" ].

(** [getLocationOptionsFromDropdown] *)
Definition getLocationOptionsFromDropdown (d : Document) : result (list str) :=
  locationOptions_waitFor d ;;;
  Ok (nonBlank (locationOptions_allTextContents d)).

(** The loop in the [catch] block of [getLocationOptionsFromButtons]: the
    labels of [locations] whose text is visible, in order.  The visibility
    tests are awaited one after the other, outside any [try]: the first
    that rejects ends the loop. *)
Fixpoint visibleAmong (d : Document) (locations : list str) : result (list str) :=
  match locations with
  | [] => Ok []
  | loc :: rest =>
      isVisible <- text_isVisible d loc ;;
      later <- visibleAmong d rest ;;
      Ok (if isVisible : bool then loc :: later else later)
  end.

(** [getLocationOptionsFromButtons] *)
Definition getLocationOptionsFromButtons (d : Document) : result (list str) :=
  tryCatch
    (locationButtons_waitFor d ;;;
     Ok (nonBlank (locationButtons_allTextContents d)))
    (fun _ =>
       availableLocations <- visibleAmong d commonLocations ;;
       Ok (if 0 <? List.length availableLocations
           then availableLocations else commonLocations)).

(** [getLocationOptions] *)
Definition getLocationOptions (d : Document) : result (list str) :=
  tryCatch
    (isRealDropdown <- locationDropdown_isSelect d ;;
     if isRealDropdown : bool
     then getLocationOptionsFromDropdown d
     else getLocationOptionsFromButtons d)
    (fun _ => getLocationOptionsFromButtons d).

(** [selectLocationButton] *)
Definition selectLocationButton (d : Document) (location : str) : result Selection :=
  locationButton_waitFor d location ;;;
  locationButton_click d location ;;;
  Ok (ClickedButton location).

(** [a[Math.floor(Math.random() * a.length)]] *)
Definition randomElement (d : Document) (a : list str) : option str :=
  nth_error a (randomIndex d (List.length a)).

(** An [undefined] in a template literal. *)
Definition interpolate (o : option str) : str :=
  match o with Some s => s | None => lit "undefined" end.

(** [selectLocation] *)
Definition selectLocation (d : Document) (location : str) : result Selection :=
  isRealDropdown <- locationDropdown_isSelect d ;;
  if isRealDropdown : bool
  then
    if streq location (lit "random")
    then
      options <- getLocationOptionsFromDropdown d ;;
      let randomLocation := randomElement d options in
      locationDropdown_selectOption d randomLocation ;;;
      Ok (SelectedOption randomLocation)
    else
      locationDropdown_selectOption d (Some location) ;;;
      Ok (SelectedOption (Some location))
  else
    if streq location (lit "random")
    then
      availableLocations <- getLocationOptionsFromButtons d ;;
      let randomLocation := randomElement d availableLocations in
      selectLocationButton d (interpolate randomLocation)
    else selectLocationButton d location.

(** A login page rendered as a list of buttons on which every button can be
    found and clicked; [probe] is the answer of the classifying probe. *)
Definition buttonPage (probe : result bool) (buttons : list str) : Document :=
  {| locationDropdown_isSelect := probe;
     locationOptions_waitFor := Throw TimeoutError;
     locationOptions_allTextContents := [];
     locationButtons_waitFor :=
       match buttons with [] => Throw TimeoutError | _ :: _ => Ok tt end;
     locationButtons_allTextContents := buttons;
     text_isVisible := fun t => Ok (arrayIncludes buttons t);
     locationButton_waitFor := fun _ => Ok tt;
     locationButton_click := fun _ => Ok tt;
     locationDropdown_selectOption := fun _ => Throw InteractionError;
     randomIndex := fun _ => 0 |}.

(** The entries that the dynamic enumeration of the buttons yields: the
    non-blank texts of the buttons, none when no button appears. *)
Definition dynamicEntries (d : Document) : list str :=
  match locationButtons_waitFor d with
  | Ok _ => nonBlank (locationButtons_allTextContents d)
  | Throw _ => []
  end.

(** List items are rendered but their texts are blank. *)
Definition blankButtons : Document := buttonPage (Ok false) [lit "  "; lit " "].

(** The markup of the list is not recognised, and of the expected labels
    only "Pharmacy" is visible on the page. *)
Definition onlyPharmacy : Document :=
  {| locationDropdown_isSelect := Ok false;
     locationOptions_waitFor := Throw TimeoutError;
     locationOptions_allTextContents := [];
     locationButtons_waitFor := Throw TimeoutError;
     locationButtons_allTextContents := [];
     text_isVisible := fun t => Ok (streq t (lit "Pharmacy"));
     locationButton_waitFor := fun _ => Ok tt;
     locationButton_click := fun _ => Ok tt;
     locationDropdown_selectOption := fun _ => Throw InteractionError;
     randomIndex := fun _ => 0 |}.

(** The markup of the list is not recognised, and the text "Pharmacy" is
    on the page twice: the locator of that label resolves to two
    elements, the other labels are not on the page. *)
Definition pharmacyTwice : Document :=
  {| locationDropdown_isSelect := Ok false;
     locationOptions_waitFor := Throw TimeoutError;
     locationOptions_allTextContents := [];
     locationButtons_waitFor := Throw TimeoutError;
     locationButtons_allTextContents := [];
     text_isVisible := fun t =>
       if streq t (lit "Pharmacy") then Throw StrictModeViolation else Ok false;
     locationButton_waitFor := fun _ => Ok tt;
     locationButton_click := fun _ => Ok tt;
     locationDropdown_selectOption := fun _ => Throw InteractionError;
     randomIndex := fun _ => 0 |}.

(** The six locations are rendered as buttons, and the probe that classifies
    the control times out. *)
Definition undetected : Document := buttonPage (Throw TimeoutError) commonLocations.

End LoginPage.

(* ------------------------------------------------------------------ *)
(** ** PatientSearchPage                                               *)
(* ------------------------------------------------------------------ *)

Module PatientSearchPage.
Import JS Eff.

(** A row matched by [table tbody tr:not(.dataTables_empty)]: its own
    [textContent] and the [textContent] of its [td] cells. *)
Record Row : Type := {
  rowText : option str;
  cells : list (option str)
}.

Definition Table := list Row.

(** What the page shows to one run of [searchPatient]: whether the search
    input can be filled, the rows at the time of the baseline capture, the
    rows seen by each poll of [waitForFunction] that fits into its time
    limit, and the rows seen by the extraction of each attempt. *)
Record World : Type := {
  searchInputUsable : bool;
  rowsAtSnapshot : Table;
  rowsAtPoll : list Table;
  rowsAtAttempt : nat -> Table
}.

(** What one run does to the page, in order. *)
Inductive Event : Type :=
| Fill (value : str)
| Press (key : str)
| Sleep (ms : nat)
| Snapshot (texts : list str)
| Poll (matched : bool)
| PollThrew
| WaitTimedOut
| Extract (attempt : nat) (found : nat).

(** A computation: the events it caused and how it ended. *)
Definition M (A : Type) : Type := (list Event * result A)%type.

Definition ret {A : Type} (a : A) : M A := ([], Ok a).

Definition bind {A B : Type} (m : M A) (f : A -> M B) : M B :=
  match m with
  | (l, Ok a) => let (l', r) := f a in (l ++ l', r)
  | (l, Throw e) => (l, Throw e)
  end.

Definition emit (e : Event) : M unit := ([e], Ok tt).

Definition fail {A : Type} (e : Error) : M A := ([], Throw e).

(** [promise.catch(handler)] *)
Definition catch {A : Type} (m : M A) (handler : Error -> M A) : M A :=
  match m with
  | (l, Ok a) => (l, Ok a)
  | (l, Throw e) => let (l', r) := handler e in (l ++ l', r)
  end.

Declare Scope search_scope.
Delimit Scope search_scope with search.
Notation "x <- m ;; k" := (bind m (fun x => k))
  (at level 61, m at next level, right associativity) : search_scope.
Notation "m ;;; k" := (bind m (fun _ => k))
  (at level 61, right associativity) : search_scope.
Local Open Scope search_scope.

Record Patient : Type := {
  index : nat;
  name : str;
  id : str;
  gender : str;
  age : str
}.

Inductive Message : Type :=
| FoundMessage (count : nat) (query : str)
| NoneFoundMessage (query : str).

Record SearchResult : Type := {
  success : bool;
  hasResults : bool;
  resultCount : nat;
  patients : list Patient;
  message : Message
}.

(** [searchInput.fill(value)] *)
Definition fill (w : World) (value : str) : M unit :=
  if searchInputUsable w then emit (Fill value) else fail TimeoutError.

(** [searchInput.press(key)] *)
Definition press (w : World) (key : str) : M unit :=
  if searchInputUsable w then emit (Press key) else fail TimeoutError.

(** [page.waitForTimeout(ms)] *)
Definition waitForTimeout (ms : nat) : M unit := emit (Sleep ms).

(** [locator.allTextContents()]: the raw [textContent] of each row. *)
Definition allTextContents (rows : Table) : list str :=
  map (fun r => orEmpty (rowText r)) rows.

(** [array.some(callback)] with a callback that can throw: the elements are
    tested in order up to the first for which the callback is true. *)
Fixpoint some (callback : str -> result bool) (l : list str) : result bool :=
  match l with
  | [] => Ok false
  | t :: rest =>
      match callback t with
      | Ok true => Ok true
      | Ok false => some callback rest
      | Throw e => Throw e
      end
  end.

(** The function that [searchPatient] hands to [waitForFunction], with its
    three parameters [selector], [previousTexts] and [query]; [rows] are
    the elements that [selector] matches.  A parameter for which the caller
    has no argument is [undefined], here [None], and calling a method of
    [undefined] throws a TypeError. *)
Definition newMatchingRow (rows : Table) (previousTexts : option (list str))
  (query : option str) : result bool :=
  let currentTexts := map (fun r => orEmpty (option_map trim (rowText r))) rows in
  if 0 <? List.length currentTexts
  then
    some (fun t =>
            match previousTexts with
            | None => Throw TypeError
            | Some previousTexts =>
                if negb (arrayIncludes previousTexts t)
                then
                  match query with
                  | None => Throw TypeError
                  | Some query => Ok (includes (toLowerCase t) (toLowerCase query))
                  end
                else Ok false
            end)
         currentTexts
  else Ok false.

(** [page.waitForFunction(pageFunction, arg, options)] as [searchPatient]
    calls it, with four values after the function: the selector,
    [oldRowTexts], [query] and an object with a timeout.  Playwright takes
    the first of them as [arg] and the second as [options]; it hands [arg]
    alone to the function in the page, so there [previousTexts] and [query]
    are [undefined], and the timeout of the fourth value is not read.  The
    call polls until the function is truthy; it rejects when the function
    throws and when the deadline has passed. *)
Fixpoint waitForFunction (polls : list Table)
  (pageFunction : Table -> option (list str) -> option str -> result bool)
  (oldRowTexts : list str) (query : str) : M unit :=
  match polls with
  | [] => fail TimeoutError
  | rows :: later =>
      match pageFunction rows None None with
      | Ok true => emit (Poll true)
      | Ok false =>
          emit (Poll false) ;;; waitForFunction later pageFunction oldRowTexts query
      | Throw e => emit PollThrew ;;; fail e
      end
  end.

(** [(await cells.nth(k).textContent())?.trim() || ''] *)
Definition cellText (r : Row) (k : nat) : str :=
  match nth_error (cells r) k with
  | Some (Some t) => trim t
  | _ => []
  end.

(** The body of the loop of [extractPatients] for row [i]. *)
Definition extractRow (i : nat) (row : Row) (query : str) : list Patient :=
  let cellCount := List.length (cells row) in
  if 2 <=? cellCount
  then
    let name := cellText row 1 in
    let id := cellText row 0 in
    let gender := if 2 <? cellCount then cellText row 2 else [] in
    let age := if 3 <? cellCount then cellText row 3 else [] in
    if truthy name && includes (toLowerCase name) (toLowerCase query)
    then [ {| index := i; name := name; id := id; gender := gender; age := age |} ]
    else []
  else [].

Fixpoint extractFrom (i : nat) (rows : Table) (query : str) : list Patient :=
  match rows with
  | [] => []
  | row :: rest => extractRow i row query ++ extractFrom (S i) rest query
  end.

(** [extractPatients] *)
Definition extractPatients (rows : Table) (query : str) : list Patient :=
  extractFrom 0 rows query.

(** The bound of the retry loop of [searchPatient]. *)
Definition maxAttempts : nat := 5.

(** The retry loop: [remaining] iterations are left, the next one is number
    [attempt]; [patients] is the value of the variable before it. *)
Fixpoint retry (w : World) (query : str) (remaining attempt : nat)
  (patients : list Patient) : M (list Patient) :=
  match remaining with
  | 0 => ret patients
  | S remaining' =>
      let found := extractPatients (rowsAtAttempt w attempt) query in
      emit (Extract attempt (List.length found)) ;;;
      if 0 <? List.length found
      then ret found
      else waitForTimeout 2000 ;;;
           retry w query remaining' (S attempt) found
  end.

(** [searchPatient] *)
Definition searchPatient (w : World) (query : str) : M SearchResult :=
  fill w [] ;;;
  waitForTimeout 300 ;;;
  let oldRowTexts := allTextContents (rowsAtSnapshot w) in
  emit (Snapshot oldRowTexts) ;;;
  fill w query ;;;
  press w (lit "Enter") ;;;
  catch (waitForFunction (rowsAtPoll w) newMatchingRow oldRowTexts query)
        (fun _ => emit WaitTimedOut) ;;;
  patients <- retry w query maxAttempts 0 [] ;;
  ret {| success := true;
         hasResults := 0 <? List.length patients;
         resultCount := List.length patients;
         patients := patients;
         message := if 0 <? List.length patients
                    then FoundMessage (List.length patients) query
                    else NoneFoundMessage query |}.

(** The outcome of the convergence wait alone, as the spec names it:
    [Matched] when the call of [waitForFunction] resolves, [TimedOut] when
    it rejects and the [catch] of [searchPatient] takes over. *)
Inductive ConvergenceResult : Type := Matched | TimedOut.

Definition awaitConvergence (polls : list Table) (previousTexts : list str)
  (query : str) : ConvergenceResult :=
  match snd (waitForFunction polls newMatchingRow previousTexts query) with
  | Ok _ => Matched
  | Throw _ => TimedOut
  end.

Definition events {A : Type} (m : M A) : list Event := fst m.
Definition outcome {A : Type} (m : M A) : result A := snd m.

Definition isExtract (e : Event) : bool :=
  match e with Extract _ _ => true | _ => false end.

Definition isPoll (e : Event) : bool :=
  match e with
  | Poll _ => true | PollThrew => true | WaitTimedOut => true
  | _ => false
  end.

(** The triggering action is filling the query and pressing Enter; the
    press of the key completes one dispatch of it. *)
Definition isDispatch (e : Event) : bool :=
  match e with Press _ => true | _ => false end.

Definition isSnapshot (e : Event) : bool :=
  match e with Snapshot _ => true | _ => false end.

(** What the retry loop causes: extractions and pauses. *)
Definition isRetryEvent (e : Event) : bool :=
  match e with Extract _ _ => true | Sleep _ => true | _ => false end.

Definition countOf (f : Event -> bool) (l : list Event) : nat :=
  List.length (filter f l).

(** A row with the given text and cells. *)
Definition row (text : str) (tds : list str) : Row :=
  {| rowText := Some text; cells := map Some tds |}.

(** The table stays empty. *)
Definition emptyWorld : World :=
  {| searchInputUsable := true;
     rowsAtSnapshot := [];
     rowsAtPoll := [[]; []; []];
     rowsAtAttempt := fun _ => [] |}.

Definition janeRow : Row :=
  row (lit "100HT1Jane SmithF31") [lit "100HT1"; lit "Jane Smith"; lit "F"; lit "31"].

Definition johnRow : Row :=
  row (lit "100HU3John DoeM49") [lit "100HU3"; lit "John Doe"; lit "M"; lit "49"].

(** The searched row turns up late: no poll sees it, and of the extractions
    the third is the first to see it. *)
Definition lateWorld : World :=
  {| searchInputUsable := true;
     rowsAtSnapshot := [janeRow];
     rowsAtPoll := [[janeRow]; []];
     rowsAtAttempt := fun attempt => if attempt <? 2 then [] else [janeRow; johnRow] |}.

(** The searched row turns up at once: the table is cleared by the search
    and the second poll already sees the new row. *)
Definition promptWorld : World :=
  {| searchInputUsable := true;
     rowsAtSnapshot := [janeRow];
     rowsAtPoll := [[]; [johnRow]];
     rowsAtAttempt := fun _ => [johnRow] |}.

End PatientSearchPage.

From Stdlib Require Import Sorting.Sorted.

(* ------------------------------------------------------------------ *)
(** ** Classes of texts                                                *)
(* ------------------------------------------------------------------ *)

Module Text.
Import JS.

(** A text without any white space. *)
Definition noSpace (s : str) : bool := forallb (fun c => negb (isWhiteSpace c)) s.

(** A text in which a single pattern character [.] can match everywhere. *)
Definition oneLine (s : str) : bool := forallb dot s.

End Text.

(* ------------------------------------------------------------------ *)
(** ** PatientSearchPage: selecting a patient, reading the result table *)
(* ------------------------------------------------------------------ *)

Module PatientSelection.
Import JS Eff.

(** The page of one run: the world of [searchPatient] and what a click on
    the row [patientRows.nth(index)] answers. *)
Record Surface : Type := {
  world : PatientSearchPage.World;
  row_click : nat -> result unit
}.

(** What a run does: the events of the search, and the clicks on rows. *)
Inductive Action : Type :=
| Searched (e : PatientSearchPage.Event)
| Clicked (index : nat).

Inductive Message : Type :=
| SelectedPatient (name : str)
| NoPatientsFound (query : str)
| NotFoundAt (index : nat)
| ErrorSelecting (e : Error).

Record Selection : Type := {
  success : bool;
  selectedPatient : option PatientSearchPage.Patient;
  message : Message
}.

(** [selectPatient] *)
Definition selectPatient (s : Surface) (index : nat) : list Action * result unit :=
  match row_click s index with
  | Ok _ => ([Clicked index], Ok tt)
  | Throw e => ([], Throw e)
  end.

(** [patient.name || 'Unknown'] *)
Definition nameOrUnknown (p : option PatientSearchPage.Patient) : str :=
  match p with
  | Some p => if truthy (PatientSearchPage.name p)
              then PatientSearchPage.name p else lit "Unknown"
  | None => lit "Unknown"
  end.

(** [searchAndSelectPatient] *)
Definition searchAndSelectPatient (s : Surface) (query : str)
  : list Action * result Selection :=
  let (log, r) := PatientSearchPage.searchPatient (world s) query in
  match r with
  | Throw e => (map Searched log, Throw e)
  | Ok searchResult =>
      if PatientSearchPage.hasResults searchResult &&
         (0 <? List.length (PatientSearchPage.patients searchResult))
      then
        match selectPatient s 0 with
        | (l, Ok _) =>
            (map Searched log ++ l,
             Ok {| success := true;
                   selectedPatient :=
                     nth_error (PatientSearchPage.patients searchResult) 0;
                   message :=
                     SelectedPatient
                       (nameOrUnknown
                          (nth_error (PatientSearchPage.patients searchResult) 0)) |})
        | (l, Throw e) => (map Searched log ++ l, Throw e)
        end
      else
        (map Searched log,
         Ok {| success := false; selectedPatient := None;
               message := NoPatientsFound query |})
  end.

(** [selectPatientFromResults]; the click has its own [try]/[catch]. *)
Definition selectPatientFromResults (s : Surface)
  (searchResults : PatientSearchPage.SearchResult) (index : nat)
  : list Action * result Selection :=
  if negb (PatientSearchPage.hasResults searchResults) ||
     negb (match nth_error (PatientSearchPage.patients searchResults) index with
           | Some _ => true
           | None => false
           end)
  then ([], Ok {| success := false; selectedPatient := None;
                  message := NotFoundAt index |})
  else
    match selectPatient s index with
    | (l, Ok _) =>
        (l, Ok {| success := true;
                  selectedPatient :=
                    nth_error (PatientSearchPage.patients searchResults) index;
                  message :=
                    SelectedPatient
                      (nameOrUnknown
                         (nth_error (PatientSearchPage.patients searchResults) index)) |})
    | (l, Throw e) =>
        (l, Ok {| success := false; selectedPatient := None;
                  message := ErrorSelecting e |})
    end.

Definition isClick (a : Action) : bool :=
  match a with Clicked _ => true | Searched _ => false end.

(** The selectors that [hasResults] goes through, in source order. *)
Inductive RowSelector : Type :=
| TbodyRows          (* tbody tr:not(.dataTables_empty) *)
| PatientRowClass    (* .patient-row *)
| ResultRowClass.    (* .result-row *)

Definition rowSelectors : list RowSelector :=
  [TbodyRows; PatientRowClass; ResultRowClass].

(** The result table as [hasResults] reads it: how many elements a selector
    matches, and the [textContent] of the first of them. *)
Record ResultsView : Type := {
  rows_count : RowSelector -> nat;
  first_textContent : RowSelector -> result (option str)
}.

(** [_hasAnySearchResults] *)
Definition hasAnySearchResults (v : ResultsView) : bool :=
  0 <? rows_count v TbodyRows.

(** The test that [hasResults] applies to the text of a first row. *)
Definition looksLikePatient (firstRowText : str) : bool :=
  negb (includes (toLowerCase firstRowText) (lit "no")) &&
  negb (includes (toLowerCase firstRowText) (lit "empty")) &&
  truthy (trim firstRowText).

(** The [for] loop of [hasResults]. *)
Fixpoint checkSelectors (v : ResultsView) (l : list RowSelector) : result bool :=
  match l with
  | [] => Ok false
  | selector :: rest =>
      if 0 <? rows_count v selector
      then
        match first_textContent v selector with
        | Ok text =>
            if looksLikePatient (orEmpty text) then Ok true
            else checkSelectors v rest
        | Throw e => Throw e
        end
      else checkSelectors v rest
  end.

(** [hasResults] *)
Definition hasResults (v : ResultsView) : result bool :=
  tryCatch
    (if negb (hasAnySearchResults v) then Ok false
     else checkSelectors v rowSelectors)
    (fun _ => Ok false).

(** The pauses of a run, in milliseconds. *)
Fixpoint pauses (l : list PatientSearchPage.Event) : nat :=
  match l with
  | [] => 0
  | PatientSearchPage.Sleep ms :: l' => ms + pauses l'
  | _ :: l' => pauses l'
  end.

(** The row of every search is there and can be clicked. *)
Definition clickable (w : PatientSearchPage.World) : Surface :=
  {| world := w; row_click := fun _ => Ok tt |}.

(** A table whose only row is the patient Arnold Snow. *)
Definition arnoldView : ResultsView :=
  {| rows_count := fun sel => match sel with TbodyRows => 1 | _ => 0 end;
     first_textContent := fun sel =>
       match sel with
       | TbodyRows => Ok (Some (lit "100J2K Arnold Snow M 52"))
       | _ => Throw TimeoutError
       end |}.

(** A table whose only row is the patient Jane Doe. *)
Definition janeView : ResultsView :=
  {| rows_count := fun sel => match sel with TbodyRows => 1 | _ => 0 end;
     first_textContent := fun sel =>
       match sel with
       | TbodyRows => Ok (Some (lit "100HNY Jane Doe F 30"))
       | _ => Throw TimeoutError
       end |}.

(** The results of a search that found John Smith. *)
Definition johnFound : PatientSearchPage.SearchResult :=
  {| PatientSearchPage.success := true;
     PatientSearchPage.hasResults := true;
     PatientSearchPage.resultCount := 1;
     PatientSearchPage.patients :=
       [{| PatientSearchPage.index := 0;
           PatientSearchPage.name := lit "John Smith";
           PatientSearchPage.id := lit "100J2K";
           PatientSearchPage.gender := lit "M";
           PatientSearchPage.age := lit "43" |}];
     PatientSearchPage.message := PatientSearchPage.FoundMessage 1 (lit "john") |}.

End PatientSelection.

(* ------------------------------------------------------------------ *)
(** ** LoginPage: the login form                                       *)
(* ------------------------------------------------------------------ *)

Module LoginFlow.
Import JS Eff.

(** The login page with its two text fields and its button. *)
Record Form : Type := {
  page : LoginPage.Document;
  usernameField_fill : str -> result unit;
  passwordField_fill : str -> result unit;
  loginButton_click : result unit
}.

(** What [login] has done to the form. *)
Inductive Step : Type :=
| FilledUsername (username : str)
| FilledPassword (password : str)
| ChoseLocation (selection : LoginPage.Selection)
| ClickedLogin.

(** [login]: [fillUsername], [fillPassword], [selectLocation], [clickLogin]. *)
Definition login (f : Form) (username password location : str)
  : list Step * result unit :=
  match usernameField_fill f username with
  | Throw e => ([], Throw e)
  | Ok _ =>
      match passwordField_fill f password with
      | Throw e => ([FilledUsername username], Throw e)
      | Ok _ =>
          match LoginPage.selectLocation (page f) location with
          | Throw e => ([FilledUsername username; FilledPassword password], Throw e)
          | Ok selection =>
              match loginButton_click f with
              | Throw e =>
                  ([FilledUsername username; FilledPassword password;
                    ChoseLocation selection], Throw e)
              | Ok _ =>
                  ([FilledUsername username; FilledPassword password;
                    ChoseLocation selection; ClickedLogin], Ok tt)
              end
          end
      end
  end.

(** A form whose fields and button work, on the given login page. *)
Definition working (d : LoginPage.Document) : Form :=
  {| page := d;
     usernameField_fill := fun _ => Ok tt;
     passwordField_fill := fun _ => Ok tt;
     loginButton_click := Ok tt |}.

(** A native select with two options, the first of them a blank
    placeholder; the random draw is index 0. *)
Definition nativeSelect : LoginPage.Document :=
  {| LoginPage.locationDropdown_isSelect := Ok true;
     LoginPage.locationOptions_waitFor := Ok tt;
     LoginPage.locationOptions_allTextContents :=
       [lit " "; lit "Pharmacy"; lit "Laboratory"];
     LoginPage.locationButtons_waitFor := Throw TimeoutError;
     LoginPage.locationButtons_allTextContents := [];
     LoginPage.text_isVisible := fun _ => Ok false;
     LoginPage.locationButton_waitFor := fun _ => Throw TimeoutError;
     LoginPage.locationButton_click := fun _ => Throw TimeoutError;
     LoginPage.locationDropdown_selectOption := fun _ => Ok tt;
     LoginPage.randomIndex := fun _ => 0 |}.

End LoginFlow.

(* ------------------------------------------------------------------ *)
(** ** HomePage: navigation                                            *)
(* ------------------------------------------------------------------ *)

Module HomeNavigation.
Import JS Eff.
Local Open Scope eff_scope.

(** [String.prototype.endsWith] *)
Definition endsWith (s suffix : str) : bool := startsWith (rev s) (rev suffix).

(** The URL that [goto] navigates to; [BASE_URL] is the environment
    variable, absent or empty when it is not set. *)
Definition homeUrl (BASE_URL : option str) : str :=
  let baseUrl := if truthy (orEmpty BASE_URL) then orEmpty BASE_URL
                 else lit "http://localhost:8080/openmrs/" in
  if endsWith baseUrl (lit "/")
  then baseUrl ++ lit "index.htm"
  else baseUrl ++ lit "/index.htm".

(** The page as [isOnHomePage] reads it. *)
Record View : Type := {
  doc : HomePage.Document;
  url : str;
  loginUserInfo_isVisible : result bool
}.

(** The URL test of [isOnHomePage]. *)
Definition isPatientUrl (url : str) : bool :=
  includes url (lit "/index.htm") || includes url (lit "/home.page").

(** [isOnHomePage] *)
Definition isOnHomePage (v : View) : result bool :=
  tryCatch
    (HomePage.loginUserInfo_waitFor (doc v) ;;;
     if isPatientUrl (url v) then loginUserInfo_isVisible v else Ok false)
    (fun _ => Ok false).

End HomeNavigation.

(* ------------------------------------------------------------------ *)
(** ** PatientDetailPage: the patient record and its sections          *)
(* ------------------------------------------------------------------ *)

Module PatientRecord.
Import JS Eff PatientDetailPage.
Local Open Scope eff_scope.

(** The interface [PatientInfo]. *)
Record PatientInfo : Type := {
  givenName : str;
  familyName : str;
  gender : str;
  age : str;
  birthdate : str;
  patientId : str
}.

(** [getPatientInfo] *)
Definition getPatientInfo (d : Document) : result PatientInfo :=
  givenName <- getPatientGivenName d ;;
  familyName <- getPatientFamilyName d ;;
  gender <- getPatientGender d ;;
  age <- getPatientAge d ;;
  birthdate <- getPatientBirthdate d ;;
  patientId <- getPatientId d ;;
  Ok {| givenName := givenName; familyName := familyName; gender := gender;
        age := age; birthdate := birthdate; patientId := patientId |}.

(** Reading a property of the object that [getPatientInfo] returns: the
    object has the six properties of its literal and no other. *)
Definition property (info : PatientInfo) (key : string) : option str :=
  if String.eqb key "givenName" then Some (givenName info)
  else if String.eqb key "familyName" then Some (familyName info)
  else if String.eqb key "gender" then Some (gender info)
  else if String.eqb key "age" then Some (age info)
  else if String.eqb key "birthdate" then Some (birthdate info)
  else if String.eqb key "patientId" then Some (patientId info)
  else None.

(** [getRegistrationSuccessMessage] *)
Definition getRegistrationSuccessMessage (d : Document) : result str :=
  patientInfo <- getPatientInfo d ;;
  Ok (LoginPage.interpolate (property patientInfo "fullName")
      ++ lit " successfully registered").

(** The page as [isOnPatientDetailPage] reads it, with the document of the
    field extractors. *)
Record View : Type := {
  doc : Document;
  url : str;
  patientGivenName_waitFor : result unit;
  patientGivenName_isVisible : result bool
}.

(** [isOnPatientDetailPage] *)
Definition isOnPatientDetailPage (v : View) : result bool :=
  tryCatch
    (patientGivenName_waitFor v ;;;
     let isHomeUrl := includes (url v) (lit "/patient.page") ||
                      includes (url v) (lit "/clinicianfacing/patient") in
     if isHomeUrl then patientGivenName_isVisible v else Ok false)
    (fun _ => Ok false).

Inductive Gender : Type := M | F.

Record Expected : Type := {
  expectedGivenName : str;
  expectedFamilyName : str;
  expectedGender : Gender
}.

(** [verifyPatientRegistration] *)
Definition verifyPatientRegistration (v : View) (expectedPatientData : Expected)
  : result bool :=
  tryCatch
    (onPage <- isOnPatientDetailPage v ;;
     if negb onPage then Ok false
     else
       givenName <- getPatientGivenName (doc v) ;;
       familyName <- getPatientFamilyName (doc v) ;;
       let givenNameMatch :=
         includes (toLowerCase givenName)
                  (toLowerCase (expectedGivenName expectedPatientData)) in
       let familyNameMatch :=
         includes (toLowerCase familyName)
                  (toLowerCase (expectedFamilyName expectedPatientData)) in
       gender <- getPatientGender (doc v) ;;
       let expectedGender :=
         match expectedGender expectedPatientData with
         | M => lit "Male"
         | F => lit "Female"
         end in
       let genderMatch := includes gender expectedGender in
       Ok (givenNameMatch && familyNameMatch && genderMatch))
    (fun _ => Ok false).

(** The sections of the page that have a heading. *)
Inductive SectionName : Type :=
| Diagnoses | Observations | Visits | Conditions | Allergies.

(** The three selectors that the section readers try for the entries of a
    section, in source order: list items, items in a [div], table rows. *)
Inductive EntryKind : Type := ListItems | DivItems | TableRows.

Definition entryKinds : list EntryKind := [ListItems; DivItems; TableRows].

Record Sections : Type := {
  section_waitFor : SectionName -> result unit;
  section_parentText : SectionName -> result (option str);
  entries_count : SectionName -> EntryKind -> nat;
  entry_textContent : SectionName -> EntryKind -> nat -> result (option str)
}.

(** [hasSectionWithContent] *)
Definition hasSectionWithContent (p : Sections) (sectionName : SectionName)
  : result bool :=
  tryCatch
    (section_waitFor p sectionName ;;;
     sectionContent <- section_parentText p sectionName ;;
     Ok (truthy (orEmpty sectionContent) &&
         negb (includes (toLowerCase (orEmpty sectionContent)) (lit "none")) &&
         truthy (trim (orEmpty sectionContent))))
    (fun _ => Ok false).

(** The inner loop of the section readers: the entries [i], [i+1], ... of
    one selector; an entry is kept when its text is not empty and has no
    "none" in it. *)
Fixpoint collect (A : Type) (read : nat -> result (option str)) (keep : str -> A)
  (i n : nat) : result (list A) :=
  match n with
  | 0 => Ok []
  | S n' =>
      text <- read i ;;
      rest <- collect read keep (S i) n' ;;
      Ok (if truthy (orEmpty text) &&
             negb (includes (toLowerCase (orEmpty text)) (lit "none"))
          then keep (orEmpty text) :: rest
          else rest)
  end.

(** The outer loop: the first selector that matches anything is used and
    the loop is left. *)
Fixpoint scan (A : Type) (p : Sections) (s : SectionName) (keep : str -> A)
  (kinds : list EntryKind) : result (list A) :=
  match kinds with
  | [] => Ok []
  | kind :: rest =>
      if 0 <? entries_count p s kind
      then collect (entry_textContent p s kind) keep 0 (entries_count p s kind)
      else scan p s keep rest
  end.

Inductive Status : Type := Active.

Record PatientDiagnosis : Type := {
  condition : str;
  status : Status
}.

(** [getPatientDiagnoses] *)
Definition getPatientDiagnoses (p : Sections) : result (list PatientDiagnosis) :=
  tryCatch
    (hasDiagnoses <- hasSectionWithContent p Diagnoses ;;
     if negb hasDiagnoses then Ok []
     else scan p Diagnoses
            (fun text => {| condition := trim text; status := Active |})
            entryKinds)
    (fun _ => Ok []).

(** [getPatientVisits]: of a visit only [date] is set. *)
Definition getPatientVisits (p : Sections) : result (list str) :=
  tryCatch
    (hasVisits <- hasSectionWithContent p Visits ;;
     if negb hasVisits then Ok []
     else scan p Visits (fun text => trim text) entryKinds)
    (fun _ => Ok []).

Record PatientObservation : Type := {
  obsName : str;
  obsValue : str;
  obsUnit : option str
}.

(** [^:] *)
Definition notColon (c : ascii) : bool := negb (isChar ":"%char c).

(** [\d.,] in brackets *)
Definition isNumberChar (c : ascii) : bool :=
  isDigit c || isChar "."%char c || isChar ","%char c.

(** [^\d\s] *)
Definition notDigitNotSpace (c : ascii) : bool :=
  negb (isDigit c) && negb (isWhiteSpace c).

(** The pattern that splits an observation into name and value,
      ([^:]+) : \s* (.+)
    (shown with blanks between its parts), groups 1 and 2. *)
Definition observationRegex : str -> option (str * str) :=
  Regex.search
    (Regex.plusGreedy notColon (fun name =>
      Regex.chars (lit ":")
        (Regex.starGreedy isWhiteSpace (fun _ =>
          Regex.plusGreedy dot (fun valueWithUnit _ =>
            Some (name, valueWithUnit))) []))).

(** The pattern that splits a value from its unit,
      ([\d.,]+) \s* ([^\d\s]* )
    (shown with blanks between its parts), groups 1 and 2. *)
Definition valueRegex : str -> option (str * str) :=
  Regex.search
    (Regex.plusGreedy isNumberChar (fun value =>
      Regex.starGreedy isWhiteSpace (fun _ =>
        Regex.starGreedy notDigitNotSpace (fun unit _ =>
          Some (value, unit)) []) [])).

(** What [getPatientObservations] makes of the text of one entry. *)
Definition parseObservation (text : str) : PatientObservation :=
  match observationRegex text with
  | Some (name, valueWithUnit) =>
      let valueMatch := valueRegex valueWithUnit in
      {| obsName := trim name;
         obsValue := match valueMatch with
                     | Some (value, _) => value
                     | None => trim valueWithUnit
                     end;
         obsUnit := match valueMatch with
                    | Some (_, unit) =>
                        if truthy (trim unit) then Some (trim unit) else None
                    | None => None
                    end |}
  | None =>
      {| obsName := lit "Unknown"; obsValue := trim text; obsUnit := None |}
  end.

(** [getPatientObservations] *)
Definition getPatientObservations (p : Sections) : result (list PatientObservation) :=
  tryCatch
    (hasObservations <- hasSectionWithContent p Observations ;;
     if negb hasObservations then Ok []
     else scan p Observations parseObservation entryKinds)
    (fun _ => Ok []).

(** The entries of a chart: diagnoses as table rows, one of them saying
    "None", and one observation as a list item. *)
Definition chartEntries (s : SectionName) (k : EntryKind) : list str :=
  match s with
  | Diagnoses =>
      match k with
      | TableRows => [lit " Asthma "; lit "None"; lit "Diabetes"]
      | _ => []
      end
  | Observations =>
      match k with
      | ListItems => [lit "Weight: 70 kg"]
      | _ => []
      end
  | _ => []
  end.

Definition chart : Sections :=
  {| section_waitFor := fun _ => Ok tt;
     section_parentText := fun s =>
       match s with
       | Diagnoses => Ok (Some (lit "DIAGNOSES Asthma Diabetes"))
       | Observations => Ok (Some (lit "LATEST OBSERVATIONS Weight: 70 kg"))
       | _ => Ok (Some (lit "None"))
       end;
     entries_count := fun s k => List.length (chartEntries s k);
     entry_textContent := fun s k i =>
       match nth_error (chartEntries s k) i with
       | Some t => Ok (Some t)
       | None => Throw TimeoutError
       end |}.

(** The detail page of the patient John Smith, as it shows after his
    registration. *)
Definition registered : View :=
  {| doc := {| textContent := fun sel =>
                 match sel with
                 | GivenName => Ok (Some (lit " John "))
                 | FamilyName => Ok (Some (lit "Smith"))
                 | GenderInSection => Ok (Some (lit "Male"))
                 | _ => Throw TimeoutError
                 end |};
     url := lit "https://o2.openmrs.org/openmrs/coreapps/clinicianfacing/patient.page?patientId=7";
     patientGivenName_waitFor := Ok tt;
     patientGivenName_isVisible := Ok true |}.

End PatientRecord.

(* ------------------------------------------------------------------ *)
(** ** ApiHelpers: the REST client                                     *)
(* ------------------------------------------------------------------ *)

Module ApiHelpers.
Import JS.

(** What a call of the client rejects with: a request or the reading of a
    body that rejects, or one of the errors that the client throws. *)
Inductive Failure : Type :=
| RequestRejected
| BodyUnreadable
| AuthenticationFailed (status : nat) (statusText : str)
| CreateFailed (status : nat) (errorText : str)
| SearchFailed (status : nat)
| GetFailed (status : nat).

Inductive outcome (A : Type) : Type :=
| Done (a : A)
| Fail (e : Failure).

Arguments Done {A} a.
Arguments Fail {A} e.

Inductive Method : Type := GET | POST | DELETE.


Record Address : Type := {
  addressLine : str;
  addressCity : str;
  addressCountry : str
}.

(** The [data] of a request. *)
Inductive Payload : Type :=
| NoData
| Credentials (username password : str)
| Person (given family gender birthdate : str) (addresses : list Address).

Record Request : Type := {
  method : Method;
  url : str;
  params : list (str * str);
  headers : list (str * str);
  data : Payload
}.

(** The parsed body of a response, as far as the client reads it: the
    session id of a session, the uuid and the identifiers of a patient,
    the results of a search.  A property that a body does not have reads
    as [undefined]. *)
Inductive Json : Type :=
| SessionJson (sessionId : option str)
| PatientJson (uuid : str) (identifiers : option (list (option str)))
| ResultsJson (results : option (list str))
| OtherJson.

Record Response : Type := {
  ok : bool;
  status : nat;
  statusText : str;
  text : outcome str;
  json : outcome Json
}.

(** The server: what the [n]-th request of a run is answered with. *)
Definition Server : Type := nat -> Request -> outcome Response.

(** The client: its field [sessionId], and the requests sent so far. *)
Record State : Type := {
  sessionId : option str;
  sent : list Request
}.

Definition M (A : Type) : Type := State -> State * outcome A.

Definition ret {A : Type} (a : A) : M A := fun st => (st, Done a).

Definition throw {A : Type} (e : Failure) : M A := fun st => (st, Fail e).

Definition bind {A B : Type} (m : M A) (f : A -> M B) : M B :=
  fun st =>
    match m st with
    | (st', Done a) => f a st'
    | (st', Fail e) => (st', Fail e)
    end.

(** [try { body } catch (error) { handler }] *)
Definition tryCatch {A : Type} (body : M A) (handler : Failure -> M A) : M A :=
  fun st =>
    match body st with
    | (st', Done a) => (st', Done a)
    | (st', Fail e) => handler e st'
    end.

(** Awaiting something that the server side settles. *)
Definition await {A : Type} (o : outcome A) : M A := fun st => (st, o).

Definition send (srv : Server) (r : Request) : M Response :=
  fun st =>
    ({| sessionId := sessionId st; sent := sent st ++ [r] |},
     srv (List.length (sent st)) r).

Definition setSessionId (id : option str) : M unit :=
  fun st => ({| sessionId := id; sent := sent st |}, Done tt).

Definition getState : M State := fun st => (st, Done st).

Declare Scope api_scope.
Delimit Scope api_scope with api.
Notation "x <- m ;; k" := (bind m (fun x => k))
  (at level 61, m at next level, right associativity) : api_scope.
Notation "m ;;; k" := (bind m (fun _ => k))
  (at level 61, right associativity) : api_scope.
Local Open Scope api_scope.

Definition jsonHeader : str * str := (lit "Content-Type", lit "application/json").

(** [getHeaders] *)
Definition getHeaders (st : State) : list (str * str) :=
  jsonHeader ::
  (if truthy (orEmpty (sessionId st))
   then [(lit "Cookie", lit "JSESSIONID=" ++ orEmpty (sessionId st))]
   else []).

(** [sessionData.sessionId] *)
Definition sessionIdOf (j : Json) : option str :=
  match j with SessionJson id => id | _ => None end.

(** The request of [authenticate]. *)
Definition authenticateRequest (baseURL username password : str) : Request :=
  {| method := POST;
     url := baseURL ++ lit "/openmrs/ws/rest/v1/session";
     params := [];
     headers := [jsonHeader];
     data := Credentials username password |}.

(** [authenticate] *)
Definition authenticate (baseURL : str) (srv : Server) (username password : str)
  : M unit :=
  tryCatch
    (response <- send srv (authenticateRequest baseURL username password) ;;
     if ok response
     then sessionData <- await (json response) ;;
          setSessionId (sessionIdOf sessionData)
     else throw (AuthenticationFailed (status response) (statusText response)))
    (fun error => throw error).







(** The request of [deletePatient]. *)
Definition deleteRequest (baseURL : str) (st : State) (patientUuid : str) : Request :=
  {| method := DELETE;
     url := baseURL ++ lit "/openmrs/ws/rest/v1/patient/" ++ patientUuid;
     params := [];
     headers := getHeaders st;
     data := NoData |}.

(** [deletePatient]: the [catch] logs and goes on. *)
Definition deletePatient (baseURL : str) (srv : Server) (patientUuid : str) : M unit :=
  tryCatch
    (st <- getState ;;
     send srv (deleteRequest baseURL st patientUuid) ;;;
     ret tt)
    (fun _ => ret tt).

(** [data.results || []] *)
Definition resultsOf (j : Json) : list str :=
  match j with ResultsJson (Some results) => results | _ => [] end.

(** The request of [searchPatients]. *)
Definition searchRequest (baseURL : str) (st : State) (query : str) : Request :=
  {| method := GET;
     url := baseURL ++ lit "/openmrs/ws/rest/v1/patient";
     params := [(lit "q", query); (lit "v", lit "full")];
     headers := getHeaders st;
     data := NoData |}.

(** [searchPatients] *)
Definition searchPatients (baseURL : str) (srv : Server) (query : str)
  : M (list str) :=
  tryCatch
    (st <- getState ;;
     response <- send srv (searchRequest baseURL st query) ;;
     if ok response
     then data <- await (json response) ;; ret (resultsOf data)
     else throw (SearchFailed (status response)))
    (fun _ => ret []).


(** [cleanupPatients]: the deletions are started in the order of the list
    and all of them are awaited. *)
Fixpoint cleanupPatients (baseURL : str) (srv : Server) (patientUuids : list str)
  : M unit :=
  match patientUuids with
  | [] => ret tt
  | uuid :: rest =>
      deletePatient baseURL srv uuid ;;;
      cleanupPatients baseURL srv rest
  end.

(** The request of [logout]. *)
Definition logoutRequest (baseURL : str) (st : State) : Request :=
  {| method := DELETE;
     url := baseURL ++ lit "/openmrs/ws/rest/v1/session";
     params := [];
     headers := getHeaders st;
     data := NoData |}.

(** [logout]: [finally] forgets the session, however the request ends. *)
Definition logout (baseURL : str) (srv : Server) : M unit :=
  st <- getState ;;
  if truthy (orEmpty (sessionId st))
  then
    tryCatch
      (send srv (logoutRequest baseURL st) ;;;
       ret tt)
      (fun _ => ret tt) ;;;
    setSessionId None
  else ret tt.

Definition fresh : State := {| sessionId := None; sent := [] |}.

Definition hasCookie (r : Request) : bool :=
  existsb (fun h => streq (fst h) (lit "Cookie")) (headers r).

(** A server that opens the session "A1B2" for any credentials, creates a
    patient for every person whose given name is not empty, and refuses
    every other request with status 500. *)
Definition demoServer : Server :=
  fun n r =>
    match data r with
    | Credentials _ _ =>
        Done {| ok := true; status := 200; statusText := lit "OK";
                text := Done []; json := Done (SessionJson (Some (lit "A1B2"))) |}
    | Person given _ _ _ _ =>
        if truthy given
        then Done {| ok := true; status := 201; statusText := lit "Created";
                     text := Done [];
                     json := Done (PatientJson (lit "uuid-" ++ given)
                                     (Some [Some (lit "100" ++ given)])) |}
        else Done {| ok := false; status := 400; statusText := lit "Bad Request";
                     text := Done (lit "givenName required"); json := Fail BodyUnreadable |}
    | NoData =>
        Done {| ok := false; status := 500; statusText := lit "Server Error";
                text := Done []; json := Fail BodyUnreadable |}
    end.


(** A server that answers every GET with one search hit and refuses every
    other request with status 500. *)
Definition directory : Server :=
  fun n r =>
    match method r with
    | GET =>
        Done {| ok := true; status := 200; statusText := lit "OK";
                text := Done [];
                json := Done (ResultsJson (Some [lit "uuid-john"])) |}
    | _ =>
        Done {| ok := false; status := 500; statusText := lit "Server Error";
                text := Done []; json := Fail BodyUnreadable |}
    end.

End ApiHelpers.


(* ================================================================== *)
(** * Part II: properties                                              *)
(* ================================================================== *)

Unset Implicit Arguments.

(* ------------------------------------------------------------------ *)
(** ** Strings                                                         *)
(* ------------------------------------------------------------------ *)

Section StringFacts.
Import JS.

Lemma streq_true_iff (a b : str) : streq a b = true <-> a = b.
Proof.
  revert b; induction a as [|x a IH]; intros [|y b]; simpl; split;
    try congruence; try reflexivity.
  - intros H. apply andb_true_iff in H as [Hxy Hab].
    apply Ascii.eqb_eq in Hxy. apply IH in Hab. now subst.
  - intros H. injection H as -> ->.
    rewrite Ascii.eqb_refl. simpl. now apply IH.
Qed.

Lemma arrayIncludes_true_iff (a : list str) (t : str) :
  arrayIncludes a t = true <-> In t a.
Proof.
  unfold arrayIncludes. rewrite existsb_exists. split.
  - intros (x & Hin & Heq). apply streq_true_iff in Heq. now subst.
  - intros Hin. exists t. split; [assumption | now apply streq_true_iff].
Qed.

Lemma truthy_false_iff (s : str) : truthy s = false <-> s = [].
Proof. destruct s; simpl; split; congruence. Qed.

Lemma truthy_length (s : str) : truthy s = (0 <? List.length s).
Proof. now destruct s. Qed.

Lemma trimStart_fixed (c : ascii) (s : str) :
  isWhiteSpace c = false -> trimStart (c :: s) = c :: s.
Proof. intros H. simpl. now rewrite H. Qed.

Lemma trimEnd_snoc (s : str) (c : ascii) :
  isWhiteSpace c = false -> trimEnd (s ++ [c]) = s ++ [c].
Proof.
  intros H. unfold trimEnd. rewrite rev_app_distr. simpl.
  rewrite H. simpl. now rewrite rev_involutive.
Qed.

(** A text that starts at a fixed point of [trimStart] keeps it in front of
    a character that is not white space. *)
Lemma trimStart_app_fixed (s : str) (c : ascii) :
  trimStart s = s -> isWhiteSpace c = false ->
  trimStart (s ++ [c]) = s ++ [c].
Proof.
  intros Hs Hc. destruct s as [|x s]; simpl in *.
  - now rewrite Hc.
  - destruct (isWhiteSpace x) eqn:Hx; [|reflexivity].
    exfalso.
    assert (Hlen : forall t, List.length (trimStart t) <= List.length t).
    { induction t as [|y t IH]; simpl; [lia|].
      destruct (isWhiteSpace y); simpl; lia. }
    specialize (Hlen s). rewrite Hs in Hlen. simpl in Hlen. lia.
Qed.

Lemma trimStart_nil_iff (s : str) :
  trimStart s = [] <-> forallb isWhiteSpace s = true.
Proof.
  induction s as [|c s IH]; simpl; [tauto|].
  destruct (isWhiteSpace c); simpl; [exact IH | split; discriminate].
Qed.

Lemma trimStart_head (s r : str) (c : ascii) :
  trimStart s = c :: r -> isWhiteSpace c = false.
Proof.
  induction s as [|x s IH]; simpl; [discriminate|].
  destruct (isWhiteSpace x) eqn:E; [exact IH|]. intros H. now injection H as <- _.
Qed.

(** [trim] leaves nothing exactly of the texts that are all white space. *)
Lemma trim_nil_iff (s : str) :
  trim s = [] <-> forallb isWhiteSpace s = true.
Proof.
  split.
  - unfold trim, trimEnd. intros H.
    assert (H' : trimStart (rev (trimStart s)) = []).
    { destruct (trimStart (rev (trimStart s))) as [|x l]; [reflexivity|].
      simpl in H. now destruct (rev l). }
    apply trimStart_nil_iff in H'. apply trimStart_nil_iff.
    destruct (trimStart s) as [|c r] eqn:E; [reflexivity|].
    apply trimStart_head in E. rewrite forallb_forall in H'.
    rewrite (H' c) in E; [discriminate|]. apply -> in_rev. now left.
  - intros H. apply trimStart_nil_iff in H. unfold trim. now rewrite H.
Qed.

Lemma collapseFrom_blank (s : str) (inRun : bool) :
  forallb isWhiteSpace s = true ->
  forallb isWhiteSpace (collapseFrom inRun s) = true.
Proof.
  revert inRun; induction s as [|c s IH]; intros inRun H; [reflexivity|].
  simpl in *. apply andb_true_iff in H as [Hc Hs]. rewrite Hc.
  destruct inRun; simpl; now rewrite IH.
Qed.

Lemma trim_collapse_blank (s : str) :
  trim s = [] -> trim (collapseSpaces s) = [].
Proof.
  intros H. apply trim_nil_iff, collapseFrom_blank. now apply trim_nil_iff.
Qed.

Lemma dropFinalDot_snoc (s : str) : dropFinalDot (s ++ lit ".") = s.
Proof.
  unfold dropFinalDot. rewrite rev_app_distr. simpl.
  now rewrite rev_involutive.
Qed.

End StringFacts.

(* ------------------------------------------------------------------ *)
(** ** The matchers                                                    *)
(* ------------------------------------------------------------------ *)

Section RegexFacts.
Import JS Regex.
Variable R : Type.
Implicit Types (k : str -> Cont R) (cls : ascii -> bool).

(** *** What a successful match consumed *)

Lemma chars_Some (p : str) (c : Cont R) (s : str) (r : R) :
  chars p c s = Some r -> exists s', s = p ++ s' /\ c s' = Some r.
Proof.
  revert s; induction p as [|x p IH]; intros s H; simpl in H.
  - now exists s.
  - destruct s as [|y s]; [discriminate|].
    destruct (Ascii.eqb x y) eqn:E; [|discriminate].
    apply Ascii.eqb_eq in E; subst y.
    destruct (IH _ H) as (s' & -> & Hc). now exists s'.
Qed.

Lemma starGreedy_Some cls k (acc s : str) (r : R) :
  starGreedy cls k acc s = Some r ->
  exists a b, s = a ++ b /\ forallb cls a = true /\ k (rev acc ++ a) b = Some r.
Proof.
  revert acc; induction s as [|c s IH]; intros acc H; simpl in H.
  - exists [], []. simpl. rewrite app_nil_r. auto.
  - destruct (cls c) eqn:Hc.
    + destruct (starGreedy cls k (c :: acc) s) eqn:E.
      * injection H as ->. destruct (IH _ E) as (a & b & -> & Ha & Hk).
        exists (c :: a), b. simpl in *. rewrite Hc, Ha.
        now rewrite <- app_assoc in Hk.
      * exists [], (c :: s). simpl. rewrite app_nil_r. auto.
    + exists [], (c :: s). simpl. rewrite app_nil_r. auto.
Qed.

Lemma times_Some (n : nat) cls k (acc s : str) (r : R) :
  times n cls k acc s = Some r ->
  exists a b, s = a ++ b /\ List.length a = n /\ forallb cls a = true /\
              k (rev acc ++ a) b = Some r.
Proof.
  revert acc s; induction n as [|n IH]; intros acc s H; simpl in H.
  - exists [], s. simpl. rewrite app_nil_r. auto.
  - destruct s as [|c s]; [discriminate|].
    destruct (cls c) eqn:Hc; [|discriminate].
    destruct (IH _ _ H) as (a & b & -> & Hlen & Ha & Hk).
    exists (c :: a), b. simpl in *. rewrite Hc, Ha, Hlen.
    now rewrite <- app_assoc in Hk.
Qed.

Lemma oneOrTwo_Some cls k (s : str) (r : R) :
  oneOrTwo cls k s = Some r ->
  exists a b, s = a ++ b /\ (List.length a = 1 \/ List.length a = 2) /\
              forallb cls a = true /\ k a b = Some r.
Proof.
  unfold oneOrTwo. intros H.
  destruct (times 2 cls k [] s) eqn:E.
  - injection H as ->. destruct (times_Some _ _ _ _ _ _ E) as (a & b & ? & ? & ? & ?).
    exists a, b. auto.
  - destruct (times_Some _ _ _ _ _ _ H) as (a & b & ? & ? & ? & ?).
    exists a, b. auto.
Qed.

Lemma search_Some (m : Cont R) (s : str) (r : R) :
  search m s = Some r -> exists pre post, s = pre ++ post /\ m post = Some r.
Proof.
  induction s as [|c s IH]; simpl; intros H.
  - destruct (m []) eqn:E; [|discriminate]. injection H as ->. now exists [], [].
  - destruct (m (c :: s)) eqn:E.
    + injection H as ->. now exists [], (c :: s).
    + destruct (IH H) as (pre & post & -> & Hm). now exists (c :: pre), post.
Qed.

(** *** Matching a text of known shape *)

Lemma chars_app (p : str) (c : Cont R) (s : str) : chars p c (p ++ s) = c s.
Proof. induction p as [|x p IH]; simpl; [reflexivity|]. now rewrite Ascii.eqb_refl. Qed.

Lemma chars_mismatch (x : ascii) (p : str) (c : Cont R) (y : ascii) (s : str) :
  Ascii.eqb x y = false -> chars (x :: p) c (y :: s) = None.
Proof. intros H. simpl. now rewrite H. Qed.

Lemma search_here (m : Cont R) (s : str) (r : R) :
  m s = Some r -> search m s = Some r.
Proof. intros H. destruct s; simpl; now rewrite H. Qed.

(** A lazy star walks over a prefix on which its continuation cannot start. *)
Lemma starLazy_skip cls k (u rest acc : str) :
  (forall c, In c u -> cls c = true /\ forall g s', k g (c :: s') = None) ->
  starLazy cls k acc (u ++ rest) = starLazy cls k (rev u ++ acc) rest.
Proof.
  revert acc; induction u as [|c u IH]; intros acc H; [reflexivity|].
  destruct (H c (or_introl eq_refl)) as [Hc Hk].
  cbn [app starLazy]. rewrite Hk, Hc.
  rewrite IH by (intros; apply H; now right).
  cbn [rev]. now rewrite <- app_assoc.
Qed.

(** A greedy star that can take the whole input and finish there does so. *)
Lemma starGreedy_all cls k (acc s : str) (r : R) :
  forallb cls s = true -> k (rev acc ++ s) [] = Some r ->
  starGreedy cls k acc s = Some r.
Proof.
  revert acc; induction s as [|c s IH]; intros acc Hs Hk; simpl in *.
  - now rewrite app_nil_r in Hk.
  - apply andb_true_iff in Hs as [Hc Hs]. rewrite Hc.
    rewrite (IH (c :: acc) Hs); [reflexivity|].
    simpl. now rewrite <- app_assoc.
Qed.

Lemma starLazy_here cls k (acc s : str) (r : R) :
  k (rev acc) s = Some r -> starLazy cls k acc s = Some r.
Proof. intros H. destruct s; simpl; now rewrite H. Qed.

End RegexFacts.

(* ------------------------------------------------------------------ *)
(** ** HomePage: the welcome message                                   *)
(* ------------------------------------------------------------------ *)

Section WelcomeMessage.
Import JS Eff Regex HomePage.

Lemma plainWithout_In (x : ascii) (s : str) (c : ascii) :
  plainWithout x s = true -> In c s -> dot c = true /\ Ascii.eqb x c = false.
Proof.
  unfold plainWithout. rewrite forallb_forall. intros H Hin.
  specialize (H c Hin). apply andb_true_iff in H as [Hd Hx].
  split; [assumption|]. unfold isChar in Hx. now destruct (Ascii.eqb x c).
Qed.

(** The groups that the pattern captures on a welcome text. *)
Lemma welcomeRegex_welcomeText (U Role L : str) :
  plainWithout "("%char U = true ->
  plainWithout ")"%char Role = true ->
  forallb dot L = true ->
  welcomeRegex (welcomeText U Role L) = Some (Role, L ++ lit ".").
Proof.
  intros HU HRole HL. unfold welcomeRegex, welcomeText.
  apply search_here. rewrite chars_app.
  change (lit " (") with (lit " " ++ lit "(").
  rewrite <- (app_assoc (lit " ")), (app_assoc U).
  rewrite starLazy_skip.
  2:{ intros c Hin. apply in_app_or in Hin as [Hin | Hin].
      - destruct (plainWithout_In _ _ _ HU Hin) as [Hd Hx].
        split; [assumption|]. intros g s'. now apply chars_mismatch.
      - destruct Hin as [<- | []]. split; reflexivity. }
  apply starLazy_here. rewrite chars_app.
  rewrite starLazy_skip.
  2:{ intros c Hin. destruct (plainWithout_In _ _ _ HRole Hin) as [Hd Hx].
      split; [assumption|]. intros g s'. now apply chars_mismatch. }
  apply starLazy_here. rewrite chars_app.
  rewrite app_nil_r, rev_involutive.
  apply starGreedy_all.
  - rewrite forallb_app, HL. reflexivity.
  - reflexivity.
Qed.

Lemma trim_welcomeText (U Role L : str) :
  trim (welcomeText U Role L) = welcomeText U Role L.
Proof.
  unfold trim, welcomeText.
  change (lit "Logged in as ") with ("L"%char :: lit "ogged in as ").
  cbn [app]. rewrite trimStart_fixed by reflexivity.
  change ("L"%char :: lit "ogged in as " ++ U ++ lit " (" ++ Role ++ lit ") at " ++ L ++ lit ".")
    with (("L"%char :: lit "ogged in as ") ++ U ++ lit " (" ++ Role ++ lit ") at " ++ L ++ lit ".").
  rewrite !app_assoc. apply trimEnd_snoc. reflexivity.
Qed.

End WelcomeMessage.

Section WelcomeMessageClaims.
Import JS Eff Regex HomePage.

(** C5, as the spec states it, fails: on "Logged in as Super User (admin) at
    Pharmacy." the field [userInfo] is the parenthesised text "admin", not
    the text "Super User" that stands before the parenthesis. *)
Lemma welcome_userInfo_counterexample :
  getWelcomeMessageParts
    (showing (welcomeText (lit "Super User") (lit "admin") (lit "Pharmacy")))
  = Ok (Some {| userInfo := lit "admin"; ward := lit "Pharmacy" |}) /\
  getWelcomeMessageParts
    (showing (welcomeText (lit "Super User") (lit "admin") (lit "Pharmacy")))
  <> Ok (Some {| userInfo := lit "Super User"; ward := lit "Pharmacy" |}).
Proof. split; [reflexivity | discriminate]. Qed.

(** C5 (amended): applied to a text "Logged in as U (Role) at L.", where U
    has no opening and Role no closing parenthesis, none of the three has a
    line terminator and L does not start with white space,
    [getWelcomeMessageParts] returns the pair whose [userInfo] is the
    parenthesised text Role and whose [ward] is L; and on every page whose
    text the pattern does not match it returns [null], never an object
    with only some fields. *)
Theorem getWelcomeMessageParts_decomposes :
  (forall U Role L : str,
      plainWithout "("%char U = true ->
      plainWithout ")"%char Role = true ->
      forallb dot L = true -> trimStart L = L ->
      getWelcomeMessageParts (showing (welcomeText U Role L))
      = Ok (Some {| userInfo := Role; ward := L |})) /\
  (forall d : Document,
      (forall t, loginUserInfo_textContent d = Ok (Some t) ->
                 welcomeRegex (trim t) = None) ->
      getWelcomeMessageParts d = Ok None).
Proof.
  split.
  - intros U Role L HU HRole HL HtL.
    unfold getWelcomeMessageParts, showing; simpl.
    rewrite trim_welcomeText.
    rewrite (welcomeRegex_welcomeText _ _ _ HU HRole HL).
    unfold trim. change (lit ".") with ["."%char].
    rewrite trimStart_app_fixed by (assumption || reflexivity).
    rewrite trimEnd_snoc by reflexivity.
    change ["."%char] with (lit "."). now rewrite dropFinalDot_snoc.
  - intros d H. unfold getWelcomeMessageParts.
    destruct (loginUserInfo_waitFor d) as [[]|e]; [|reflexivity]. simpl.
    destruct (loginUserInfo_textContent d) as [[t|]|e]; simpl; try reflexivity.
    rewrite (H t eq_refl). now destruct (truthy (trim t)).
Qed.

Lemma getWelcomeMessageParts_decomposes_witness :
  getWelcomeMessageParts
    (showing (welcomeText (lit "Super User") (lit "admin") (lit "Pharmacy")))
  = Ok (Some {| userInfo := lit "admin"; ward := lit "Pharmacy" |}) /\
  getWelcomeMessageParts (showing (lit "Welcome back")) = Ok None.
Proof.
  split.
  - apply (proj1 getWelcomeMessageParts_decomposes); reflexivity.
  - apply (proj2 getWelcomeMessageParts_decomposes).
    intros t H. injection H as <-. reflexivity.
Defined.

End WelcomeMessageClaims.

(* ------------------------------------------------------------------ *)
(** ** PatientDetailPage: the field extractors                         *)
(* ------------------------------------------------------------------ *)

Section FieldExtractors.
Import JS Eff Regex PatientDetailPage.

(** Whatever the birthdate pattern captures is a date that stands in
    parentheses in the text. *)
Lemma birthdateRegex_sound (t g : str) :
  birthdateRegex t = Some g ->
  exists pre ws1 ws2 post,
    t = pre ++ lit "(" ++ ws1 ++ g ++ ws2 ++ lit ")" ++ post /\
    forallb isWhiteSpace ws1 = true /\ isDate g /\
    forallb isWhiteSpace ws2 = true.
Proof.
  unfold birthdateRegex. intros H.
  apply search_Some in H as (pre & s0 & -> & H).
  apply chars_Some in H as (s1 & -> & H).
  apply starGreedy_Some in H as (ws1 & s2 & -> & Hws1 & H).
  apply oneOrTwo_Some in H as (d & s3 & -> & Hd & Hdd & H).
  apply chars_Some in H as (s4 & -> & H).
  apply times_Some in H as (w & s5 & -> & Hw & Hww & H).
  apply chars_Some in H as (s6 & -> & H).
  apply times_Some in H as (y & s7 & -> & Hy & Hyy & H).
  apply starGreedy_Some in H as (ws2 & s8 & -> & Hws2 & H).
  apply chars_Some in H as (post & -> & H).
  injection H as <-. simpl rev. simpl app at 1.
  exists pre, ws1, ws2, post. repeat split; try assumption.
  - simpl. repeat (rewrite <- app_assoc || rewrite <- app_comm_cons). reflexivity.
  - exists d, w, y. repeat split; assumption.
Qed.

Lemma birthdateRegex_none (t : str) :
  ~ hasParenthesisedDate t -> birthdateRegex t = None.
Proof.
  intros H. destruct (birthdateRegex t) as [g|] eqn:E; [|reflexivity].
  exfalso. apply H. apply birthdateRegex_sound in E as (pre & ws1 & ws2 & post & ?).
  now exists pre, ws1, g, ws2, post.
Qed.

End FieldExtractors.

Section FieldExtractorClaims.
Import JS Eff Regex PatientDetailPage.

Lemma no_parenthesis_no_date (t : str) :
  ~ In "("%char t -> ~ hasParenthesisedDate t.
Proof.
  intros Hno (pre & ws1 & g & ws2 & post & -> & _).
  apply Hno, in_or_app. right. now left.
Qed.

(** C6, as the spec states it, fails: the age read from
    "49 year(s) ( 22.Mar.1976)" is the whole text, with the birthdate
    still in it, not "49 year(s)". *)
Lemma age_keeps_birthdate_counterexample :
  getPatientAge (withAge (lit "49 year(s) ( 22.Mar.1976)"))
  = Ok (lit "49 year(s) ( 22.Mar.1976)") /\
  getPatientAge (withAge (lit "49 year(s) ( 22.Mar.1976)"))
  <> Ok (lit "49 year(s)").
Proof. split; [reflexivity | discriminate]. Qed.

(** C6 (amended): on a page whose age element reads
    "49 year(s) ( 22.Mar.1976)", [getPatientAge] returns that whole text,
    white space normalised, and [getPatientBirthdate] returns exactly
    "22.Mar.1976"; and the birthdate pattern matches no text that is
    without a parenthesised date. *)
Theorem age_birthdate_split :
  (forall d : Document,
      textContent d AgeText = Ok (Some (lit "49 year(s) ( 22.Mar.1976)")) ->
      getPatientAge d = Ok (lit "49 year(s) ( 22.Mar.1976)") /\
      getPatientBirthdate d = Ok (lit "22.Mar.1976")) /\
  (forall t : str, ~ hasParenthesisedDate t -> birthdateRegex t = None).
Proof.
  split.
  - intros d H.
    assert (Hage : getPatientAge d = Ok (lit "49 year(s) ( 22.Mar.1976)")).
    { unfold getPatientAge. rewrite H. reflexivity. }
    split; [assumption|].
    unfold getPatientBirthdate. rewrite Hage. reflexivity.
  - exact birthdateRegex_none.
Qed.

Lemma age_birthdate_split_witness :
  (getPatientAge (withAge (lit "49 year(s) ( 22.Mar.1976)"))
   = Ok (lit "49 year(s) ( 22.Mar.1976)") /\
   getPatientBirthdate (withAge (lit "49 year(s) ( 22.Mar.1976)"))
   = Ok (lit "22.Mar.1976")) /\
  birthdateRegex (lit "49 years") = None.
Proof.
  split.
  - apply (proj1 age_birthdate_split). reflexivity.
  - apply (proj2 age_birthdate_split). apply no_parenthesis_no_date.
    simpl. intuition discriminate.
Defined.

Lemma trySelectors_all_fail (d : Document) (l : list Selector) :
  (forall sel, In sel l -> selectorProbeFails d sel) ->
  trySelectors d l = Ok [].
Proof.
  induction l as [|sel l IH]; intros H; [reflexivity|].
  simpl. assert (IH' : trySelectors d l = Ok []) by (apply IH; intros; apply H; now right).
  destruct (H sel (or_introl eq_refl)) as [(e & ->) | [-> | (t & -> & Ht)]].
  - assumption.
  - assumption.
  - simpl. rewrite Ht. simpl. now rewrite andb_false_r.
Qed.

Lemma plain_probe_fails (d : Document) (sel : Selector) :
  selectorProbeFails d sel ->
  tryCatch (Eff.bind (textContent d sel)
              (fun text => Ok (orEmpty (option_map trim text))))
           (fun _ => Ok []) = Ok [].
Proof.
  intros [(e & ->) | [-> | (t & -> & Ht)]]; simpl; [reflexivity | reflexivity|].
  now rewrite Ht.
Qed.

Lemma tryCatch_never_raises (A : Type) (body : result A) (handler : Error -> result A) :
  (forall e, raises (handler e) = false) ->
  raises (tryCatch body handler) = false.
Proof. intros H. destruct body; simpl; [reflexivity | apply H]. Qed.

(** C7: each field extractor resolves to the empty string when all its
    probes fail, a probe failing when its locator resolves to nothing, when
    its text is [null] or blank, or when its pattern does not match (for the
    birthdate: the age text is empty or has no parenthesised date, and each
    of the three fallback selectors fails; for the patient id: no match, or
    a blank capture).  No extractor ever rejects. *)
Theorem extractors_return_empty_when_probes_fail (d : Document) :
  (selectorProbeFails d GivenName -> getPatientGivenName d = Ok []) /\
  (selectorProbeFails d FamilyName -> getPatientFamilyName d = Ok []) /\
  (selectorProbeFails d GenderInSection -> selectorProbeFails d GenderAnywhere ->
   getPatientGender d = Ok []) /\
  (selectorProbeFails d AgeText -> getPatientAge d = Ok []) /\
  (ageProbeFails d ->
   (forall sel, In sel selectors -> selectorProbeFails d sel) ->
   getPatientBirthdate d = Ok []) /\
  (idProbeFails d -> getPatientId d = Ok []) /\
  (raises (getPatientGivenName d) = false /\
   raises (getPatientFamilyName d) = false /\
   raises (getPatientGender d) = false /\
   raises (getPatientAge d) = false /\
   raises (getPatientBirthdate d) = false /\
   raises (getPatientId d) = false).
Proof.
  split; [|split; [|split; [|split; [|split; [|split]]]]].
  - apply plain_probe_fails.
  - apply plain_probe_fails.
  - intros H1 H2. unfold getPatientGender.
    destruct H1 as [(e & E) | [E | (t & E & Ht)]]; rewrite E; simpl.
    + now apply plain_probe_fails.
    + reflexivity.
    + now rewrite Ht.
  - intros [(e & E) | [E | (t & E & Ht)]]; unfold getPatientAge; rewrite E; simpl;
      try reflexivity.
    destruct (truthy t); [|reflexivity]. now rewrite trim_collapse_blank.
  - intros (ageText & Hage & Hfail) Hsel.
    unfold getPatientBirthdate. rewrite Hage. cbn [Eff.bind].
    replace (if truthy ageText then birthdateRegex ageText else None)
      with (@None str).
    + now rewrite trySelectors_all_fail.
    + destruct Hfail as [-> | ->]; [reflexivity | now destruct (truthy ageText)].
  - intros Hid. unfold getPatientId.
    destruct Hid as [(e & ->) | [-> | (t & -> & [Hm | (g & Hm & Hg)])]];
      simpl; try reflexivity; rewrite Hm; simpl; [reflexivity | now rewrite Hg].
  - repeat split; apply tryCatch_never_raises; intros e; try reflexivity.
    now apply tryCatch_never_raises.
Qed.

Lemma extractors_return_empty_when_probes_fail_witness :
  getPatientGivenName sparse = Ok [] /\
  getPatientFamilyName sparse = Ok [] /\
  getPatientGender sparse = Ok [] /\
  getPatientBirthdate sparse = Ok [] /\
  getPatientId sparse = Ok [] /\
  getPatientAge (withAge (lit "  ")) = Ok [].
Proof.
  destruct (extractors_return_empty_when_probes_fail sparse)
    as (Hgiven & Hfamily & Hgender & _ & Hbirth & Hid & _).
  destruct (extractors_return_empty_when_probes_fail (withAge (lit "  ")))
    as (_ & _ & _ & Hage & _).
  split; [|split; [|split; [|split; [|split]]]].
  - apply Hgiven. right. right. exists (lit " "). split; reflexivity.
  - apply Hfamily. right. left. reflexivity.
  - apply Hgender; left; exists TimeoutError; reflexivity.
  - apply Hbirth.
    + exists (lit "49 year(s)"). split; [reflexivity | right; reflexivity].
    + intros sel [<- | [<- | [<- | []]]].
      * left. exists TimeoutError. reflexivity.
      * right. right. exists (lit "   "). split; reflexivity.
      * right. left. reflexivity.
  - apply Hid. right. right. exists (lit "Patient ID").
    split; [reflexivity | left; reflexivity].
  - apply Hage. right. right. exists (lit "  "). split; reflexivity.
Defined.

End FieldExtractorClaims.

(* ------------------------------------------------------------------ *)
(** ** LoginPage: the location control                                 *)
(* ------------------------------------------------------------------ *)

Section LocationControl.
Import JS Eff LoginPage.

(** The enumeration absorbs a failure of the classifying probe; the
    selection hands it on to its caller. *)
Lemma probe_failure_in_general (d : Document) (e : Error) (location : str) :
  locationDropdown_isSelect d = Throw e ->
  getLocationOptions d = getLocationOptionsFromButtons d /\
  selectLocation d location = Throw e.
Proof.
  intros H. unfold getLocationOptions, selectLocation. rewrite H. now split.
Qed.

(** *** The visibility tests of the recovery branch *)

(** When every test resolves, the loop collects the labels that are
    visible, in the order of the list. *)
Lemma visibleAmong_resolves (d : Document) (visible : str -> bool) (l : list str) :
  (forall loc, In loc l -> text_isVisible d loc = Ok (visible loc)) ->
  visibleAmong d l = Ok (filter visible l).
Proof.
  induction l as [|loc l IH]; intros H; [reflexivity|].
  cbn [visibleAmong filter]. rewrite (H loc (or_introl eq_refl)).
  cbn [Eff.bind]. rewrite IH by (intros x Hx; apply H; now right).
  reflexivity.
Qed.

(** The loop rejects with the error of the first test that rejects. *)
Lemma visibleAmong_rejects (d : Document) (pre post : list str) (loc : str)
  (e : Error) :
  (forall x, In x pre -> exists b, text_isVisible d x = Ok b) ->
  text_isVisible d loc = Throw e ->
  visibleAmong d (pre ++ loc :: post) = Throw e.
Proof.
  intros Hpre Hloc. induction pre as [|x pre IH]; cbn [app visibleAmong].
  - now rewrite Hloc.
  - destruct (Hpre x (or_introl eq_refl)) as [b ->]. cbn [Eff.bind].
    rewrite IH by (intros y Hy; apply Hpre; now right). reflexivity.
Qed.

(** The loop rejects only with the error of a test that rejects. *)
Lemma visibleAmong_Throw (d : Document) (l : list str) (e : Error) :
  visibleAmong d l = Throw e ->
  exists loc, In loc l /\ text_isVisible d loc = Throw e.
Proof.
  induction l as [|loc l IH]; cbn [visibleAmong]; [discriminate|].
  destruct (text_isVisible d loc) as [b|e'] eqn:Hv; cbn [Eff.bind].
  - destruct (visibleAmong d l) as [later|e'] eqn:Hl; cbn [Eff.bind]; [discriminate|].
    intros [= ->]. destruct (IH eq_refl) as (x & Hx & Ht).
    exists x. split; [now right | assumption].
  - intros [= ->]. exists loc. split; [now left | assumption].
Qed.

(** What the loop returns are labels of the list, each of them visible. *)
Lemma visibleAmong_Ok (d : Document) (l available : list str) :
  visibleAmong d l = Ok available ->
  forall x, In x available -> In x l /\ text_isVisible d x = Ok true.
Proof.
  revert available. induction l as [|loc l IH]; cbn [visibleAmong]; intros available.
  - intros [= <-] x [].
  - destruct (text_isVisible d loc) as [b|e'] eqn:Hv; cbn [Eff.bind]; [|discriminate].
    destruct (visibleAmong d l) as [later|e'] eqn:Hl; cbn [Eff.bind]; [|discriminate].
    intros [= <-] x Hx. destruct b.
    + destruct Hx as [<- | Hx]; [split; [now left | assumption]|].
      destruct (IH later eq_refl x Hx). split; [now right | assumption].
    + destruct (IH later eq_refl x Hx). split; [now right | assumption].
Qed.

(** C8 fails in the code for the selection: on a page whose six locations
    are buttons and whose classifying probe times out, [getLocationOptions]
    takes the button path, and clicking "Inpatient Ward" through the button
    path would succeed, but [selectLocation] rejects with the time-out of
    the probe. *)
Theorem selectLocation_propagates_probe_failure :
  getLocationOptions undetected = getLocationOptionsFromButtons undetected /\
  getLocationOptions undetected = Ok commonLocations /\
  selectLocationButton undetected (lit "Inpatient Ward")
  = Ok (ClickedButton (lit "Inpatient Ward")) /\
  selectLocation undetected (lit "Inpatient Ward") = Throw TimeoutError /\
  selectLocation undetected (lit "random") = Throw TimeoutError.
Proof. repeat split. Qed.

(** C9, as the spec states it, fails in two ways: when the buttons are
    there but their texts are blank the dynamic enumeration has no entry
    and the empty list is returned; when no button appears and one of the
    expected labels is visible, only that label is returned, not the fixed
    list. *)
Lemma hardcoded_list_counterexample :
  (dynamicEntries blankButtons = [] /\
   getLocationOptionsFromButtons blankButtons = Ok []) /\
  (dynamicEntries onlyPharmacy = [] /\
   getLocationOptionsFromButtons onlyPharmacy = Ok [lit "Pharmacy"] /\
   getLocationOptionsFromButtons onlyPharmacy <> Ok commonLocations).
Proof. repeat split. discriminate. Qed.

Lemma filter_incl_self (A : Type) (f : A -> bool) (l : list A) :
  incl (filter f l) l.
Proof. intros x Hx. now apply filter_In in Hx. Qed.

(** C9 (amended): whenever the wait for the first location button fails,
    the enumeration falls back to the hard-coded list of expected labels,
    which is the list [VALID_LOCATIONS] of the fixtures, and tests the
    visibility of each label in turn.  When every test resolves it returns
    exactly the visible labels, in the order of the list, if there is one,
    and the whole list if there is none; either way a list that is not
    empty and holds only labels of the hard-coded list.  When a test
    rejects, the enumeration rejects with the error of the first test that
    does. *)
Theorem buttons_fall_back_to_hardcoded_list (d : Document) (e : Error) :
  locationButtons_waitFor d = Throw e ->
  (forall visible : str -> bool,
      (forall loc, In loc commonLocations -> text_isVisible d loc = Ok (visible loc)) ->
      exists l,
        getLocationOptionsFromButtons d = Ok l /\
        l <> [] /\ incl l commonLocations /\
        ((exists loc, In loc commonLocations /\ visible loc = true) ->
         l = filter visible commonLocations) /\
        ((forall loc, In loc commonLocations -> visible loc = false) ->
         l = commonLocations)) /\
  (forall pre loc post e',
      commonLocations = pre ++ loc :: post ->
      (forall x, In x pre -> exists b, text_isVisible d x = Ok b) ->
      text_isVisible d loc = Throw e' ->
      getLocationOptionsFromButtons d = Throw e') /\
  commonLocations = VALID_LOCATIONS.
Proof.
  intros H. split; [|split; [|reflexivity]].
  - intros visible Hvis. unfold getLocationOptionsFromButtons. rewrite H.
    cbn [Eff.bind tryCatch].
    rewrite (visibleAmong_resolves d visible commonLocations Hvis). cbn [Eff.bind].
    destruct (filter visible commonLocations) as [|x l] eqn:E.
    + exists commonLocations. cbn [List.length Nat.ltb Nat.leb].
      split; [reflexivity|]. split; [discriminate|]. split; [apply incl_refl|].
      split; [|reflexivity].
      intros (loc & Hin & Hloc). exfalso.
      assert (Hx : In loc (filter visible commonLocations))
        by (apply filter_In; now split).
      rewrite E in Hx. contradiction.
    + exists (x :: l). cbn [List.length Nat.ltb Nat.leb].
      split; [reflexivity|]. split; [discriminate|].
      split; [rewrite <- E; apply filter_incl_self|].
      split; [reflexivity|].
      intros Hnone. exfalso.
      assert (Hx : In x (filter visible commonLocations)) by (rewrite E; now left).
      apply filter_In in Hx as [Hin Hv]. rewrite (Hnone x Hin) in Hv.
      discriminate.
  - intros pre loc post e' Hsplit Hpre Hloc.
    unfold getLocationOptionsFromButtons. rewrite H. cbn [Eff.bind tryCatch].
    rewrite Hsplit, (visibleAmong_rejects d pre post loc e' Hpre Hloc).
    reflexivity.
Qed.

Lemma buttons_fall_back_to_hardcoded_list_witness :
  (exists l,
      getLocationOptionsFromButtons onlyPharmacy = Ok l /\
      l <> [] /\ incl l commonLocations /\
      ((exists loc, In loc commonLocations /\ streq loc (lit "Pharmacy") = true) ->
       l = filter (fun loc => streq loc (lit "Pharmacy")) commonLocations) /\
      ((forall loc, In loc commonLocations -> streq loc (lit "Pharmacy") = false) ->
       l = commonLocations)) /\
  getLocationOptionsFromButtons pharmacyTwice = Throw StrictModeViolation.
Proof.
  split.
  - apply (proj1 (buttons_fall_back_to_hardcoded_list onlyPharmacy TimeoutError
                    eq_refl)
             (fun loc => streq loc (lit "Pharmacy"))).
    intros loc _. reflexivity.
  - apply (proj1 (proj2 (buttons_fall_back_to_hardcoded_list pharmacyTwice
                           TimeoutError eq_refl))
             [lit "Inpatient Ward"; lit "Outpatient Clinic"; lit "Laboratory"]
             (lit "Pharmacy")
             [lit "Registration Desk"; lit "Isolation Ward"]
             StrictModeViolation).
    + reflexivity.
    + intros x [<- | [<- | [<- | []]]]; now exists false.
    + reflexivity.
Defined.

End LocationControl.

(* ------------------------------------------------------------------ *)
(** ** PatientSearchPage: waiting, retrying, extracting                *)
(* ------------------------------------------------------------------ *)

Section SearchFacts.
Import JS Eff PatientSearchPage.
Local Open Scope search_scope.

(** *** The convergence wait *)

(** In the page the function sees neither the baseline nor the query: it
    answers false on an empty table and throws on any other. *)
Lemma newMatchingRow_undefined (rows : Table) :
  newMatchingRow rows None None
  = match rows with [] => Ok false | _ :: _ => Throw TypeError end.
Proof. destruct rows; reflexivity. Qed.

Lemma waitForFunction_empty_step (later : list Table) (B : list str) (q : str) :
  waitForFunction ([] :: later) newMatchingRow B q
  = (Poll false :: fst (waitForFunction later newMatchingRow B q),
     snd (waitForFunction later newMatchingRow B q)).
Proof.
  cbn [waitForFunction]. rewrite newMatchingRow_undefined.
  unfold bind, emit. now destruct (waitForFunction later newMatchingRow B q) as [l [[]|e]].
Qed.

Lemma waitForFunction_row_step (r : Row) (rows : Table) (later : list Table)
  (B : list str) (q : str) :
  waitForFunction ((r :: rows) :: later) newMatchingRow B q
  = ([PollThrew], Throw TypeError).
Proof. cbn [waitForFunction]. now rewrite newMatchingRow_undefined. Qed.

(** The call of [waitForFunction] always rejects, and no poll of it is
    answered with a match. *)
Lemma waitForFunction_rejects (polls : list Table) (B : list str) (q : str) :
  exists l e,
    waitForFunction polls newMatchingRow B q = (l, Throw e) /\
    Forall (fun ev => ev = Poll false \/ ev = PollThrew) l.
Proof.
  induction polls as [|[|r rows] later IH].
  - exists [], TimeoutError. split; [reflexivity | constructor].
  - destruct IH as (l & e & Hl & Hall). rewrite waitForFunction_empty_step, Hl.
    exists (Poll false :: l), e. split; [reflexivity|]. constructor; auto.
  - rewrite waitForFunction_row_step. exists [PollThrew], TypeError.
    split; [reflexivity|]. constructor; auto.
Qed.

Lemma wait_events (polls : list Table) (B : list str) (q : str) :
  exists l,
    catch (waitForFunction polls newMatchingRow B q) (fun _ => emit WaitTimedOut)
    = (l, Ok tt) /\
    l <> [] /\ Forall (fun e => isPoll e = true) l.
Proof.
  destruct (waitForFunction_rejects polls B q) as (l & e & Hl & Hall).
  exists (l ++ [WaitTimedOut]). rewrite Hl. split; [reflexivity|]. split.
  - destruct l; discriminate.
  - apply Forall_app. split; [|now constructor].
    eapply Forall_impl; [|exact Hall]. now intros ev [-> | ->].
Qed.

(** *** The extraction *)

Lemma extractRow_In (i : nat) (r : Row) (q : str) (p : Patient) :
  In p (extractRow i r q) ->
  index p = i /\ 2 <= List.length (cells r) /\ name p = cellText r 1 /\
  name p <> [] /\ includes (toLowerCase (name p)) (toLowerCase q) = true.
Proof.
  unfold extractRow. destruct (2 <=? List.length (cells r)) eqn:Hc; [|contradiction].
  destruct (truthy (cellText r 1)) eqn:Ht; [|contradiction]. simpl.
  destruct (includes _ _) eqn:Hi; [|contradiction].
  intros [<- | []]. simpl. apply Nat.leb_le in Hc. repeat split; auto.
  intros E. rewrite E in Ht. discriminate.
Qed.

Lemma extractFrom_In (rows : Table) (i : nat) (q : str) (p : Patient) :
  In p (extractFrom i rows q) ->
  exists r, nth_error rows (index p - i) = Some r /\ i <= index p /\
            2 <= List.length (cells r) /\ name p = cellText r 1 /\
            name p <> [] /\ includes (toLowerCase (name p)) (toLowerCase q) = true.
Proof.
  revert i; induction rows as [|r rows IH]; intros i H; [contradiction|].
  simpl in H. apply in_app_or in H as [H | H].
  - apply extractRow_In in H as (Hi & ?). exists r. rewrite Hi, Nat.sub_diag.
    repeat split; try tauto. lia.
  - destruct (IH _ H) as (r' & Hn & Hle & ?). exists r'.
    replace (index p - i) with (S (index p - S i)) by lia.
    repeat split; try tauto. lia.
Qed.

(** *** The retry loop *)

Lemma retry_shape (w : World) (q : str) (n a : nat) (p : list Patient) :
  exists l ps,
    retry w q n a p = (l, Ok ps) /\
    Forall (fun e => isRetryEvent e = true) l /\
    countOf isExtract l <= n /\
    ((n = 0 /\ ps = p) \/
     exists k, k < n /\ ps = extractPatients (rowsAtAttempt w (a + k)) q).
Proof.
  revert a p; induction n as [|n IH]; intros a p.
  - exists [], p. repeat split; auto.
  - simpl. destruct (extractPatients (rowsAtAttempt w a) q) as [|x xs] eqn:E.
    + destruct (IH (S a) []) as (l & ps & Hr & Hall & Hcount & Hps).
      simpl. rewrite Hr. simpl.
      exists (Extract a 0 :: Sleep 2000 :: l), ps. repeat split.
      * repeat constructor; assumption.
      * unfold countOf in *. simpl. lia.
      * right. destruct Hps as [[-> ->] | (k & Hk & ->)].
        -- exists 0. split; [lia|]. now rewrite Nat.add_0_r.
        -- exists (S k). split; [lia|]. now rewrite Nat.add_succ_r.
    + simpl. exists [Extract a (S (List.length xs))], (x :: xs). repeat split.
      * repeat constructor.
      * unfold countOf. simpl. lia.
      * right. exists 0. split; [lia|]. now rewrite Nat.add_0_r.
Qed.

Lemma retry_first (w : World) (q : str) (n a k : nat) (p : list Patient) :
  k < n ->
  (forall j, j < k -> extractPatients (rowsAtAttempt w (a + j)) q = []) ->
  extractPatients (rowsAtAttempt w (a + k)) q <> [] ->
  exists l,
    retry w q n a p = (l, Ok (extractPatients (rowsAtAttempt w (a + k)) q)) /\
    countOf isExtract l = S k.
Proof.
  revert a k p; induction n as [|n IH]; intros a k p Hk Hempty Hfound; [lia|].
  simpl. destruct k as [|k].
  - rewrite Nat.add_0_r in *.
    destruct (extractPatients (rowsAtAttempt w a) q) as [|x xs]; [congruence|].
    simpl. now exists [Extract a (S (List.length xs))].
  - assert (E : extractPatients (rowsAtAttempt w a) q = []).
    { rewrite <- (Nat.add_0_r a). apply Hempty. lia. }
    rewrite E. simpl.
    destruct (IH (S a) k []) as (l & Hr & Hc).
    + lia.
    + intros j Hj. rewrite Nat.add_succ_comm. apply Hempty. lia.
    + now rewrite Nat.add_succ_comm.
    + rewrite Nat.add_succ_comm in Hr. rewrite Hr. simpl.
      exists (Extract a 0 :: Sleep 2000 :: l). split; [reflexivity|].
      unfold countOf in *. simpl. lia.
Qed.

Lemma retry_exhausted (w : World) (q : str) (n a : nat) (p : list Patient) :
  0 < n ->
  (forall j, j < n -> extractPatients (rowsAtAttempt w (a + j)) q = []) ->
  exists l, retry w q n a p = (l, Ok []) /\ countOf isExtract l = n.
Proof.
  revert a p; induction n as [|n IH]; intros a p Hn Hempty; [lia|].
  simpl.
  assert (E : extractPatients (rowsAtAttempt w a) q = []).
  { rewrite <- (Nat.add_0_r a). apply Hempty. lia. }
  rewrite E. simpl. destruct n as [|n].
  - simpl. now exists [Extract a 0; Sleep 2000].
  - destruct (IH (S a) []) as (l & Hr & Hc).
    + lia.
    + intros j Hj. rewrite Nat.add_succ_comm. apply Hempty. lia.
    + rewrite Hr. simpl. exists (Extract a 0 :: Sleep 2000 :: l).
      split; [reflexivity|]. unfold countOf in *. simpl. lia.
Qed.

(** *** One run of [searchPatient] *)

Lemma searchPatient_unusable (w : World) (q : str) :
  searchInputUsable w = false ->
  searchPatient w q = ([], Throw TimeoutError).
Proof. intros H. unfold searchPatient, fill. now rewrite H. Qed.

Lemma searchPatient_usable (w : World) (q : str) :
  searchInputUsable w = true ->
  exists polls rest ps,
    catch (waitForFunction (rowsAtPoll w) newMatchingRow
             (allTextContents (rowsAtSnapshot w)) q)
          (fun _ => emit WaitTimedOut) = (polls, Ok tt) /\
    retry w q maxAttempts 0 [] = (rest, Ok ps) /\
    searchPatient w q =
      ([Fill []; Sleep 300; Snapshot (allTextContents (rowsAtSnapshot w));
        Fill q; Press (lit "Enter")] ++ polls ++ rest,
       Ok {| success := true;
             hasResults := 0 <? List.length ps;
             resultCount := List.length ps;
             patients := ps;
             message := if 0 <? List.length ps
                        then FoundMessage (List.length ps) q
                        else NoneFoundMessage q |}).
Proof.
  intros H.
  destruct (wait_events (rowsAtPoll w) (allTextContents (rowsAtSnapshot w)) q)
    as (polls & Hw & _).
  destruct (retry_shape w q maxAttempts 0 []) as (rest & ps & Hr & _).
  exists polls, rest, ps. repeat split; try assumption.
  unfold searchPatient. rewrite Hw, Hr.
  unfold fill, press, waitForTimeout, emit. rewrite H. cbn.
  now rewrite app_nil_r.
Qed.

Lemma countOf_app (f : Event -> bool) (l l' : list Event) :
  countOf f (l ++ l') = countOf f l + countOf f l'.
Proof. unfold countOf. now rewrite filter_app, length_app. Qed.

Lemma countOf_none (f : Event -> bool) (l : list Event) :
  Forall (fun e => f e = false) l -> countOf f l = 0.
Proof.
  unfold countOf. induction 1 as [|e l He _ IH]; [reflexivity|].
  simpl. now rewrite He.
Qed.

Lemma poll_not_extract (l : list Event) :
  Forall (fun e => isPoll e = true) l ->
  Forall (fun e => isExtract e = false) l /\
  Forall (fun e => isDispatch e = false) l.
Proof.
  intros H; split; (eapply Forall_impl; [|exact H]); intros [] ?; simpl in *; congruence.
Qed.

Lemma retry_not_dispatch (l : list Event) :
  Forall (fun e => isRetryEvent e = true) l ->
  Forall (fun e => isDispatch e = false) l.
Proof.
  intros H. eapply Forall_impl; [|exact H]. intros [] ?; simpl in *; congruence.
Qed.

End SearchFacts.

Section SearchClaims.
Import JS Eff PatientSearchPage.

Lemma not_poll_true (l : list Event) :
  Forall (fun ev => ev = Poll false \/ ev = PollThrew) l -> ~ In (Poll true) l.
Proof.
  intros Hall Hin. rewrite Forall_forall in Hall.
  destruct (Hall _ Hin); discriminate.
Qed.

Lemma retry_event_not_poll (l : list Event) (e : Event) :
  Forall (fun e => isRetryEvent e = true) l -> isPoll e = true -> ~ In e l.
Proof.
  intros Hall He Hin. rewrite Forall_forall in Hall. specialize (Hall _ Hin).
  destruct e; discriminate.
Qed.

(** C1: for every baseline [B], every sequence of live row sets [polls] and
    every query, the convergence wait of [searchPatient] does not report a
    match: the function in the page is handed the selector alone, so the
    call of [waitForFunction] rejects, by the time limit while the table is
    empty and by a TypeError at the first poll that sees a row, and the
    [catch] of [searchPatient], the timed-out branch, takes over.  So the
    wait reports a match only if a new matching row was seen, since it
    never reports one, and it ends in the timed-out branch whenever no such
    row appears; in every run of [searchPatient] that gets as far as the
    wait no poll is answered with a match and the timed-out branch is
    taken. *)
Theorem awaitConvergence_reports_no_match (polls : list Table) (B : list str)
  (q : str) :
  awaitConvergence polls B q = TimedOut /\
  awaitConvergence polls B q <> Matched /\
  (exists l,
      catch (waitForFunction polls newMatchingRow B q) (fun _ => emit WaitTimedOut)
      = (l ++ [WaitTimedOut], Ok tt) /\
      ~ In (Poll true) l) /\
  (forall w, searchInputUsable w = true ->
             In WaitTimedOut (events (searchPatient w q)) /\
             ~ In (Poll true) (events (searchPatient w q))).
Proof.
  destruct (waitForFunction_rejects polls B q) as (l & e & Hl & Hall).
  unfold awaitConvergence. rewrite Hl. cbn [snd].
  split; [reflexivity|]. split; [discriminate|]. split.
  - exists l. split; [reflexivity | now apply not_poll_true].
  - intros w Hu.
    destruct (searchPatient_usable w q Hu) as (pl & rest & ps & Hw & Hr & ->).
    destruct (waitForFunction_rejects (rowsAtPoll w)
                (allTextContents (rowsAtSnapshot w)) q) as (l' & e' & Hl' & Hall').
    rewrite Hl' in Hw. cbn in Hw. injection Hw as <-.
    destruct (retry_shape w q maxAttempts 0 []) as (rest' & ps' & Hr' & Hrest & _).
    rewrite Hr in Hr'. injection Hr' as <- <-.
    unfold events. cbn [fst]. split.
    + apply in_or_app. right. apply in_or_app. left.
      apply in_or_app. right. now left.
    + intros Hin. apply in_app_or in Hin as [Hin | Hin].
      * cbn in Hin. intuition discriminate.
      * apply in_app_or in Hin as [Hin | Hin].
        -- apply in_app_or in Hin as [Hin | [Hin | []]]; [|discriminate].
           now apply (not_poll_true l' Hall').
        -- now apply (retry_event_not_poll rest (Poll true) Hrest).
Qed.

Lemma awaitConvergence_reports_no_match_witness :
  In WaitTimedOut (events (searchPatient promptWorld (lit "john"))) /\
  ~ In (Poll true) (events (searchPatient promptWorld (lit "john"))).
Proof.
  apply (proj2 (proj2 (proj2 (awaitConvergence_reports_no_match
                                (rowsAtPoll promptWorld)
                                (allTextContents (rowsAtSnapshot promptWorld))
                                (lit "john"))))
           promptWorld).
  reflexivity.
Defined.

(** C2, as the spec states it, fails: when the table stays empty through all
    five attempts the result carries [success: true]. *)
Lemma not_found_success_flag_counterexample :
  (forall k, k < maxAttempts ->
     extractPatients (rowsAtAttempt emptyWorld k) (lit "john") = []) /\
  exists r, outcome (searchPatient emptyWorld (lit "john")) = Ok r /\
            patients r = [] /\ success r = true /\ success r <> false.
Proof.
  split; [reflexivity|]. eexists. split; [reflexivity|].
  repeat split. discriminate.
Qed.

(** C2 (amended): when the search input can be used and every one of the
    five extractions is empty, [searchPatient] resolves, without rejecting,
    to a result whose [hasResults] is false, whose [resultCount] is 0 and
    whose patient list is empty; its [success] flag is true. *)
Theorem searchPatient_not_found_is_data (w : World) (q : str) :
  searchInputUsable w = true ->
  (forall k, k < maxAttempts -> extractPatients (rowsAtAttempt w k) q = []) ->
  outcome (searchPatient w q)
  = Ok {| success := true; hasResults := false; resultCount := 0;
          patients := []; message := NoneFoundMessage q |}.
Proof.
  intros Hu Hempty.
  destruct (searchPatient_usable w q Hu) as (polls & rest & ps & _ & Hr & ->).
  destruct (retry_exhausted w q maxAttempts 0 []) as (l & Hr' & _).
  - unfold maxAttempts. lia.
  - exact Hempty.
  - rewrite Hr' in Hr. injection Hr as _ <-. reflexivity.
Qed.

Lemma searchPatient_not_found_is_data_witness :
  outcome (searchPatient emptyWorld (lit "john"))
  = Ok {| success := true; hasResults := false; resultCount := 0;
          patients := []; message := NoneFoundMessage (lit "john") |}.
Proof.
  apply (searchPatient_not_found_is_data emptyWorld (lit "john")).
  - reflexivity.
  - intros k _. reflexivity.
Defined.

(** C3: one run of [searchPatient] dispatches the triggering action at most
    [maxAttempts] = 5 times and extracts at most 5 times; and when attempt
    [k] is the first whose filtered record set is not empty, the run
    resolves to a successful result with exactly that record set, after
    exactly [k + 1] extractions. *)
Theorem searchPatient_retry_bounded (w : World) (q : str) :
  countOf isDispatch (events (searchPatient w q)) <= maxAttempts /\
  countOf isExtract (events (searchPatient w q)) <= maxAttempts /\
  (forall k,
      searchInputUsable w = true -> k < maxAttempts ->
      (forall j, j < k -> extractPatients (rowsAtAttempt w j) q = []) ->
      extractPatients (rowsAtAttempt w k) q <> [] ->
      exists r,
        outcome (searchPatient w q) = Ok r /\
        success r = true /\ hasResults r = true /\
        patients r = extractPatients (rowsAtAttempt w k) q /\
        countOf isExtract (events (searchPatient w q)) = S k).
Proof.
  destruct (searchInputUsable w) eqn:Hu.
  - destruct (searchPatient_usable w q Hu) as (polls & rest & ps & Hw & Hr & ->).
    destruct (wait_events (rowsAtPoll w) (allTextContents (rowsAtSnapshot w)) q)
      as (polls' & Hw' & _ & Hpolls).
    rewrite Hw in Hw'. injection Hw' as <-.
    destruct (poll_not_extract polls Hpolls) as [Hpe Hpd].
    destruct (retry_shape w q maxAttempts 0 []) as (rest' & ps' & Hr' & Hrest & Hcount & _).
    rewrite Hr in Hr'. injection Hr' as <- <-.
    unfold events. cbn [fst].
    assert (Hex : countOf isExtract
              ([Fill []; Sleep 300; Snapshot (allTextContents (rowsAtSnapshot w));
                Fill q; Press (lit "Enter")] ++ polls ++ rest)
            = countOf isExtract rest).
    { rewrite !countOf_app, (countOf_none isExtract polls Hpe). reflexivity. }
    repeat split.
    + rewrite !countOf_app, (countOf_none isDispatch polls Hpd),
        (countOf_none isDispatch rest (retry_not_dispatch rest Hrest)).
      unfold maxAttempts. cbn. lia.
    + rewrite Hex. exact Hcount.
    + intros k _ Hk Hempty Hfound.
      destruct (retry_first w q maxAttempts 0 k [] Hk Hempty Hfound) as (l & Hl & Hc).
      cbn [Nat.add] in Hl. rewrite Hr in Hl. injection Hl as <- ->.
      eexists. split; [reflexivity|]. cbn [success hasResults patients].
      repeat split.
      * destruct (extractPatients (rowsAtAttempt w k) q); [congruence | reflexivity].
      * rewrite Hex. exact Hc.
  - rewrite (searchPatient_unusable w q Hu). unfold events, countOf. cbn.
    repeat split; try lia; intros; discriminate.
Qed.

Lemma searchPatient_retry_bounded_witness :
  exists r,
    outcome (searchPatient lateWorld (lit "john")) = Ok r /\
    success r = true /\ hasResults r = true /\
    patients r = extractPatients (rowsAtAttempt lateWorld 2) (lit "john") /\
    countOf isExtract (events (searchPatient lateWorld (lit "john"))) = 3.
Proof.
  apply (proj2 (proj2 (searchPatient_retry_bounded lateWorld (lit "john"))) 2).
  - reflexivity.
  - unfold maxAttempts. lia.
  - intros [|[|j]] Hj; [reflexivity | reflexivity | lia].
  - discriminate.
Defined.

Lemma later_events_are_polls_or_retries (polls rest : list Event) (n : nat) (e : Event) :
  Forall (fun e => isPoll e = true) polls ->
  Forall (fun e => isRetryEvent e = true) rest ->
  nth_error (polls ++ rest) n = Some e ->
  isPoll e = true \/ isRetryEvent e = true.
Proof.
  intros Hp Hr Hn. apply nth_error_In, in_app_or in Hn as [Hin | Hin].
  - left. rewrite Forall_forall in Hp. now apply Hp.
  - right. rewrite Forall_forall in Hr. now apply Hr.
Qed.

(** C4: every run of [searchPatient] either stops at its first action, with
    no event at all, or its events are, in this order: the clearing of the
    input, the capture of the baseline, the triggering action (fill the
    query, press Enter), the polls of the convergence wait, and then the
    extractions with their pauses.  So in every run a capture of the
    baseline comes strictly before a dispatch of the action, and that
    strictly before any poll of the wait. *)
Theorem searchPatient_order (w : World) (q : str) :
  ((searchInputUsable w = false /\ events (searchPatient w q) = []) \/
   (exists polls rest,
       events (searchPatient w q)
       = [Fill []; Sleep 300]
         ++ [Snapshot (allTextContents (rowsAtSnapshot w))]
         ++ [Fill q; Press (lit "Enter")]
         ++ polls ++ rest /\
       polls <> [] /\
       Forall (fun e => isPoll e = true) polls /\
       Forall (fun e => isRetryEvent e = true) rest)) /\
  (forall i j k B key e,
      nth_error (events (searchPatient w q)) i = Some (Snapshot B) ->
      nth_error (events (searchPatient w q)) j = Some (Press key) ->
      nth_error (events (searchPatient w q)) k = Some e -> isPoll e = true ->
      i < j /\ j < k).
Proof.
  destruct (searchInputUsable w) eqn:Hu.
  - destruct (searchPatient_usable w q Hu) as (polls & rest & ps & Hw & Hr & ->).
    destruct (wait_events (rowsAtPoll w) (allTextContents (rowsAtSnapshot w)) q)
      as (polls' & Hw' & Hne & Hpolls).
    rewrite Hw in Hw'. injection Hw' as <-.
    destruct (retry_shape w q maxAttempts 0 []) as (rest' & ps' & Hr' & Hrest & _).
    rewrite Hr in Hr'. injection Hr' as <- <-.
    split.
    + right. exists polls, rest. repeat split; assumption.
    + unfold events. cbn [fst app].
      intros i j k B key e Hi Hj Hk He.
      assert (i = 2) as ->.
      { do 5 (destruct i as [|i]; [simpl in Hi; try discriminate; reflexivity|]).
        simpl in Hi.
        destruct (later_events_are_polls_or_retries _ _ _ _ Hpolls Hrest Hi);
          discriminate. }
      assert (j = 4) as ->.
      { do 5 (destruct j as [|j]; [simpl in Hj; try discriminate; reflexivity|]).
        simpl in Hj.
        destruct (later_events_are_polls_or_retries _ _ _ _ Hpolls Hrest Hj);
          discriminate. }
      do 5 (destruct k as [|k];
            [simpl in Hk; injection Hk as <-; discriminate|]).
      lia.
  - split.
    + left. split; [reflexivity|]. now rewrite (searchPatient_unusable w q Hu).
    + rewrite (searchPatient_unusable w q Hu). intros i j k B key e Hi.
      destruct i; discriminate.
Qed.

Lemma searchPatient_order_witness :
  nth_error (events (searchPatient lateWorld (lit "john"))) 2
  = Some (Snapshot (allTextContents [janeRow])) /\
  nth_error (events (searchPatient lateWorld (lit "john"))) 4
  = Some (Press (lit "Enter")) /\
  nth_error (events (searchPatient lateWorld (lit "john"))) 5
  = Some PollThrew /\
  (2 < 4 /\ 4 < 5).
Proof.
  split; [reflexivity|]. split; [reflexivity|]. split; [reflexivity|].
  apply (proj2 (searchPatient_order lateWorld (lit "john"))
           2 4 5 (allTextContents [janeRow]) (lit "Enter") PollThrew);
    reflexivity.
Defined.

(** C10: every patient of a result of [searchPatient] was extracted, in one
    of the five attempts, from the row at its [index], a row with at least
    two cells whose second cell, trimmed, is the patient's name; the name is
    not empty and contains the query, letter case aside.  [hasResults] is
    true exactly when the patient list is not empty, and [resultCount] is
    its length. *)
Theorem searchPatient_result_invariant (w : World) (q : str) (r : SearchResult) :
  outcome (searchPatient w q) = Ok r ->
  (forall p, In p (patients r) ->
     exists k row,
       k < maxAttempts /\
       nth_error (rowsAtAttempt w k) (index p) = Some row /\
       2 <= List.length (cells row) /\
       name p = cellText row 1 /\ name p <> [] /\
       includes (toLowerCase (name p)) (toLowerCase q) = true) /\
  (hasResults r = true <-> patients r <> []) /\
  resultCount r = List.length (patients r).
Proof.
  intros H. destruct (searchInputUsable w) eqn:Hu.
  - destruct (searchPatient_usable w q Hu) as (polls & rest & ps & _ & Hr & E).
    rewrite E in H. injection H as <-. cbn [patients hasResults resultCount].
    destruct (retry_shape w q maxAttempts 0 []) as (rest' & ps' & Hr' & _ & _ & Hps).
    rewrite Hr in Hr'. injection Hr' as <- <-.
    split; [|split].
    + intros p Hp. destruct Hps as [[Hn _] | (k & Hk & ->)]; [discriminate|].
      cbn [Nat.add] in Hp. apply extractFrom_In in Hp as (row & Hn & _ & ?).
      rewrite Nat.sub_0_r in Hn. exists k, row. tauto.
    + destruct ps; cbn; split; congruence.
    + reflexivity.
  - rewrite (searchPatient_unusable w q Hu) in H. discriminate.
Qed.

Lemma searchPatient_result_invariant_witness :
  (forall p,
     In p (extractPatients (rowsAtAttempt lateWorld 2) (lit "john")) ->
     exists k row,
       k < maxAttempts /\
       nth_error (rowsAtAttempt lateWorld k) (index p) = Some row /\
       2 <= List.length (cells row) /\
       name p = cellText row 1 /\ name p <> [] /\
       includes (toLowerCase (name p)) (toLowerCase (lit "john")) = true) /\
  (true = true <-> extractPatients (rowsAtAttempt lateWorld 2) (lit "john") <> []) /\
  1 = List.length (extractPatients (rowsAtAttempt lateWorld 2) (lit "john")).
Proof.
  apply (searchPatient_result_invariant lateWorld (lit "john")
           {| success := true; hasResults := true; resultCount := 1;
              patients := extractPatients (rowsAtAttempt lateWorld 2) (lit "john");
              message := FoundMessage 1 (lit "john") |}).
  reflexivity.
Defined.

End SearchClaims.

(* ------------------------------------------------------------------ *)
(** ** PatientSearchPage: further properties                           *)
(* ------------------------------------------------------------------ *)

Section SelectionFacts.
Import JS Eff PatientSearchPage.

(** The actions of [searchAndSelectPatient] are those of the search and
    then at most one click, on row 0; it reports success exactly when it
    clicked, and exactly then it names a selected patient. *)
Theorem searchAndSelectPatient_clicks_row_0_at_most_once
  (s : PatientSelection.Surface) (q : str) :
  exists clicks,
    fst (PatientSelection.searchAndSelectPatient s q)
    = map PatientSelection.Searched (events (searchPatient (PatientSelection.world s) q))
      ++ clicks /\
    (clicks = [] \/ clicks = [PatientSelection.Clicked 0]) /\
    (forall r, snd (PatientSelection.searchAndSelectPatient s q) = Ok r ->
       (PatientSelection.success r = true <-> clicks = [PatientSelection.Clicked 0]) /\
       (PatientSelection.success r = true <-> PatientSelection.selectedPatient r <> None)).
Proof.
  unfold PatientSelection.searchAndSelectPatient, events.
  destruct (searchPatient (PatientSelection.world s) q) as [log [sr|e]]; cbn [fst snd].
  - destruct (hasResults sr && (0 <? List.length (patients sr))) eqn:Hc.
    + unfold PatientSelection.selectPatient.
      destruct (PatientSelection.row_click s 0) as [[]|e]; cbn [fst snd].
      * exists [PatientSelection.Clicked 0]. split; [reflexivity|]. split; [now right|].
        intros r Hr. injection Hr as <-. cbn.
        apply andb_true_iff in Hc as [_ Hlen].
        destruct (patients sr); [discriminate|]. cbn.
        split; split; (reflexivity || discriminate || auto).
      * exists []. split; [reflexivity|]. split; [now left|]. discriminate.
    + exists []. split; [now rewrite app_nil_r|]. split; [now left|].
      intros r Hr. injection Hr as <-. cbn.
      split; split; (discriminate || congruence).
  - exists []. split; [now rewrite app_nil_r|]. split; [now left|]. discriminate.
Qed.

(** When attempt [k] is the first to extract patients and row 0 can be
    clicked, [searchAndSelectPatient] selects the first extracted patient
    and clicks row 0 of the table, whatever the row index of that patient. *)
Theorem searchAndSelectPatient_selects_first_hit
  (s : PatientSelection.Surface) (q : str) (k : nat) :
  searchInputUsable (PatientSelection.world s) = true ->
  k < maxAttempts ->
  (forall j, j < k ->
     extractPatients (rowsAtAttempt (PatientSelection.world s) j) q = []) ->
  extractPatients (rowsAtAttempt (PatientSelection.world s) k) q <> [] ->
  PatientSelection.row_click s 0 = Ok tt ->
  exists p ps,
    extractPatients (rowsAtAttempt (PatientSelection.world s) k) q = p :: ps /\
    PatientSelection.searchAndSelectPatient s q
    = (map PatientSelection.Searched
         (events (searchPatient (PatientSelection.world s) q))
       ++ [PatientSelection.Clicked 0],
       Ok {| PatientSelection.success := true;
             PatientSelection.selectedPatient := Some p;
             PatientSelection.message :=
               PatientSelection.SelectedPatient
                 (PatientSelection.nameOrUnknown (Some p)) |}).
Proof.
  intros Hu Hk Hempty Hfound Hclick.
  destruct (searchPatient_usable (PatientSelection.world s) q Hu)
    as (polls & rest & ps' & _ & Hr & E).
  destruct (retry_first (PatientSelection.world s) q maxAttempts 0 k [] Hk Hempty Hfound)
    as (l & Hl & _).
  cbn [Nat.add] in Hl. rewrite Hr in Hl. injection Hl as _ ->.
  destruct (extractPatients (rowsAtAttempt (PatientSelection.world s) k) q)
    as [|p ps] eqn:Ex; [congruence|].
  exists p, ps. split; [reflexivity|].
  unfold PatientSelection.searchAndSelectPatient, PatientSelection.selectPatient, events.
  rewrite E, Hclick. reflexivity.
Qed.

Lemma searchAndSelectPatient_selects_first_hit_witness :
  exists p ps,
    extractPatients (rowsAtAttempt lateWorld 2) (lit "john") = p :: ps /\
    PatientSelection.searchAndSelectPatient (PatientSelection.clickable lateWorld) (lit "john")
    = (map PatientSelection.Searched (events (searchPatient lateWorld (lit "john")))
       ++ [PatientSelection.Clicked 0],
       Ok {| PatientSelection.success := true;
             PatientSelection.selectedPatient := Some p;
             PatientSelection.message :=
               PatientSelection.SelectedPatient
                 (PatientSelection.nameOrUnknown (Some p)) |}).
Proof.
  apply (searchAndSelectPatient_selects_first_hit
           (PatientSelection.clickable lateWorld) (lit "john") 2).
  - reflexivity.
  - unfold maxAttempts. lia.
  - intros [|[|j]] Hj; [reflexivity | reflexivity | lia].
  - discriminate.
  - reflexivity.
Defined.

(** [selectPatientFromResults] never rejects; it reports success exactly
    when the results say [hasResults], hold a patient at [index] and the
    click on row [index] went through; then it names that patient and its
    one action is that click.  Otherwise it selects no patient. *)
Theorem selectPatientFromResults_total
  (s : PatientSelection.Surface) (sr : SearchResult) (index : nat) :
  exists r,
    snd (PatientSelection.selectPatientFromResults s sr index) = Ok r /\
    (PatientSelection.success r = true <->
     hasResults sr = true /\ index < List.length (patients sr) /\
     PatientSelection.row_click s index = Ok tt) /\
    (PatientSelection.success r = true ->
     PatientSelection.selectedPatient r = nth_error (patients sr) index /\
     fst (PatientSelection.selectPatientFromResults s sr index)
     = [PatientSelection.Clicked index]) /\
    (PatientSelection.success r = false ->
     PatientSelection.selectedPatient r = None /\
     fst (PatientSelection.selectPatientFromResults s sr index) = []).
Proof.
  unfold PatientSelection.selectPatientFromResults, PatientSelection.selectPatient.
  destruct (hasResults sr); cbn [negb orb].
  - destruct (nth_error (patients sr) index) as [p|] eqn:En; cbn [negb].
    + assert (Hlt : index < List.length (patients sr))
        by (apply nth_error_Some; congruence).
      destruct (PatientSelection.row_click s index) as [[]|e]; cbn [fst snd];
        eexists; (split; [reflexivity|]); cbn; repeat split; auto; try discriminate.
      intros (_ & _ & H). discriminate.
    + apply nth_error_None in En.
      eexists; (split; [reflexivity|]); cbn; repeat split; auto; try discriminate.
      intros (_ & H & _). lia.
  - eexists; (split; [reflexivity|]); cbn; repeat split; auto; try discriminate.
    intros (H & _). discriminate.
Qed.

Lemma selectPatientFromResults_total_witness :
  exists r,
    snd (PatientSelection.selectPatientFromResults
           (PatientSelection.clickable lateWorld) PatientSelection.johnFound 0) = Ok r /\
    PatientSelection.success r = true /\
    PatientSelection.selectedPatient r = nth_error (patients PatientSelection.johnFound) 0 /\
    fst (PatientSelection.selectPatientFromResults
           (PatientSelection.clickable lateWorld) PatientSelection.johnFound 0)
    = [PatientSelection.Clicked 0].
Proof.
  destruct (selectPatientFromResults_total
              (PatientSelection.clickable lateWorld) PatientSelection.johnFound 0)
    as (r & Hr & Hiff & Hs & _).
  assert (Ht : PatientSelection.success r = true).
  { apply Hiff. repeat split. cbn. lia. }
  exists r. split; [exact Hr|]. split; [exact Ht|]. exact (Hs Ht).
Defined.

(** *** The table check [hasResults] *)

Lemma checkSelectors_true (v : PatientSelection.ResultsView)
  (l : list PatientSelection.RowSelector) :
  PatientSelection.checkSelectors v l = Ok true ->
  exists sel t,
    In sel l /\ 0 < PatientSelection.rows_count v sel /\
    PatientSelection.first_textContent v sel = Ok t /\
    PatientSelection.looksLikePatient (orEmpty t) = true.
Proof.
  induction l as [|sel l IH]; simpl; [discriminate|].
  destruct (0 <? PatientSelection.rows_count v sel) eqn:Hc.
  - destruct (PatientSelection.first_textContent v sel) as [t|e] eqn:Ht; [|discriminate].
    destruct (PatientSelection.looksLikePatient (orEmpty t)) eqn:Hl.
    + intros _. exists sel, t. apply Nat.ltb_lt in Hc. auto.
    + intros H. destruct (IH H) as (sel' & t' & ? & ?). exists sel', t'. auto.
  - intros H. destruct (IH H) as (sel' & t' & ? & ?). exists sel', t'. auto.
Qed.

(** [hasResults] never rejects, and it answers true only if the table body
    has rows and some selector matches rows the first of which has a text
    that is not blank and contains neither "no" nor "empty", letter case
    aside. *)
Theorem hasResults_sound (v : PatientSelection.ResultsView) :
  (exists b, PatientSelection.hasResults v = Ok b) /\
  (PatientSelection.hasResults v = Ok true ->
   0 < PatientSelection.rows_count v PatientSelection.TbodyRows /\
   exists sel t,
     In sel PatientSelection.rowSelectors /\
     0 < PatientSelection.rows_count v sel /\
     PatientSelection.first_textContent v sel = Ok t /\
     truthy (trim (orEmpty t)) = true /\
     includes (toLowerCase (orEmpty t)) (lit "no") = false /\
     includes (toLowerCase (orEmpty t)) (lit "empty") = false).
Proof.
  unfold PatientSelection.hasResults, PatientSelection.hasAnySearchResults.
  destruct (0 <? PatientSelection.rows_count v PatientSelection.TbodyRows) eqn:Hany;
    cbn [negb].
  - split.
    + destruct (PatientSelection.checkSelectors v PatientSelection.rowSelectors)
        as [b|e]; cbn; eauto.
    + intros H.
      destruct (PatientSelection.checkSelectors v PatientSelection.rowSelectors)
        as [b|e] eqn:E; cbn in H; [|discriminate].
      injection H as ->. apply Nat.ltb_lt in Hany. split; [assumption|].
      destruct (checkSelectors_true _ _ E) as (sel & t & Hin & Hc & Ht & Hl).
      exists sel, t. unfold PatientSelection.looksLikePatient in Hl.
      apply andb_true_iff in Hl as [Hl Hb]. apply andb_true_iff in Hl as [Hno Hem].
      apply negb_true_iff in Hno. apply negb_true_iff in Hem.
      repeat split; assumption.
  - cbn. split; [now exists false | discriminate].
Qed.

Lemma hasResults_sound_witness :
  0 < PatientSelection.rows_count PatientSelection.janeView PatientSelection.TbodyRows /\
  exists sel t,
    In sel PatientSelection.rowSelectors /\
    0 < PatientSelection.rows_count PatientSelection.janeView sel /\
    PatientSelection.first_textContent PatientSelection.janeView sel = Ok t /\
    truthy (trim (orEmpty t)) = true /\
    includes (toLowerCase (orEmpty t)) (lit "no") = false /\
    includes (toLowerCase (orEmpty t)) (lit "empty") = false.
Proof.
  apply (proj2 (hasResults_sound PatientSelection.janeView)). reflexivity.
Defined.

Lemma checkSelectors_no (v : PatientSelection.ResultsView)
  (l : list PatientSelection.RowSelector) :
  (forall sel, 0 < PatientSelection.rows_count v sel ->
     exists t, PatientSelection.first_textContent v sel = Ok (Some t) /\
               includes (toLowerCase t) (lit "no") = true) ->
  PatientSelection.checkSelectors v l = Ok false.
Proof.
  intros H. induction l as [|sel l IH]; [reflexivity|]. simpl.
  destruct (0 <? PatientSelection.rows_count v sel) eqn:Hc; [|assumption].
  apply Nat.ltb_lt in Hc. destruct (H sel Hc) as (t & -> & Hno).
  unfold PatientSelection.looksLikePatient. cbn [orEmpty]. now rewrite Hno.
Qed.

(** [hasResults] answers false for every table in which the first row of
    each selector that matches anything has the letters "no" somewhere in
    its text, in any letter case: a first patient called Arnold, Noah or
    Snow makes the table count as empty. *)
Theorem hasResults_false_on_no (v : PatientSelection.ResultsView) :
  (forall sel, 0 < PatientSelection.rows_count v sel ->
     exists t, PatientSelection.first_textContent v sel = Ok (Some t) /\
               includes (toLowerCase t) (lit "no") = true) ->
  PatientSelection.hasResults v = Ok false.
Proof.
  intros H. unfold PatientSelection.hasResults.
  destruct (negb (PatientSelection.hasAnySearchResults v)); [reflexivity|].
  now rewrite checkSelectors_no.
Qed.

Lemma hasResults_false_on_no_witness :
  PatientSelection.hasResults PatientSelection.arnoldView = Ok false.
Proof.
  apply (hasResults_false_on_no PatientSelection.arnoldView).
  intros [] Hc; cbn in Hc; try lia.
  exists (lit "100J2K Arnold Snow M 52"). split; reflexivity.
Defined.

End SelectionFacts.

Section SearchTiming.
Import JS Eff PatientSearchPage.
Local Opaque Nat.mul.

Lemma pauses_app (l l' : list Event) :
  PatientSelection.pauses (l ++ l') = PatientSelection.pauses l + PatientSelection.pauses l'.
Proof.
  induction l as [|e l IH]; [reflexivity|].
  destruct e; simpl; rewrite IH; lia.
Qed.

Lemma pauses_polls (l : list Event) :
  Forall (fun e => isPoll e = true) l -> PatientSelection.pauses l = 0.
Proof.
  induction 1 as [|e l He _ IH]; [reflexivity|].
  destruct e; simpl in *; try discriminate; assumption.
Qed.

Lemma pauses_retry_step (a found : nat) (l : list Event) :
  PatientSelection.pauses (Extract a found :: Sleep 2000 :: l)
  = 2000 + PatientSelection.pauses l.
Proof. reflexivity. Qed.

Lemma retry_empty_step (w : World) (q : str) (n a : nat) (p : list Patient) :
  extractPatients (rowsAtAttempt w a) q = [] ->
  fst (retry w q (S n) a p)
  = Extract a 0 :: Sleep 2000 :: fst (retry w q n (S a) []).
Proof.
  intros E. cbn [retry]. rewrite E. cbn.
  now destruct (retry w q n (S a) []) as [l [ps|e]].
Qed.

Lemma retry_found_step (w : World) (q : str) (n a : nat) (p : list Patient) :
  extractPatients (rowsAtAttempt w a) q <> [] ->
  fst (retry w q (S n) a p)
  = [Extract a (List.length (extractPatients (rowsAtAttempt w a) q))].
Proof.
  intros E. cbn [retry].
  destruct (extractPatients (rowsAtAttempt w a) q) as [|x xs]; [congruence|].
  reflexivity.
Qed.

Lemma retry_pauses_bound (w : World) (q : str) (n a : nat) (p : list Patient) :
  PatientSelection.pauses (fst (retry w q n a p)) <= 2000 * n.
Proof.
  revert a p; induction n as [|n IH]; intros a p; [cbn; lia|].
  destruct (extractPatients (rowsAtAttempt w a) q) as [|x xs] eqn:E.
  - rewrite (retry_empty_step w q n a p E), pauses_retry_step.
    specialize (IH (S a) []). lia.
  - rewrite retry_found_step by congruence. cbn [PatientSelection.pauses]. lia.
Qed.

Lemma retry_pauses_first (w : World) (q : str) (n a k : nat) (p : list Patient) :
  k < n ->
  (forall j, j < k -> extractPatients (rowsAtAttempt w (a + j)) q = []) ->
  extractPatients (rowsAtAttempt w (a + k)) q <> [] ->
  PatientSelection.pauses (fst (retry w q n a p)) = 2000 * k.
Proof.
  revert a k p; induction n as [|n IH]; intros a k p Hk Hempty Hfound; [lia|].
  destruct k as [|k].
  - rewrite Nat.add_0_r in Hfound. rewrite retry_found_step by assumption.
    cbn [PatientSelection.pauses]. lia.
  - assert (E : extractPatients (rowsAtAttempt w a) q = []).
    { rewrite <- (Nat.add_0_r a). apply Hempty. lia. }
    rewrite (retry_empty_step w q n a p E), pauses_retry_step.
    rewrite (IH (S a) k []); [lia | lia | |].
    + intros j Hj. rewrite Nat.add_succ_comm. apply Hempty. lia.
    + now rewrite Nat.add_succ_comm.
Qed.

Lemma retry_pauses_exhausted (w : World) (q : str) (n a : nat) (p : list Patient) :
  (forall j, j < n -> extractPatients (rowsAtAttempt w (a + j)) q = []) ->
  PatientSelection.pauses (fst (retry w q n a p)) = 2000 * n.
Proof.
  revert a p; induction n as [|n IH]; intros a p Hempty; [cbn; lia|].
  assert (E : extractPatients (rowsAtAttempt w a) q = []).
  { rewrite <- (Nat.add_0_r a). apply Hempty. lia. }
  rewrite (retry_empty_step w q n a p E), pauses_retry_step.
  rewrite (IH (S a) []); [lia|].
  intros j Hj. rewrite Nat.add_succ_comm. apply Hempty. lia.
Qed.

Lemma searchPatient_pauses (w : World) (q : str) :
  searchInputUsable w = true ->
  PatientSelection.pauses (events (searchPatient w q))
  = 300 + PatientSelection.pauses (fst (retry w q maxAttempts 0 [])).
Proof.
  intros Hu.
  destruct (searchPatient_usable w q Hu) as (polls & rest & ps & Hw & Hr & ->).
  destruct (wait_events (rowsAtPoll w) (allTextContents (rowsAtSnapshot w)) q)
    as (polls' & Hw' & _ & Hpolls).
  rewrite Hw in Hw'. injection Hw' as <-.
  rewrite Hr. unfold events. cbn [fst].
  rewrite !pauses_app, (pauses_polls polls Hpolls). reflexivity.
Qed.

(** The pauses of one run of [searchPatient] add up to at most
    300 + 2000 * 5 = 10300 ms:
    300 ms after clearing the input and 2000 ms after each empty
    extraction.  A run whose first non-empty extraction is attempt [k]
    pauses 300 + 2000 k ms; a run that finds nothing pauses the full
    10300 ms, the last 2000 ms of it after the fifth and final attempt. *)
Theorem searchPatient_pause_budget (w : World) (q : str) :
  PatientSelection.pauses (events (searchPatient w q)) <= 300 + 2000 * maxAttempts /\
  (forall k,
      searchInputUsable w = true -> k < maxAttempts ->
      (forall j, j < k -> extractPatients (rowsAtAttempt w j) q = []) ->
      extractPatients (rowsAtAttempt w k) q <> [] ->
      PatientSelection.pauses (events (searchPatient w q)) = 300 + 2000 * k) /\
  (searchInputUsable w = true ->
   (forall j, j < maxAttempts -> extractPatients (rowsAtAttempt w j) q = []) ->
   PatientSelection.pauses (events (searchPatient w q)) = 300 + 2000 * maxAttempts /\
   last (events (searchPatient w q)) WaitTimedOut = Sleep 2000).
Proof.
  split; [|split].
  - destruct (searchInputUsable w) eqn:Hu.
    + rewrite (searchPatient_pauses w q Hu).
      pose proof (retry_pauses_bound w q maxAttempts 0 []) as H. lia.
    + rewrite (searchPatient_unusable w q Hu). cbn. lia.
  - intros k Hu Hk Hempty Hfound. rewrite (searchPatient_pauses w q Hu).
    now rewrite (retry_pauses_first w q maxAttempts 0 k [] Hk Hempty Hfound).
  - intros Hu Hempty. split.
    + rewrite (searchPatient_pauses w q Hu).
      now rewrite (retry_pauses_exhausted w q maxAttempts 0 [] Hempty).
    + destruct (searchPatient_usable w q Hu) as (polls & rest & ps & _ & Hr & ->).
      unfold events. cbn [fst].
      assert (Hrest : exists l, rest = l ++ [Sleep 2000]).
      { unfold maxAttempts in Hr, Hempty. cbn in Hr.
        rewrite !Hempty in Hr by lia. cbn in Hr. injection Hr as <- _.
        now exists [Extract 0 0; Sleep 2000; Extract 1 0; Sleep 2000; Extract 2 0;
                    Sleep 2000; Extract 3 0; Sleep 2000; Extract 4 0]. }
      destruct Hrest as (l & ->).
      rewrite !app_assoc. apply last_last.
Qed.

Lemma searchPatient_pause_budget_witness :
  PatientSelection.pauses (events (searchPatient lateWorld (lit "john"))) = 300 + 2000 * 2 /\
  (PatientSelection.pauses (events (searchPatient emptyWorld (lit "john"))) = 300 + 2000 * maxAttempts /\
   last (events (searchPatient emptyWorld (lit "john"))) WaitTimedOut = Sleep 2000).
Proof.
  split.
  - apply (proj1 (proj2 (searchPatient_pause_budget lateWorld (lit "john"))) 2).
    + reflexivity.
    + unfold maxAttempts. lia.
    + intros [|[|j]] Hj; [reflexivity | reflexivity | lia].
    + discriminate.
  - apply (proj2 (proj2 (searchPatient_pause_budget emptyWorld (lit "john")))).
    + reflexivity.
    + intros j _. reflexivity.
Defined.

(** *** The wait ends at the first row *)

(** The function that [waitForFunction] evaluates in the page is handed the
    selector alone, neither the baseline nor the query.  So the wait polls
    on while the table is empty; at the first poll at which the table has a
    row, new and matching or not, the function throws and the wait rejects
    with a TypeError, looking at no later table; and when the table stays
    empty up to the time limit the wait rejects with a time-out.  It never
    resolves. *)
Theorem waitForFunction_rejects_at_first_row (B : list str) (q : str) :
  (forall pre rows post,
      (forall t, In t pre -> t = []) ->
      rows <> [] ->
      waitForFunction (pre ++ rows :: post) newMatchingRow B q
      = (repeat (Poll false) (List.length pre) ++ [PollThrew], Throw TypeError)) /\
  (forall polls,
      (forall t, In t polls -> t = []) ->
      waitForFunction polls newMatchingRow B q
      = (repeat (Poll false) (List.length polls), Throw TimeoutError)) /\
  (forall polls, snd (waitForFunction polls newMatchingRow B q) <> Ok tt).
Proof.
  split; [|split].
  - intros pre rows post Hpre Hrows. induction pre as [|t pre IH].
    + destruct rows as [|r rows]; [congruence|]. apply waitForFunction_row_step.
    + rewrite (Hpre t (or_introl eq_refl)). cbn [app].
      rewrite waitForFunction_empty_step.
      rewrite IH by (intros; apply Hpre; now right). reflexivity.
  - intros polls Hall. induction polls as [|t polls IH]; [reflexivity|].
    rewrite (Hall t (or_introl eq_refl)). rewrite waitForFunction_empty_step.
    rewrite IH by (intros; apply Hall; now right). reflexivity.
  - intros polls. destruct (waitForFunction_rejects polls B q) as (l & e & -> & _).
    discriminate.
Qed.

Lemma waitForFunction_rejects_at_first_row_witness :
  waitForFunction ([[]; []] ++ [janeRow; johnRow] :: [[johnRow]]) newMatchingRow
    (allTextContents [janeRow]) (lit "john")
  = (repeat (Poll false) 2 ++ [PollThrew], Throw TypeError) /\
  waitForFunction [[]; []; []] newMatchingRow (allTextContents [janeRow]) (lit "john")
  = (repeat (Poll false) 3, Throw TimeoutError).
Proof.
  split.
  - apply (proj1 (waitForFunction_rejects_at_first_row
                    (allTextContents [janeRow]) (lit "john"))).
    + intros t [<- | [<- | []]]; reflexivity.
    + discriminate.
  - apply (proj1 (proj2 (waitForFunction_rejects_at_first_row
                           (allTextContents [janeRow]) (lit "john")))).
    intros t [<- | [<- | [<- | []]]]; reflexivity.
Defined.

End SearchTiming.

Section ExtractionFacts.
Import JS Eff PatientSearchPage.

Lemma extractFrom_bounds (rows : Table) (i : nat) (q : str) (p : Patient) :
  In p (extractFrom i rows q) -> i <= index p < i + List.length rows.
Proof.
  revert i; induction rows as [|r rows IH]; intros i H; [contradiction|].
  simpl in H. apply in_app_or in H as [H | H].
  - apply extractRow_In in H as (-> & _). simpl. lia.
  - apply IH in H. simpl. lia.
Qed.

Lemma extractFrom_sorted (rows : Table) (i : nat) (q : str) :
  StronglySorted lt (map index (extractFrom i rows q)).
Proof.
  revert i; induction rows as [|r rows IH]; intros i; [constructor|].
  simpl. unfold extractRow at 1.
  destruct (2 <=? List.length (cells r)); [|apply IH].
  destruct (truthy (cellText r 1) && _); [|apply IH].
  simpl. constructor; [apply IH|].
  apply Forall_forall. intros n Hn. apply in_map_iff in Hn as (p & <- & Hp).
  apply extractFrom_bounds in Hp. lia.
Qed.

Lemma extractFrom_length (rows : Table) (i : nat) (q : str) :
  List.length (extractFrom i rows q) <= List.length rows.
Proof.
  revert i; induction rows as [|r rows IH]; intros i; [simpl; lia|].
  simpl. rewrite length_app. specialize (IH (S i)).
  unfold extractRow. destruct (2 <=? List.length (cells r)); [|simpl; lia].
  destruct (truthy (cellText r 1) && _); simpl; lia.
Qed.

(** The patients that [extractPatients] returns are in table order: their
    [index] fields increase strictly, so no row is reported twice, and each
    is the position of a row of the table; there are at most as many
    patients as rows. *)
Theorem extractPatients_in_table_order (rows : Table) (q : str) :
  StronglySorted lt (map index (extractPatients rows q)) /\
  (forall p, In p (extractPatients rows q) -> index p < List.length rows) /\
  List.length (extractPatients rows q) <= List.length rows.
Proof.
  unfold extractPatients. split; [apply extractFrom_sorted|]. split.
  - intros p Hp. apply extractFrom_bounds in Hp. lia.
  - apply extractFrom_length.
Qed.

Lemma lowerChar_idempotent (c : ascii) : lowerChar (lowerChar c) = lowerChar c.
Proof. destruct c as [[] [] [] [] [] [] [] []]; reflexivity. Qed.

Lemma toLowerCase_idempotent (s : str) : toLowerCase (toLowerCase s) = toLowerCase s.
Proof.
  unfold toLowerCase. rewrite map_map. apply map_ext. apply lowerChar_idempotent.
Qed.

Lemma extractFrom_query_case (rows : Table) (i : nat) (q q' : str) :
  toLowerCase q = toLowerCase q' -> extractFrom i rows q = extractFrom i rows q'.
Proof.
  intros H. revert i; induction rows as [|r rows IH]; intros i; [reflexivity|].
  simpl. rewrite IH. unfold extractRow. now rewrite H.
Qed.

Lemma retry_query_case (w : World) (q q' : str) (n a : nat) (p : list Patient) :
  toLowerCase q = toLowerCase q' -> retry w q n a p = retry w q' n a p.
Proof.
  intros H. revert a p; induction n as [|n IH]; intros a p; [reflexivity|].
  simpl. unfold extractPatients.
  rewrite (extractFrom_query_case (rowsAtAttempt w a) 0 q q' H).
  destruct (extractFrom 0 (rowsAtAttempt w a) q'); simpl; [|reflexivity].
  now rewrite IH.
Qed.

(** The wait does not see the query at all: it is not handed on to the
    function in the page. *)
Lemma waitForFunction_query_case (polls : list Table) (B : list str) (q q' : str) :
  waitForFunction polls newMatchingRow B q = waitForFunction polls newMatchingRow B q'.
Proof.
  induction polls as [|rows later IH]; [reflexivity|].
  cbn [waitForFunction]. destruct (newMatchingRow rows None None) as [[]|e];
    [reflexivity | | reflexivity].
  unfold bind. now rewrite IH.
Qed.

(** The search does not see the letter case of the query: two queries with
    the same lower-case form, such as a query and its own lower-case form,
    give the same outcome of the wait, the same extracted patients and,
    when [searchPatient] resolves for both, results with the same patients,
    the same [hasResults] and the same [resultCount]. *)
Theorem search_ignores_query_case (w : World) (q q' : str) :
  toLowerCase q = toLowerCase q' ->
  (forall rows, extractPatients rows q = extractPatients rows q') /\
  (forall polls B, awaitConvergence polls B q = awaitConvergence polls B q') /\
  (forall r r',
      outcome (searchPatient w q) = Ok r ->
      outcome (searchPatient w q') = Ok r' ->
      patients r = patients r' /\ hasResults r = hasResults r' /\
      resultCount r = resultCount r').
Proof.
  intros H. split; [|split].
  - intros rows. now apply extractFrom_query_case.
  - intros polls B. unfold awaitConvergence.
    now rewrite (waitForFunction_query_case polls B q q').
  - intros r r' Hr Hr'. destruct (searchInputUsable w) eqn:Hu.
    + destruct (searchPatient_usable w q Hu) as (polls & rest & ps & _ & E & E1).
      destruct (searchPatient_usable w q' Hu) as (polls' & rest' & ps' & _ & E' & E2).
      rewrite E1 in Hr. rewrite E2 in Hr'. cbn in Hr, Hr'.
      injection Hr as <-. injection Hr' as <-. cbn.
      rewrite (retry_query_case w q q' maxAttempts 0 [] H) in E.
      rewrite E in E'. injection E' as _ <-. auto.
    + rewrite (searchPatient_unusable w q Hu) in Hr. discriminate.
Qed.

Lemma search_ignores_query_case_witness :
  (forall rows, extractPatients rows (lit "JoHN") = extractPatients rows (lit "john")) /\
  (forall polls B,
      awaitConvergence polls B (lit "JoHN") = awaitConvergence polls B (lit "john")) /\
  (forall r r',
      outcome (searchPatient lateWorld (lit "JoHN")) = Ok r ->
      outcome (searchPatient lateWorld (lit "john")) = Ok r' ->
      patients r = patients r' /\ hasResults r = hasResults r' /\
      resultCount r = resultCount r').
Proof.
  apply (search_ignores_query_case lateWorld (lit "JoHN") (lit "john")).
  reflexivity.
Defined.

End ExtractionFacts.

(* ------------------------------------------------------------------ *)
(** ** LoginPage: further properties                                   *)
(* ------------------------------------------------------------------ *)

Section LoginFacts.
Import JS Eff LoginPage.

Lemma nonBlank_In (l : list str) (x : str) :
  In x (nonBlank l) -> In x l /\ trim x <> [].
Proof.
  unfold nonBlank. intros H. apply filter_In in H as [Hin Ht].
  split; [assumption|]. intros E. rewrite E in Ht. discriminate.
Qed.

Lemma commonLocations_not_blank (x : str) :
  In x commonLocations -> trim x <> [].
Proof.
  intros [<- | [<- | [<- | [<- | [<- | [<- | []]]]]]]; discriminate.
Qed.

Lemma buttons_labels (d : Document) (l : list str) :
  getLocationOptionsFromButtons d = Ok l -> forall x, In x l -> trim x <> [].
Proof.
  unfold getLocationOptionsFromButtons.
  destruct (locationButtons_waitFor d) as [[]|e]; cbn [Eff.bind tryCatch].
  - intros [= <-] x Hx. now apply nonBlank_In in Hx.
  - destruct (visibleAmong d commonLocations) as [available|e'] eqn:Hv;
      cbn [Eff.bind]; [|discriminate].
    intros [= <-] x Hx.
    destruct (0 <? List.length available).
    + apply commonLocations_not_blank. now apply (visibleAmong_Ok d _ _ Hv).
    + now apply commonLocations_not_blank.
Qed.

Lemma buttons_Throw (d : Document) (e : Error) :
  getLocationOptionsFromButtons d = Throw e ->
  (exists e0, locationButtons_waitFor d = Throw e0) /\
  exists loc, In loc commonLocations /\ text_isVisible d loc = Throw e.
Proof.
  unfold getLocationOptionsFromButtons.
  destruct (locationButtons_waitFor d) as [[]|e0]; cbn [Eff.bind tryCatch];
    [discriminate|].
  destruct (visibleAmong d commonLocations) as [available|e'] eqn:Hv;
    cbn [Eff.bind]; [discriminate|].
  intros [= ->]. split; [now exists e0|]. now apply visibleAmong_Throw.
Qed.

Lemma getLocationOptions_Throw (d : Document) (e : Error) :
  getLocationOptions d = Throw e -> getLocationOptionsFromButtons d = Throw e.
Proof.
  unfold getLocationOptions, getLocationOptionsFromDropdown.
  destruct (locationDropdown_isSelect d) as [[|]|e0]; cbn [Eff.bind tryCatch]; auto.
  - destruct (locationOptions_waitFor d) as [[]|e1]; cbn [Eff.bind tryCatch];
      [discriminate | auto].
  - destruct (getLocationOptionsFromButtons d) as [l|e1]; cbn [tryCatch];
      [discriminate | auto].
Qed.

Lemma getLocationOptions_Ok (d : Document) (l : list str) :
  getLocationOptions d = Ok l -> forall x, In x l -> trim x <> [].
Proof.
  unfold getLocationOptions, getLocationOptionsFromDropdown.
  destruct (locationDropdown_isSelect d) as [[|]|e0]; cbn [Eff.bind tryCatch].
  - destruct (locationOptions_waitFor d) as [[]|e1]; cbn [Eff.bind tryCatch].
    + intros [= <-] x Hx. now apply nonBlank_In in Hx.
    + apply buttons_labels.
  - destruct (getLocationOptionsFromButtons d) as [lb|e1] eqn:Hb; cbn [tryCatch].
    + intros [= <-]. now apply (buttons_labels d).
    + discriminate.
  - apply buttons_labels.
Qed.

Lemma buttons_reject (d : Document) (pre post : list str) (loc : str)
  (e0 e : Error) :
  locationButtons_waitFor d = Throw e0 ->
  commonLocations = pre ++ loc :: post ->
  (forall x, In x pre -> exists b, text_isVisible d x = Ok b) ->
  text_isVisible d loc = Throw e ->
  getLocationOptionsFromButtons d = Throw e.
Proof.
  intros Hw Hsplit Hpre Hloc. unfold getLocationOptionsFromButtons.
  rewrite Hw. cbn [Eff.bind tryCatch].
  now rewrite Hsplit, (visibleAmong_rejects d pre post loc e Hpre Hloc).
Qed.

(** [getLocationOptions] rejects only in the recovery branch of the button
    enumeration: when it rejects, the wait for the first button has failed
    and one of the visibility tests of the hard-coded labels has rejected,
    with the error that [getLocationOptions] rejects with.  And there it
    does reject: when the control is not a native select whose options
    appear, the wait for the first button fails and a visibility test
    rejects, [getLocationOptions] rejects with the error of the first test
    that does.  So it resolves whenever each of those tests resolves,
    whatever the probe and the waits answer: a failure of the probe or of
    the wait for the options of a native select ends in the enumeration of
    the buttons.  No label that it returns is blank. *)
Theorem getLocationOptions_rejects_only_in_recovery (d : Document) :
  ((forall loc, In loc commonLocations -> exists b, text_isVisible d loc = Ok b) ->
   exists l, getLocationOptions d = Ok l) /\
  (forall l, getLocationOptions d = Ok l -> forall x, In x l -> trim x <> []) /\
  (forall e, getLocationOptions d = Throw e ->
             getLocationOptionsFromButtons d = Throw e /\
             (exists e0, locationButtons_waitFor d = Throw e0) /\
             exists loc, In loc commonLocations /\ text_isVisible d loc = Throw e) /\
  (forall pre loc post e0 e,
      (locationDropdown_isSelect d <> Ok true \/
       exists e1, locationOptions_waitFor d = Throw e1) ->
      locationButtons_waitFor d = Throw e0 ->
      commonLocations = pre ++ loc :: post ->
      (forall x, In x pre -> exists b, text_isVisible d x = Ok b) ->
      text_isVisible d loc = Throw e ->
      getLocationOptions d = Throw e) /\
  (forall e, locationDropdown_isSelect d = Ok true ->
             locationOptions_waitFor d = Throw e ->
             getLocationOptions d = getLocationOptionsFromButtons d).
Proof.
  split; [|split; [|split; [|split]]].
  - intros Hvis. destruct (getLocationOptions d) as [l|e] eqn:E; [now exists l|].
    apply getLocationOptions_Throw, buttons_Throw in E as (_ & loc & Hin & Ht).
    destruct (Hvis loc Hin) as [b Hb]. congruence.
  - apply getLocationOptions_Ok.
  - intros e E. apply getLocationOptions_Throw in E. split; [assumption|].
    now apply buttons_Throw.
  - intros pre loc post e0 e Hshape Hw Hsplit Hpre Hloc.
    pose proof (buttons_reject d pre post loc e0 e Hw Hsplit Hpre Hloc) as Hb.
    unfold getLocationOptions, getLocationOptionsFromDropdown.
    destruct (locationDropdown_isSelect d) as [[|]|e2]; cbn [Eff.bind tryCatch].
    + destruct Hshape as [Hn | [e1 ->]]; [congruence|]. exact Hb.
    + rewrite Hb. reflexivity.
    + exact Hb.
  - intros e Hp Hw. unfold getLocationOptions, getLocationOptionsFromDropdown.
    rewrite Hp, Hw. reflexivity.
Qed.

Lemma getLocationOptions_rejects_only_in_recovery_witness :
  (exists l, getLocationOptions onlyPharmacy = Ok l) /\
  getLocationOptions pharmacyTwice = Throw StrictModeViolation /\
  (getLocationOptionsFromButtons pharmacyTwice = Throw StrictModeViolation /\
   (exists e0, locationButtons_waitFor pharmacyTwice = Throw e0) /\
   exists loc, In loc commonLocations /\
               text_isVisible pharmacyTwice loc = Throw StrictModeViolation) /\
  getLocationOptions (buttonPage (Ok true) commonLocations)
  = getLocationOptionsFromButtons (buttonPage (Ok true) commonLocations).
Proof.
  split; [|split; [|split]].
  - apply (proj1 (getLocationOptions_rejects_only_in_recovery onlyPharmacy)).
    intros loc _. now eexists.
  - apply (proj1 (proj2 (proj2 (proj2
             (getLocationOptions_rejects_only_in_recovery pharmacyTwice))))
             [lit "Inpatient Ward"; lit "Outpatient Clinic"; lit "Laboratory"]
             (lit "Pharmacy")
             [lit "Registration Desk"; lit "Isolation Ward"]
             TimeoutError StrictModeViolation).
    + left. discriminate.
    + reflexivity.
    + reflexivity.
    + intros x [<- | [<- | [<- | []]]]; now exists false.
    + reflexivity.
  - apply (proj1 (proj2 (proj2
             (getLocationOptions_rejects_only_in_recovery pharmacyTwice)))
             StrictModeViolation).
    reflexivity.
  - apply (proj2 (proj2 (proj2 (proj2
             (getLocationOptions_rejects_only_in_recovery
                (buttonPage (Ok true) commonLocations)))))
             TimeoutError);
      reflexivity.
Defined.

(** With the location "random", [selectLocation] chooses one of the labels
    that the enumeration of the detected shape returns, provided that the
    enumeration is not empty, that the random index lies below its length
    (as [Math.floor(Math.random() * n)] does) and that the element can be
    operated. *)
Theorem selectLocation_random_is_enumerated (d : Document) (l : list str) :
  l <> [] -> randomIndex d (List.length l) < List.length l ->
  (locationDropdown_isSelect d = Ok true ->
   getLocationOptionsFromDropdown d = Ok l ->
   (forall o, locationDropdown_selectOption d o = Ok tt) ->
   exists x, In x l /\
             selectLocation d (lit "random") = Ok (SelectedOption (Some x))) /\
  (locationDropdown_isSelect d = Ok false ->
   getLocationOptionsFromButtons d = Ok l ->
   (forall t, locationButton_waitFor d t = Ok tt) ->
   (forall t, locationButton_click d t = Ok tt) ->
   exists x, In x l /\
             selectLocation d (lit "random") = Ok (ClickedButton x)).
Proof.
  intros Hne Hidx.
  destruct (nth_error l (randomIndex d (List.length l))) as [x|] eqn:Hx.
  2:{ apply nth_error_None in Hx. lia. }
  split.
  - intros Hp He Hs. exists x. split; [now apply nth_error_In in Hx|].
    unfold selectLocation, randomElement. rewrite Hp. cbn. rewrite He. cbn.
    now rewrite Hx, Hs.
  - intros Hp He Hw Hc. exists x. split; [now apply nth_error_In in Hx|].
    unfold selectLocation, randomElement, selectLocationButton.
    rewrite Hp. cbn. rewrite He. cbn. now rewrite Hx, Hw, Hc.
Qed.

Lemma selectLocation_random_is_enumerated_witness :
  (exists x, In x [lit "Pharmacy"; lit "Laboratory"] /\
             selectLocation LoginFlow.nativeSelect (lit "random")
             = Ok (SelectedOption (Some x))) /\
  (exists x, In x commonLocations /\
             selectLocation (buttonPage (Ok false) commonLocations) (lit "random")
             = Ok (ClickedButton x)).
Proof.
  split.
  - apply (proj1 (selectLocation_random_is_enumerated LoginFlow.nativeSelect
                    [lit "Pharmacy"; lit "Laboratory"]
                    ltac:(discriminate) ltac:(cbn; lia)));
      reflexivity.
  - apply (proj2 (selectLocation_random_is_enumerated
                    (buttonPage (Ok false) commonLocations) commonLocations
                    ltac:(discriminate) ltac:(cbn; lia)));
      reflexivity.
Defined.

(** When the enumeration of the buttons is empty, the location "random"
    makes [selectLocation] look for a button with the text "undefined";
    when the options of a native select are all blank, it asks the select
    for an option without a label. *)
Theorem selectLocation_random_on_empty_enumeration (d : Document) :
  (locationDropdown_isSelect d = Ok false ->
   getLocationOptionsFromButtons d = Ok [] ->
   selectLocation d (lit "random") = selectLocationButton d (lit "undefined")) /\
  (locationDropdown_isSelect d = Ok true ->
   getLocationOptionsFromDropdown d = Ok [] ->
   selectLocation d (lit "random")
   = Eff.bind (locationDropdown_selectOption d None)
       (fun _ => Ok (SelectedOption None))).
Proof.
  split; intros Hp He; unfold selectLocation, randomElement; rewrite Hp; cbn;
    rewrite He; cbn; now destruct (randomIndex d 0).
Qed.

Lemma selectLocation_random_on_empty_enumeration_witness :
  selectLocation blankButtons (lit "random")
  = selectLocationButton blankButtons (lit "undefined").
Proof.
  apply (proj1 (selectLocation_random_on_empty_enumeration blankButtons));
    reflexivity.
Defined.

(** [login] clicks the Login button only after it has filled in the user
    name, filled in the password and chosen a location, in this order, and
    it resolves exactly when it has clicked.  When the probe of the
    location control fails, [login] rejects with that failure: the
    credentials are typed, the button is not clicked. *)
Theorem login_clicks_last (f : LoginFlow.Form) (username password location : str) :
  (In LoginFlow.ClickedLogin (fst (LoginFlow.login f username password location)) <->
   snd (LoginFlow.login f username password location) = Ok tt) /\
  (snd (LoginFlow.login f username password location) = Ok tt ->
   exists selection,
     selectLocation (LoginFlow.page f) location = Ok selection /\
     fst (LoginFlow.login f username password location)
     = [LoginFlow.FilledUsername username; LoginFlow.FilledPassword password;
        LoginFlow.ChoseLocation selection; LoginFlow.ClickedLogin]) /\
  (forall e,
      LoginFlow.usernameField_fill f username = Ok tt ->
      LoginFlow.passwordField_fill f password = Ok tt ->
      locationDropdown_isSelect (LoginFlow.page f) = Throw e ->
      LoginFlow.login f username password location
      = ([LoginFlow.FilledUsername username; LoginFlow.FilledPassword password],
         Throw e)).
Proof.
  unfold LoginFlow.login. split; [|split].
  - destruct (LoginFlow.usernameField_fill f username) as [[]|e]; cbn;
      [|split; [contradiction | discriminate]].
    destruct (LoginFlow.passwordField_fill f password) as [[]|e]; cbn;
      [|split; [intros [H|[]]; discriminate | discriminate]].
    destruct (selectLocation (LoginFlow.page f) location) as [sel|e]; cbn;
      [|split; [intros [H|[H|[]]]; discriminate | discriminate]].
    destruct (LoginFlow.loginButton_click f) as [[]|e]; cbn.
    + split; [reflexivity | intros _; do 3 right; now left].
    + split; [intros [H|[H|[H|[]]]]; discriminate | discriminate].
  - destruct (LoginFlow.usernameField_fill f username) as [[]|e]; cbn; [|discriminate].
    destruct (LoginFlow.passwordField_fill f password) as [[]|e]; cbn; [|discriminate].
    destruct (selectLocation (LoginFlow.page f) location) as [sel|e]; cbn; [|discriminate].
    destruct (LoginFlow.loginButton_click f) as [[]|e]; cbn; [|discriminate].
    intros _. now exists sel.
  - intros e Hu Hp Hprobe. rewrite Hu, Hp.
    destruct (probe_failure_in_general (LoginFlow.page f) e location Hprobe) as [_ ->].
    reflexivity.
Qed.

Lemma login_clicks_last_witness :
  (exists selection,
      selectLocation (buttonPage (Ok false) commonLocations) (lit "Pharmacy")
      = Ok selection /\
      fst (LoginFlow.login (LoginFlow.working (buttonPage (Ok false) commonLocations))
             (lit "admin") (lit "Admin123") (lit "Pharmacy"))
      = [LoginFlow.FilledUsername (lit "admin"); LoginFlow.FilledPassword (lit "Admin123");
         LoginFlow.ChoseLocation selection; LoginFlow.ClickedLogin]) /\
  LoginFlow.login (LoginFlow.working undetected)
    (lit "admin") (lit "Admin123") (lit "Pharmacy")
  = ([LoginFlow.FilledUsername (lit "admin"); LoginFlow.FilledPassword (lit "Admin123")],
     Throw TimeoutError).
Proof.
  split.
  - apply (proj1 (proj2 (login_clicks_last
                    (LoginFlow.working (buttonPage (Ok false) commonLocations))
                    (lit "admin") (lit "Admin123") (lit "Pharmacy")))).
    reflexivity.
  - apply (proj2 (proj2 (login_clicks_last (LoginFlow.working undetected)
                    (lit "admin") (lit "Admin123") (lit "Pharmacy"))));
      reflexivity.
Defined.

End LoginFacts.

(* ------------------------------------------------------------------ *)
(** ** HomePage: navigation                                            *)
(* ------------------------------------------------------------------ *)

Section NavigationFacts.
Import JS Eff HomeNavigation.

Lemma startsWith_app (p s : str) : startsWith (p ++ s) p = true.
Proof. induction p as [|x p IH]; [now destruct s|]. simpl. now rewrite Ascii.eqb_refl. Qed.

Lemma includes_here (s needle : str) :
  startsWith s needle = true -> includes s needle = true.
Proof. intros H. destruct s; cbn [includes]; now rewrite H. Qed.

Lemma includes_app (a b c : str) : includes (a ++ b ++ c) b = true.
Proof.
  induction a as [|x a IH].
  - cbn [app]. apply includes_here. apply startsWith_app.
  - simpl. rewrite IH. apply orb_true_r.
Qed.

Lemma endsWith_app (s suffix : str) : endsWith (s ++ suffix) suffix = true.
Proof. unfold endsWith. rewrite rev_app_distr. apply startsWith_app. Qed.

Lemma endsWith_char (s : str) (c : ascii) :
  endsWith s [c] = true -> exists s', s = s' ++ [c].
Proof.
  unfold endsWith. simpl. destruct (rev s) as [|y r] eqn:E; [discriminate|].
  intros H. apply andb_true_iff in H as [H _]. apply Ascii.eqb_eq in H. subst y.
  exists (rev r). rewrite <- (rev_involutive s), E. reflexivity.
Qed.

(** Whatever [BASE_URL] is, the URL that [goto] navigates to ends with
    "/index.htm" and passes the URL test of [isOnHomePage]; a base that
    already ends with a slash gets no second one.  So on a page with that
    URL whose user info has appeared, [isOnHomePage] answers what the
    visibility check answers. *)
Theorem homeUrl_is_recognised (BASE_URL : option str) :
  endsWith (homeUrl BASE_URL) (lit "/index.htm") = true /\
  isPatientUrl (homeUrl BASE_URL) = true /\
  (forall base, truthy base = true -> endsWith base (lit "/") = true ->
                homeUrl (Some base) = base ++ lit "index.htm") /\
  (forall v b,
      HomePage.loginUserInfo_waitFor (doc v) = Ok tt ->
      url v = homeUrl BASE_URL ->
      loginUserInfo_isVisible v = Ok b ->
      isOnHomePage v = Ok b).
Proof.
  assert (Hends : endsWith (homeUrl BASE_URL) (lit "/index.htm") = true /\
                  isPatientUrl (homeUrl BASE_URL) = true).
  { unfold homeUrl, isPatientUrl.
    set (baseUrl := if truthy (orEmpty BASE_URL) then orEmpty BASE_URL
                    else lit "http://localhost:8080/openmrs/").
    destruct (endsWith baseUrl (lit "/")) eqn:E.
    - apply endsWith_char in E as (b' & ->). rewrite <- app_assoc.
      change ([("/")%char] ++ lit "index.htm") with (lit "/index.htm").
      split; [apply endsWith_app|].
      rewrite <- (app_nil_r (lit "/index.htm")) at 1.
      now rewrite includes_app.
    - split; [apply endsWith_app|].
      rewrite <- (app_nil_r (lit "/index.htm")) at 1.
      now rewrite includes_app. }
  destruct Hends as [He Hp]. repeat split; try assumption.
  - intros base Ht Hs. unfold homeUrl. cbn [orEmpty]. now rewrite Ht, Hs.
  - intros v b Hw Hu Hv. unfold isOnHomePage. rewrite Hw, Hu, Hp, Hv.
    reflexivity.
Qed.

Lemma homeUrl_is_recognised_witness :
  homeUrl (Some (lit "https://o2.openmrs.org/openmrs/"))
  = lit "https://o2.openmrs.org/openmrs/" ++ lit "index.htm" /\
  isOnHomePage {| doc := HomePage.showing (lit "Logged in as Super User (admin) at Pharmacy.");
                  url := homeUrl None;
                  loginUserInfo_isVisible := Ok true |} = Ok true.
Proof.
  split.
  - apply (proj1 (proj2 (proj2 (homeUrl_is_recognised None)))); reflexivity.
  - apply (proj2 (proj2 (proj2 (homeUrl_is_recognised None)))); reflexivity.
Defined.

End NavigationFacts.

(* ------------------------------------------------------------------ *)
(** ** PatientDetailPage: the patient record                           *)
(* ------------------------------------------------------------------ *)

Section TrimFacts.
Import JS Text.

Lemma trimStart_snoc_keeps (a : str) (c : ascii) :
  isWhiteSpace c = false -> exists y, trimStart (a ++ [c]) = y ++ [c].
Proof.
  intros Hc. induction a as [|x a IH]; simpl.
  - rewrite Hc. now exists [].
  - destruct (isWhiteSpace x); [exact IH | now exists (x :: a)].
Qed.

(** What [trim] returns is empty or has a first and a last character that
    are not white space. *)
Lemma trim_shape (s : str) :
  trim s = [] \/
  (exists c r, trim s = c :: r /\ isWhiteSpace c = false) /\
  (exists r c, trim s = r ++ [c] /\ isWhiteSpace c = false).
Proof.
  unfold trim, trimEnd.
  destruct (trimStart s) as [|c u] eqn:Eu; [now left|].
  right. pose proof (trimStart_head _ _ _ Eu) as Hc.
  cbn [rev]. destruct (trimStart_snoc_keeps (rev u) c Hc) as (y & Ey).
  rewrite Ey. split.
  - exists c, (rev y). split; [|assumption].
    now rewrite rev_app_distr.
  - destruct (trimStart (rev u ++ [c])) as [|c' x] eqn:E.
    + destruct y; discriminate.
    + exists (rev x), c'. rewrite <- Ey. split; [reflexivity|].
      now apply (trimStart_head _ _ _ E).
Qed.

Lemma trim_idempotent (s : str) : trim (trim s) = trim s.
Proof.
  destruct (trim_shape s) as [E | [(c & r & E & Hc) (r' & c' & E' & Hc')]].
  - now rewrite E.
  - unfold trim at 1. rewrite E at 1. rewrite (trimStart_fixed c r Hc).
    rewrite <- E, E'. rewrite (trimEnd_snoc r' c' Hc'). reflexivity.
Qed.

Lemma trim_fixed_head (s : str) :
  trim s = s -> s <> [] -> exists c r, s = c :: r /\ isWhiteSpace c = false.
Proof.
  intros E Hne. destruct (trim_shape s) as [E0 | [(c & r & Ec & Hc) _]].
  - congruence.
  - exists c, r. split; [congruence | assumption].
Qed.

Lemma noSpace_trimStart (s : str) : noSpace s = true -> trimStart s = s.
Proof.
  destruct s as [|c s]; [reflexivity|]. simpl. intros H.
  apply andb_true_iff in H as [H _]. apply negb_true_iff in H. now rewrite H.
Qed.

Lemma noSpace_trim (s : str) : noSpace s = true -> trim s = s.
Proof.
  intros H. unfold trim, trimEnd. rewrite (noSpace_trimStart s H).
  rewrite noSpace_trimStart; [apply rev_involutive|].
  unfold noSpace in *. rewrite forallb_forall in *. intros c Hc. apply H.
  now apply in_rev.
Qed.

Lemma noSpace_collapse (s : str) (inRun : bool) :
  noSpace s = true -> collapseFrom inRun s = s.
Proof.
  revert inRun; induction s as [|c s IH]; intros inRun H; [reflexivity|].
  simpl in *. apply andb_true_iff in H as [Hc Hs]. apply negb_true_iff in Hc.
  rewrite Hc. now rewrite IH.
Qed.

Lemma digit_no_space (c : ascii) : isDigit c = true -> isWhiteSpace c = false.
Proof. destruct c as [[] [] [] [] [] [] [] []]; (discriminate || reflexivity). Qed.

Lemma wordChar_no_space (c : ascii) : isWordChar c = true -> isWhiteSpace c = false.
Proof. destruct c as [[] [] [] [] [] [] [] []]; (discriminate || reflexivity). Qed.

Lemma forallb_noSpace (cls : ascii -> bool) (s : str) :
  (forall c, cls c = true -> isWhiteSpace c = false) ->
  forallb cls s = true -> noSpace s = true.
Proof.
  intros Hcls H. unfold noSpace. rewrite forallb_forall in *.
  intros c Hc. apply negb_true_iff. apply Hcls. now apply H.
Qed.

End TrimFacts.

Section RecordFacts.
Import JS Eff Regex PatientDetailPage Text.

Lemma plain_extractor_trimmed (d : Document) (sel : Selector) :
  exists x,
    tryCatch (Eff.bind (textContent d sel)
                (fun text => Ok (orEmpty (option_map trim text))))
             (fun _ => Ok []) = Ok x /\ trim x = x.
Proof.
  destruct (textContent d sel) as [[t|]|e]; cbn.
  - exists (trim t). split; [reflexivity | apply trim_idempotent].
  - now exists [].
  - now exists [].
Qed.

Lemma getPatientGender_trimmed (d : Document) :
  exists x, getPatientGender d = Ok x /\ trim x = x.
Proof.
  unfold getPatientGender.
  destruct (textContent d GenderInSection) as [[t|]|e]; cbn [Eff.bind tryCatch].
  - exists (trim t). split; [reflexivity | apply trim_idempotent].
  - now exists [].
  - apply plain_extractor_trimmed.
Qed.

Lemma getPatientAge_trimmed (d : Document) :
  exists x, getPatientAge d = Ok x /\ trim x = x.
Proof.
  unfold getPatientAge.
  destruct (textContent d AgeText) as [t|e]; cbn [Eff.bind tryCatch].
  - destruct (truthy (orEmpty t)).
    + eexists. split; [reflexivity | apply trim_idempotent].
    + now exists [].
  - now exists [].
Qed.

Lemma trySelectors_trimmed (d : Document) (l : list Selector) :
  exists x, trySelectors d l = Ok x /\ trim x = x.
Proof.
  induction l as [|sel l IH]; [now exists []|]. cbn [trySelectors].
  destruct (textContent d sel) as [t|e]; [|exact IH].
  destruct (truthy (orEmpty t) && truthy (trim (orEmpty t))); [|exact IH].
  eexists. split; [reflexivity | apply trim_idempotent].
Qed.

Lemma getPatientBirthdate_trimmed (d : Document) :
  exists x, getPatientBirthdate d = Ok x /\ trim x = x.
Proof.
  unfold getPatientBirthdate.
  destruct (getPatientAge_trimmed d) as (a & -> & _). cbn [Eff.bind].
  destruct (if truthy a then birthdateRegex a else None) as [g|].
  - eexists. split; [reflexivity | apply trim_idempotent].
  - destruct (trySelectors_trimmed d selectors) as (x & -> & Hx).
    now exists x.
Qed.

Lemma getPatientId_trimmed (d : Document) :
  exists x, getPatientId d = Ok x /\ trim x = x.
Proof.
  unfold getPatientId.
  destruct (textContent d PatientIdParent) as [[t|]|e]; cbn [Eff.bind tryCatch].
  - destruct (patientIdRegex t) as [g|]; cbn.
    + exists (trim g). split; [reflexivity | apply trim_idempotent].
    + now exists [].
  - now exists [].
  - now exists [].
Qed.

Lemma getPatientInfo_trimmed (d : Document) :
  exists info,
    PatientRecord.getPatientInfo d = Ok info /\
    trim (PatientRecord.givenName info) = PatientRecord.givenName info /\
    trim (PatientRecord.familyName info) = PatientRecord.familyName info /\
    trim (PatientRecord.gender info) = PatientRecord.gender info /\
    trim (PatientRecord.age info) = PatientRecord.age info /\
    trim (PatientRecord.birthdate info) = PatientRecord.birthdate info /\
    trim (PatientRecord.patientId info) = PatientRecord.patientId info.
Proof.
  unfold PatientRecord.getPatientInfo.
  destruct (plain_extractor_trimmed d GivenName) as (g & Eg & Hg).
  destruct (plain_extractor_trimmed d FamilyName) as (f & Ef & Hf).
  destruct (getPatientGender_trimmed d) as (s & Es & Hs).
  destruct (getPatientAge_trimmed d) as (a & Ea & Ha).
  destruct (getPatientBirthdate_trimmed d) as (b & Eb & Hb).
  destruct (getPatientId_trimmed d) as (i & Ei & Hi).
  fold (getPatientGivenName d) in Eg. fold (getPatientFamilyName d) in Ef.
  rewrite Eg, Ef, Es, Ea, Eb, Ei. cbn.
  eexists. split; [reflexivity|]. cbn. auto 7.
Qed.

(** [getPatientInfo] never rejects, and none of the six fields of the
    record it returns has white space at its start or at its end. *)
Theorem getPatientInfo_fields_are_trimmed (d : Document) :
  exists info,
    PatientRecord.getPatientInfo d = Ok info /\
    trim (PatientRecord.givenName info) = PatientRecord.givenName info /\
    trim (PatientRecord.familyName info) = PatientRecord.familyName info /\
    trim (PatientRecord.gender info) = PatientRecord.gender info /\
    trim (PatientRecord.age info) = PatientRecord.age info /\
    trim (PatientRecord.birthdate info) = PatientRecord.birthdate info /\
    trim (PatientRecord.patientId info) = PatientRecord.patientId info.
Proof. exact (getPatientInfo_trimmed d). Qed.

(** The message of [getRegistrationSuccessMessage] is the same on every
    page: the record of [getPatientInfo] has no property [fullName], so
    the text reads "undefined successfully registered". *)
Theorem getRegistrationSuccessMessage_names_nobody (d : Document) :
  PatientRecord.getRegistrationSuccessMessage d
  = Ok (lit "undefined successfully registered").
Proof.
  unfold PatientRecord.getRegistrationSuccessMessage.
  destruct (getPatientInfo_trimmed d) as (info & -> & _).
  reflexivity.
Qed.

Lemma isDate_noSpace (g : str) : isDate g -> noSpace g = true.
Proof.
  intros (dd & w & y & -> & _ & Hd & _ & Hw & _ & Hy).
  unfold noSpace. rewrite !forallb_app.
  fold (noSpace dd). fold (noSpace w). fold (noSpace y).
  rewrite (forallb_noSpace isDigit dd digit_no_space Hd).
  rewrite (forallb_noSpace isWordChar w wordChar_no_space Hw).
  rewrite (forallb_noSpace isDigit y digit_no_space Hy).
  reflexivity.
Qed.

(** Whenever the age text holds a parenthesised date, [getPatientBirthdate]
    returns the captured date unchanged (one or two digits, a full stop,
    three word characters, a full stop, four digits), whatever the
    fallback selectors would find. *)
Theorem getPatientBirthdate_from_age (d : Document) (ageText g : str) :
  getPatientAge d = Ok ageText ->
  birthdateRegex ageText = Some g ->
  getPatientBirthdate d = Ok g /\ isDate g.
Proof.
  intros Hage Hg.
  assert (Hd : isDate g).
  { apply birthdateRegex_sound in Hg as (pre & ws1 & ws2 & post & _ & _ & Hd & _).
    exact Hd. }
  split; [|exact Hd].
  unfold getPatientBirthdate. rewrite Hage. cbn [Eff.bind].
  destruct ageText as [|c r]; [discriminate|]. cbn [truthy]. rewrite Hg.
  cbn [tryCatch]. unfold collapseSpaces.
  rewrite (noSpace_collapse g false (isDate_noSpace g Hd)).
  now rewrite (noSpace_trim g (isDate_noSpace g Hd)).
Qed.

Lemma getPatientBirthdate_from_age_witness :
  getPatientBirthdate (withAge (lit "63 year(s) (5.Jan.1962 )")) = Ok (lit "5.Jan.1962") /\
  isDate (lit "5.Jan.1962").
Proof.
  apply (getPatientBirthdate_from_age (withAge (lit "63 year(s) (5.Jan.1962 )"))
           (lit "63 year(s) (5.Jan.1962 )") (lit "5.Jan.1962"));
    reflexivity.
Defined.

End RecordFacts.

Section GreedyFacts.
Import JS Regex.
Variable R : Type.
Implicit Types (k : str -> Cont R) (cls : ascii -> bool).

(** A greedy star that runs into a character outside its class, or into the
    end of the input, and can go on from there, does so. *)
Lemma starGreedy_run cls k (acc u rest : str) (r : R) :
  forallb cls u = true ->
  match rest with [] => True | c :: _ => cls c = false end ->
  k (rev acc ++ u) rest = Some r ->
  starGreedy cls k acc (u ++ rest) = Some r.
Proof.
  revert acc; induction u as [|x u IH]; intros acc Hu Hrest Hk.
  - rewrite app_nil_r in Hk. cbn [app].
    destruct rest as [|c rest]; cbn [starGreedy]; [assumption|].
    now rewrite Hrest.
  - cbn [forallb] in Hu. apply andb_true_iff in Hu as [Hx Hu].
    cbn [app starGreedy]. rewrite Hx.
    rewrite (IH (x :: acc) Hu Hrest); [reflexivity|].
    cbn [rev]. now rewrite <- app_assoc.
Qed.

Lemma plusGreedy_run cls k (u rest : str) (r : R) :
  u <> [] -> forallb cls u = true ->
  match rest with [] => True | c :: _ => cls c = false end ->
  k u rest = Some r ->
  plusGreedy cls k (u ++ rest) = Some r.
Proof.
  intros Hne Hu Hrest Hk. destruct u as [|x u]; [congruence|].
  cbn [forallb] in Hu. apply andb_true_iff in Hu as [Hx Hu].
  cbn [app plusGreedy]. rewrite Hx. now apply starGreedy_run.
Qed.

Lemma plusGreedy_Some cls k (s : str) (r : R) :
  plusGreedy cls k s = Some r ->
  exists a b, s = a ++ b /\ a <> [] /\ forallb cls a = true /\ k a b = Some r.
Proof.
  unfold plusGreedy. destruct s as [|c s]; [discriminate|].
  destruct (cls c) eqn:Hc; [|discriminate]. intros H.
  apply starGreedy_Some in H as (a & b & -> & Ha & Hk).
  exists (c :: a), b. cbn. rewrite Hc, Ha. repeat split; [discriminate | assumption].
Qed.

End GreedyFacts.

Section PatientIdFacts.
Import JS Eff Regex PatientDetailPage Text.

(** On a label "Patient ID" followed by white space and a value on one
    line, [getPatientId] returns the value: the white space between label
    and value is dropped and the value is returned whole. *)
Theorem getPatientId_reads_value (d : Document) (ws v : str) :
  textContent d PatientIdParent = Ok (Some (lit "Patient ID" ++ ws ++ v)) ->
  forallb isWhiteSpace ws = true ->
  oneLine v = true -> v <> [] -> trim v = v ->
  getPatientId d = Ok v.
Proof.
  intros Ht Hws Hline Hne Htrim.
  destruct (trim_fixed_head v Htrim Hne) as (c & r & -> & Hc).
  unfold oneLine in Hline. cbn [forallb] in Hline.
  apply andb_true_iff in Hline as [Hdc Hdr].
  assert (Hm : patientIdRegex (lit "Patient ID" ++ ws ++ c :: r) = Some (c :: r)).
  { unfold patientIdRegex. apply search_here. rewrite chars_app.
    apply starGreedy_run; [assumption | assumption |].
    cbn [plusGreedy]. rewrite Hdc. now apply starGreedy_all. }
  unfold getPatientId. rewrite Ht. cbn [Eff.bind]. rewrite Hm.
  cbn [tryCatch option_map orEmpty]. now rewrite Htrim.
Qed.

Lemma getPatientId_reads_value_witness :
  getPatientId
    {| textContent := fun sel =>
         match sel with
         | PatientIdParent => Ok (Some (lit "Patient ID" ++ lit "  " ++ lit "100N07"))
         | _ => Throw TimeoutError
         end |}
  = Ok (lit "100N07").
Proof.
  apply (getPatientId_reads_value _ (lit "  ") (lit "100N07")); try reflexivity.
  discriminate.
Defined.

End PatientIdFacts.

Section VerificationFacts.
Import JS Eff PatientDetailPage.

Lemma isOnPatientDetailPage_total (v : PatientRecord.View) :
  exists b, PatientRecord.isOnPatientDetailPage v = Ok b.
Proof.
  unfold PatientRecord.isOnPatientDetailPage.
  destruct (PatientRecord.patientGivenName_waitFor v) as [[]|e]; cbn [Eff.bind tryCatch];
    [|now exists false].
  destruct (_ || _); [|now exists false].
  destruct (PatientRecord.patientGivenName_isVisible v) as [b|e]; cbn;
    [now exists b | now exists false].
Qed.

(** [verifyPatientRegistration] never rejects.  It answers true only on a
    patient detail page on which the given name and the family name shown
    contain the expected names, letter case aside, and the gender shown
    contains "Male" for M and "Female" for F; and it answers false
    whenever [isOnPatientDetailPage] does not answer true. *)
Theorem verifyPatientRegistration_sound
  (v : PatientRecord.View) (expected : PatientRecord.Expected) :
  (exists b, PatientRecord.verifyPatientRegistration v expected = Ok b) /\
  (PatientRecord.verifyPatientRegistration v expected = Ok true ->
   PatientRecord.isOnPatientDetailPage v = Ok true /\
   exists givenName familyName gender,
     getPatientGivenName (PatientRecord.doc v) = Ok givenName /\
     getPatientFamilyName (PatientRecord.doc v) = Ok familyName /\
     getPatientGender (PatientRecord.doc v) = Ok gender /\
     includes (toLowerCase givenName)
       (toLowerCase (PatientRecord.expectedGivenName expected)) = true /\
     includes (toLowerCase familyName)
       (toLowerCase (PatientRecord.expectedFamilyName expected)) = true /\
     includes gender
       (match PatientRecord.expectedGender expected with
        | PatientRecord.M => lit "Male"
        | PatientRecord.F => lit "Female"
        end) = true) /\
  (PatientRecord.isOnPatientDetailPage v <> Ok true ->
   PatientRecord.verifyPatientRegistration v expected = Ok false).
Proof.
  unfold PatientRecord.verifyPatientRegistration.
  destruct (isOnPatientDetailPage_total v) as (on & Hon). rewrite Hon.
  cbn [Eff.bind]. destruct on; cbn [negb].
  - destruct (plain_extractor_trimmed (PatientRecord.doc v) GivenName) as (g & Eg & _).
    destruct (plain_extractor_trimmed (PatientRecord.doc v) FamilyName) as (f & Ef & _).
    destruct (getPatientGender_trimmed (PatientRecord.doc v)) as (s & Es & _).
    fold (getPatientGivenName (PatientRecord.doc v)) in Eg.
    fold (getPatientFamilyName (PatientRecord.doc v)) in Ef.
    rewrite Eg, Ef, Es. cbn [Eff.bind tryCatch].
    split; [eauto|]. split; [|congruence].
    intros H. injection H as H.
    apply andb_true_iff in H as [H Hs]. apply andb_true_iff in H as [Hg Hf].
    split; [reflexivity|]. exists g, f, s. auto 7.
  - cbn [tryCatch]. split; [eauto|]. split; [discriminate | reflexivity].
Qed.

Lemma verifyPatientRegistration_sound_witness :
  PatientRecord.isOnPatientDetailPage PatientRecord.registered = Ok true /\
  exists givenName familyName gender,
    getPatientGivenName (PatientRecord.doc PatientRecord.registered) = Ok givenName /\
    getPatientFamilyName (PatientRecord.doc PatientRecord.registered) = Ok familyName /\
    getPatientGender (PatientRecord.doc PatientRecord.registered) = Ok gender /\
    includes (toLowerCase givenName) (toLowerCase (lit "JOHN")) = true /\
    includes (toLowerCase familyName) (toLowerCase (lit "smith")) = true /\
    includes gender (lit "Male") = true.
Proof.
  apply (proj1 (proj2 (verifyPatientRegistration_sound PatientRecord.registered
                  {| PatientRecord.expectedGivenName := lit "JOHN";
                     PatientRecord.expectedFamilyName := lit "smith";
                     PatientRecord.expectedGender := PatientRecord.M |}))).
  reflexivity.
Defined.

End VerificationFacts.

Section SectionFacts.
Import JS Eff.

Lemma hasSectionWithContent_total (p : PatientRecord.Sections)
  (s : PatientRecord.SectionName) :
  exists b, PatientRecord.hasSectionWithContent p s = Ok b.
Proof.
  unfold PatientRecord.hasSectionWithContent.
  destruct (PatientRecord.section_waitFor p s) as [[]|e]; cbn [Eff.bind tryCatch];
    [|now exists false].
  destruct (PatientRecord.section_parentText p s) as [t|e]; cbn [Eff.bind tryCatch];
    eauto.
Qed.

Lemma collect_step (A : Type) (read : nat -> result (option str)) (keep : str -> A)
  (n i : nat) :
  PatientRecord.collect read keep i (S n)
  = Eff.bind (read i) (fun text =>
      Eff.bind (PatientRecord.collect read keep (S i) n) (fun rest =>
        Ok (if truthy (orEmpty text) &&
               negb (includes (toLowerCase (orEmpty text)) (lit "none"))
            then keep (orEmpty text) :: rest
            else rest))).
Proof. reflexivity. Qed.

Lemma collect_sound (A : Type) (read : nat -> result (option str)) (keep : str -> A)
  (n i : nat) (l : list A) :
  PatientRecord.collect read keep i n = Ok l ->
  List.length l <= n /\
  forall x, In x l ->
    exists j t, i <= j < i + n /\ read j = Ok (Some t) /\ x = keep t /\
                t <> [] /\ includes (toLowerCase t) (lit "none") = false.
Proof.
  revert i l; induction n as [|n IH]; intros i l H.
  - injection H as <-. split; [simpl; lia | contradiction].
  - rewrite collect_step in H. unfold Eff.bind in H.
    destruct (read i) as [text|e] eqn:Er; [|discriminate].
    destruct (PatientRecord.collect read keep (S i) n) as [rest|e] eqn:Ec;
      [|discriminate].
    destruct (IH _ _ Ec) as [Hlen Hin]. injection H as <-.
    match goal with |- context [if ?c then _ else _] => destruct c eqn:Hk end.
    + split; [simpl; lia|]. intros x [<- | Hx].
      * apply andb_true_iff in Hk as [Ht Hn]. apply negb_true_iff in Hn.
        destruct text as [t|]; [|discriminate]. cbn [orEmpty] in *.
        exists i, t. repeat split; auto; try lia.
        intros ->. discriminate.
      * destruct (Hin x Hx) as (j & t & Hj & ?). exists j, t. split; [lia | assumption].
    + split; [lia|]. intros x Hx.
      destruct (Hin x Hx) as (j & t & Hj & ?). exists j, t. split; [lia | assumption].
Qed.

Lemma scan_sound (A : Type) (p : PatientRecord.Sections) (s : PatientRecord.SectionName)
  (keep : str -> A) (kinds : list PatientRecord.EntryKind) (l : list A) :
  PatientRecord.scan p s keep kinds = Ok l ->
  l = [] \/
  exists kind,
    find (fun k => 0 <? PatientRecord.entries_count p s k) kinds = Some kind /\
    PatientRecord.collect (PatientRecord.entry_textContent p s kind) keep 0
      (PatientRecord.entries_count p s kind) = Ok l.
Proof.
  induction kinds as [|kind kinds IH]; cbn [PatientRecord.scan find]; intros H.
  - injection H as <-. now left.
  - destruct (0 <? PatientRecord.entries_count p s kind); [|exact (IH H)].
    right. now exists kind.
Qed.

(** What a section reader returns, for any way [keep] of turning the text
    of an entry into a record. *)
Lemma reader_sound (A : Type) (p : PatientRecord.Sections)
  (s : PatientRecord.SectionName) (keep : str -> A) :
  exists l,
    tryCatch
      (Eff.bind (PatientRecord.hasSectionWithContent p s)
         (fun has => if negb has then Ok []
                     else PatientRecord.scan p s keep PatientRecord.entryKinds))
      (fun _ => Ok []) = Ok l /\
    (PatientRecord.hasSectionWithContent p s = Ok false -> l = []) /\
    (forall x, In x l ->
       exists kind i t,
         find (fun k => 0 <? PatientRecord.entries_count p s k)
              PatientRecord.entryKinds = Some kind /\
         i < PatientRecord.entries_count p s kind /\
         List.length l <= PatientRecord.entries_count p s kind /\
         PatientRecord.entry_textContent p s kind i = Ok (Some t) /\
         x = keep t /\ t <> [] /\
         includes (toLowerCase t) (lit "none") = false).
Proof.
  destruct (hasSectionWithContent_total p s) as (has & Hhas). rewrite Hhas.
  cbn [Eff.bind]. destruct has; cbn [negb].
  - destruct (PatientRecord.scan p s keep PatientRecord.entryKinds) as [l|e] eqn:Es;
      cbn [tryCatch].
    + exists l. split; [reflexivity|]. split; [discriminate|].
      intros x Hx. apply scan_sound in Es as [-> | (kind & Hf & Hc)]; [contradiction|].
      apply collect_sound in Hc as [Hlen Hin].
      destruct (Hin x Hx) as (j & t & Hj & Hr & Hk & Ht & Hn).
      exists kind, j, t. repeat split; auto. lia.
    + exists []. split; [reflexivity|]. split; [reflexivity | contradiction].
  - exists []. split; [reflexivity|]. split; [reflexivity | contradiction].
Qed.

(** [getPatientDiagnoses] and [getPatientVisits] never reject.  They return
    nothing when the section has no content.  Whatever they return stems
    from the entries of one selector, the first of the three that matches
    anything: each diagnosis has the status Active and its condition, each
    visit its date, is the trimmed text of such an entry, a text that is
    not empty and has no "none" in it, letter case aside. *)
Theorem section_readers_use_first_selector (p : PatientRecord.Sections) :
  (exists l,
      PatientRecord.getPatientDiagnoses p = Ok l /\
      (PatientRecord.hasSectionWithContent p PatientRecord.Diagnoses = Ok false ->
       l = []) /\
      (forall x, In x l ->
         PatientRecord.status x = PatientRecord.Active /\
         exists kind i t,
           find (fun k => 0 <? PatientRecord.entries_count p PatientRecord.Diagnoses k)
                PatientRecord.entryKinds = Some kind /\
           i < PatientRecord.entries_count p PatientRecord.Diagnoses kind /\
           List.length l <= PatientRecord.entries_count p PatientRecord.Diagnoses kind /\
           PatientRecord.entry_textContent p PatientRecord.Diagnoses kind i = Ok (Some t) /\
           PatientRecord.condition x = trim t /\ t <> [] /\
           includes (toLowerCase t) (lit "none") = false)) /\
  (exists l,
      PatientRecord.getPatientVisits p = Ok l /\
      (PatientRecord.hasSectionWithContent p PatientRecord.Visits = Ok false ->
       l = []) /\
      (forall x, In x l ->
         exists kind i t,
           find (fun k => 0 <? PatientRecord.entries_count p PatientRecord.Visits k)
                PatientRecord.entryKinds = Some kind /\
           i < PatientRecord.entries_count p PatientRecord.Visits kind /\
           List.length l <= PatientRecord.entries_count p PatientRecord.Visits kind /\
           PatientRecord.entry_textContent p PatientRecord.Visits kind i = Ok (Some t) /\
           x = trim t /\ t <> [] /\
           includes (toLowerCase t) (lit "none") = false)).
Proof.
  split.
  - unfold PatientRecord.getPatientDiagnoses.
    destruct (reader_sound _ p PatientRecord.Diagnoses
                (fun text => {| PatientRecord.condition := trim text;
                                PatientRecord.status := PatientRecord.Active |}))
      as (l & -> & Hnone & Hin).
    exists l. split; [reflexivity|]. split; [assumption|].
    intros x Hx. destruct (Hin x Hx) as (kind & i & t & Hf & Hi & Hl & Hr & -> & Ht & Hn).
    split; [reflexivity|]. exists kind, i, t. repeat split; assumption.
  - unfold PatientRecord.getPatientVisits.
    destruct (reader_sound _ p PatientRecord.Visits (fun text => trim text))
      as (l & -> & Hnone & Hin).
    exists l. split; [reflexivity|]. split; assumption.
Qed.

Lemma section_readers_use_first_selector_witness :
  exists kind i t,
    find (fun k => 0 <? PatientRecord.entries_count PatientRecord.chart
                          PatientRecord.Diagnoses k)
         PatientRecord.entryKinds = Some kind /\
    i < PatientRecord.entries_count PatientRecord.chart PatientRecord.Diagnoses kind /\
    2 <= PatientRecord.entries_count PatientRecord.chart PatientRecord.Diagnoses kind /\
    PatientRecord.entry_textContent PatientRecord.chart PatientRecord.Diagnoses kind i
    = Ok (Some t) /\
    lit "Asthma" = trim t /\ t <> [] /\
    includes (toLowerCase t) (lit "none") = false.
Proof.
  destruct (proj1 (section_readers_use_first_selector PatientRecord.chart))
    as (l & Hl & _ & H).
  assert (E : PatientRecord.getPatientDiagnoses PatientRecord.chart
              = Ok [ {| PatientRecord.condition := lit "Asthma";
                        PatientRecord.status := PatientRecord.Active |};
                     {| PatientRecord.condition := lit "Diabetes";
                        PatientRecord.status := PatientRecord.Active |} ])
    by reflexivity.
  rewrite E in Hl. injection Hl as <-.
  exact (proj2 (H {| PatientRecord.condition := lit "Asthma";
                     PatientRecord.status := PatientRecord.Active |}
                  (or_introl eq_refl))).
Defined.

End SectionFacts.

Section ObservationFacts.
Import JS Eff Regex Text.

Lemma numberChar_no_space (c : ascii) :
  PatientRecord.isNumberChar c = true -> isWhiteSpace c = false.
Proof. destruct c as [[] [] [] [] [] [] [] []]; (discriminate || reflexivity). Qed.

Lemma numberChar_dot (c : ascii) :
  PatientRecord.isNumberChar c = true -> dot c = true.
Proof. destruct c as [[] [] [] [] [] [] [] []]; (discriminate || reflexivity). Qed.

Lemma unitChar_no_space (c : ascii) :
  PatientRecord.notDigitNotSpace c = true -> isWhiteSpace c = false.
Proof. destruct c as [[] [] [] [] [] [] [] []]; (discriminate || reflexivity). Qed.

Lemma unitChar_dot (c : ascii) :
  PatientRecord.notDigitNotSpace c = true -> dot c = true.
Proof. destruct c as [[] [] [] [] [] [] [] []]; (discriminate || reflexivity). Qed.

Lemma forallb_impl (f g : ascii -> bool) (s : str) :
  (forall c, f c = true -> g c = true) -> forallb f s = true -> forallb g s = true.
Proof.
  intros H Hs. rewrite forallb_forall in *. intros c Hc. apply H. now apply Hs.
Qed.

Lemma head_outside (cls : ascii -> bool) (s : str) :
  (forall c, In c s -> cls c = false) ->
  match s with [] => True | c :: _ => cls c = false end.
Proof. destruct s as [|c s]; [trivial|]. intros H. apply H. now left. Qed.

Lemma valueRegex_value_unit (value unit : str) :
  value <> [] -> forallb PatientRecord.isNumberChar value = true ->
  forallb PatientRecord.notDigitNotSpace unit = true ->
  PatientRecord.valueRegex (value ++ lit " " ++ unit) = Some (value, unit).
Proof.
  intros Hne Hv Hu. unfold PatientRecord.valueRegex. apply search_here.
  apply plusGreedy_run; [assumption | assumption | reflexivity |].
  change (lit " " ++ unit) with ([" "%char] ++ unit).
  apply starGreedy_run; [reflexivity | |].
  - apply head_outside. intros c Hc. apply unitChar_no_space.
    rewrite forallb_forall in Hu. now apply Hu.
  - cbn [rev app]. now apply starGreedy_all.
Qed.

Lemma observationRegex_name_value (name rest : str) :
  name <> [] -> forallb PatientRecord.notColon name = true ->
  rest <> [] -> oneLine rest = true ->
  match rest with [] => True | c :: _ => isWhiteSpace c = false end ->
  PatientRecord.observationRegex (name ++ lit ": " ++ rest) = Some (name, rest).
Proof.
  intros Hne Hn Hrne Hline Hhead. unfold PatientRecord.observationRegex.
  apply search_here.
  apply plusGreedy_run; [assumption | assumption | reflexivity |].
  change (lit ": " ++ rest) with (lit ":" ++ [" "%char] ++ rest).
  rewrite chars_app.
  apply starGreedy_run; [reflexivity | assumption |].
  rewrite <- (app_nil_r rest) at 1.
  apply plusGreedy_run; [assumption | assumption | exact I | reflexivity].
Qed.

Lemma observationRegex_needs_colon (text : str) (g : str * str) :
  PatientRecord.observationRegex text = Some g -> In ":"%char text.
Proof.
  unfold PatientRecord.observationRegex. intros H.
  apply search_Some in H as (pre & post & -> & H).
  apply plusGreedy_Some in H as (a & b & -> & _ & _ & H).
  apply chars_Some in H as (s' & -> & _).
  apply in_or_app. right. apply in_or_app. right. now left.
Qed.

(** An entry of the form "name: value unit", where the name has no colon,
    the value is made of digits, full stops and commas, and the unit has
    neither digit nor white space, is split into the trimmed name, the
    value and the unit, the unit being absent when it is empty.  An entry
    without any colon becomes an observation with the name "Unknown" whose
    value is the whole trimmed text. *)
Theorem parseObservation_splits_entry :
  (forall name value unit : str,
      name <> [] -> forallb PatientRecord.notColon name = true ->
      value <> [] -> forallb PatientRecord.isNumberChar value = true ->
      forallb PatientRecord.notDigitNotSpace unit = true ->
      PatientRecord.parseObservation (name ++ lit ": " ++ value ++ lit " " ++ unit)
      = {| PatientRecord.obsName := trim name;
           PatientRecord.obsValue := value;
           PatientRecord.obsUnit := if truthy unit then Some unit else None |}) /\
  (forall text : str,
      ~ In ":"%char text ->
      PatientRecord.parseObservation text
      = {| PatientRecord.obsName := lit "Unknown";
           PatientRecord.obsValue := trim text;
           PatientRecord.obsUnit := None |}).
Proof.
  split.
  - intros name value unit Hne Hn Hvne Hv Hu.
    assert (Hline : oneLine (value ++ lit " " ++ unit) = true).
    { unfold oneLine. rewrite !forallb_app.
      rewrite (forallb_impl _ _ value numberChar_dot Hv).
      rewrite (forallb_impl _ _ unit unitChar_dot Hu). reflexivity. }
    assert (Hhead : match value ++ lit " " ++ unit with
                    | [] => True
                    | c :: _ => isWhiteSpace c = false
                    end).
    { destruct value as [|c value]; [congruence|]. cbn [app].
      apply numberChar_no_space. cbn [forallb] in Hv.
      now apply andb_true_iff in Hv as [Hv _]. }
    unfold PatientRecord.parseObservation.
    rewrite (observationRegex_name_value name (value ++ lit " " ++ unit));
      try assumption.
    2:{ destruct value; [congruence | discriminate]. }
    rewrite (valueRegex_value_unit value unit Hvne Hv Hu).
    rewrite (noSpace_trim unit (forallb_noSpace _ unit unitChar_no_space Hu)).
    reflexivity.
  - intros text Hno. unfold PatientRecord.parseObservation.
    destruct (PatientRecord.observationRegex text) as [g|] eqn:E; [|reflexivity].
    exfalso. apply Hno. exact (observationRegex_needs_colon text g E).
Qed.

Lemma parseObservation_splits_entry_witness :
  PatientRecord.parseObservation (lit " Weight" ++ lit ": " ++ lit "70.5" ++ lit " " ++ lit "kg")
  = {| PatientRecord.obsName := lit "Weight";
       PatientRecord.obsValue := lit "70.5";
       PatientRecord.obsUnit := Some (lit "kg") |} /\
  PatientRecord.parseObservation (lit " feels well ")
  = {| PatientRecord.obsName := lit "Unknown";
       PatientRecord.obsValue := lit "feels well";
       PatientRecord.obsUnit := None |}.
Proof.
  split.
  - apply (proj1 parseObservation_splits_entry (lit " Weight") (lit "70.5") (lit "kg"));
      (reflexivity || discriminate).
  - apply (proj2 parseObservation_splits_entry (lit " feels well ")).
    cbn. intuition discriminate.
Defined.

End ObservationFacts.

(* ------------------------------------------------------------------ *)
(** ** ApiHelpers: the REST client                                     *)
(* ------------------------------------------------------------------ *)

Section ApiFacts.
Import JS ApiHelpers.

Lemma send_step (srv : Server) (r : Request) (st : State) :
  send srv r st
  = ({| sessionId := sessionId st; sent := sent st ++ [r] |},
     srv (List.length (sent st)) r).
Proof. reflexivity. Qed.

Lemma getHeaders_session (id : option str) (l l' : list Request) :
  getHeaders {| sessionId := id; sent := l |}
  = getHeaders {| sessionId := id; sent := l' |}.
Proof. reflexivity. Qed.

(** [logout] never rejects, and after it no request carries a session
    cookie: [getHeaders] is down to the content type, whether the request
    that closes the session went through or not.  With a session it sends
    exactly that one request, with the cookie of the session; without one
    it sends nothing. *)
Theorem logout_forgets_session (baseURL : str) (srv : Server) (st : State) :
  snd (logout baseURL srv st) = Done tt /\
  getHeaders (fst (logout baseURL srv st)) = [jsonHeader] /\
  (truthy (orEmpty (sessionId st)) = true ->
   sessionId (fst (logout baseURL srv st)) = None /\
   sent (fst (logout baseURL srv st)) = sent st ++ [logoutRequest baseURL st] /\
   hasCookie (logoutRequest baseURL st) = true) /\
  (truthy (orEmpty (sessionId st)) = false ->
   fst (logout baseURL srv st) = st).
Proof.
  unfold logout, bind, getState, tryCatch, setSessionId, ret.
  destruct (truthy (orEmpty (sessionId st))) eqn:Hs.
  - rewrite send_step.
    destruct (srv (List.length (sent st)) (logoutRequest baseURL st)) as [resp|e];
      cbn [fst snd sessionId sent]; repeat split; try discriminate;
      unfold hasCookie, logoutRequest, getHeaders; cbn [headers]; now rewrite Hs.
  - cbn [fst snd]. repeat split; try discriminate.
    unfold getHeaders. now rewrite Hs.
Qed.

Lemma logout_forgets_session_witness :
  (sessionId (fst (logout (lit "http://h") demoServer
                     {| sessionId := Some (lit "A1B2"); sent := [] |})) = None /\
   sent (fst (logout (lit "http://h") demoServer
                {| sessionId := Some (lit "A1B2"); sent := [] |}))
   = [] ++ [logoutRequest (lit "http://h") {| sessionId := Some (lit "A1B2"); sent := [] |}] /\
   hasCookie (logoutRequest (lit "http://h")
                {| sessionId := Some (lit "A1B2"); sent := [] |}) = true) /\
  fst (logout (lit "http://h") demoServer fresh) = fresh.
Proof.
  split.
  - apply (proj1 (proj2 (proj2 (logout_forgets_session (lit "http://h") demoServer
                                  {| sessionId := Some (lit "A1B2"); sent := [] |})))).
    reflexivity.
  - apply (proj2 (proj2 (proj2 (logout_forgets_session (lit "http://h") demoServer fresh)))).
    reflexivity.
Defined.

(** [authenticate] sends one request, which never carries a cookie.  When
    the server answers it with an ok response whose body holds a session id
    that is not empty, the client keeps that id and [getHeaders] carries
    the cookie "JSESSIONID=" followed by it from then on.  When the answer
    is not ok, [authenticate] rejects with the status of the answer and the
    session it had before is kept. *)
Theorem authenticate_sets_cookie (baseURL : str) (srv : Server)
  (username password : str) (st : State) (response : Response) :
  srv (List.length (sent st)) (authenticateRequest baseURL username password)
  = Done response ->
  sent (fst (authenticate baseURL srv username password st))
  = sent st ++ [authenticateRequest baseURL username password] /\
  hasCookie (authenticateRequest baseURL username password) = false /\
  (forall id,
      ok response = true -> json response = Done (SessionJson (Some id)) ->
      truthy id = true ->
      snd (authenticate baseURL srv username password st) = Done tt /\
      sessionId (fst (authenticate baseURL srv username password st)) = Some id /\
      getHeaders (fst (authenticate baseURL srv username password st))
      = [jsonHeader; (lit "Cookie", lit "JSESSIONID=" ++ id)]) /\
  (ok response = false ->
   snd (authenticate baseURL srv username password st)
   = Fail (AuthenticationFailed (status response) (statusText response)) /\
   sessionId (fst (authenticate baseURL srv username password st)) = sessionId st).
Proof.
  intros Hsrv.
  unfold authenticate, bind, tryCatch, await, setSessionId, throw.
  rewrite send_step, Hsrv.
  split; [|split; [reflexivity|split]].
  - destruct (ok response); [|reflexivity].
    now destruct (json response).
  - intros id Hok Hjson Hid. rewrite Hok, Hjson. cbn [fst snd sessionIdOf sessionId].
    repeat split. unfold getHeaders. cbn [sessionId orEmpty]. now rewrite Hid.
  - intros Hok. rewrite Hok. now split.
Qed.

Lemma authenticate_sets_cookie_witness :
  snd (authenticate (lit "http://h") demoServer (lit "admin") (lit "Admin123") fresh)
  = Done tt /\
  sessionId (fst (authenticate (lit "http://h") demoServer (lit "admin") (lit "Admin123") fresh))
  = Some (lit "A1B2") /\
  getHeaders (fst (authenticate (lit "http://h") demoServer (lit "admin") (lit "Admin123") fresh))
  = [jsonHeader; (lit "Cookie", lit "JSESSIONID=" ++ lit "A1B2")].
Proof.
  apply (proj1 (proj2 (proj2 (authenticate_sets_cookie (lit "http://h") demoServer
                  (lit "admin") (lit "Admin123") fresh
                  {| ok := true; status := 200; statusText := lit "OK";
                     text := Done []; json := Done (SessionJson (Some (lit "A1B2"))) |}
                  eq_refl))) (lit "A1B2"));
    reflexivity.
Defined.







(** [searchPatients] never rejects and sends one request.  It returns the
    results of an ok answer that has some; for any other answer, for a
    request that rejects and for a body that cannot be read it returns the
    empty list. *)
Theorem searchPatients_never_rejects (baseURL : str) (srv : Server)
  (query : str) (st : State) :
  exists hits,
    snd (searchPatients baseURL srv query st) = Done hits /\
    sent (fst (searchPatients baseURL srv query st))
    = sent st ++ [searchRequest baseURL st query] /\
    sessionId (fst (searchPatients baseURL srv query st)) = sessionId st /\
    (hits <> [] ->
     exists response,
       srv (List.length (sent st)) (searchRequest baseURL st query) = Done response /\
       ok response = true /\ json response = Done (ResultsJson (Some hits))).
Proof.
  unfold searchPatients, bind, tryCatch, getState, await, ret, throw.
  rewrite send_step.
  destruct (srv (List.length (sent st)) (searchRequest baseURL st query)) as [resp|e].
  - destruct (ok resp) eqn:Hok.
    + destruct (json resp) as [j|e] eqn:Hj.
      * exists (resultsOf j). cbn [fst snd sent sessionId]. repeat split.
        intros Hne. exists resp. repeat split; try assumption.
        destruct j as [| |[r|]|]; cbn in Hne; try congruence. exact Hj.
      * exists []. cbn [fst snd sent sessionId]. repeat split. congruence.
    + exists []. cbn [fst snd sent sessionId]. repeat split. congruence.
  - exists []. cbn [fst snd sent sessionId]. repeat split. congruence.
Qed.

Lemma searchPatients_never_rejects_witness :
  exists response,
    directory (List.length (sent fresh)) (searchRequest (lit "http://h") fresh (lit "john"))
    = Done response /\
    ok response = true /\
    json response = Done (ResultsJson (Some [lit "uuid-john"])).
Proof.
  destruct (searchPatients_never_rejects (lit "http://h") directory (lit "john") fresh)
    as (hits & Hd & _ & _ & H).
  assert (E : snd (searchPatients (lit "http://h") directory (lit "john") fresh)
              = Done [lit "uuid-john"]) by reflexivity.
  rewrite E in Hd. injection Hd as <-.
  apply H. discriminate.
Defined.

Lemma deletePatient_step (baseURL : str) (srv : Server) (uuid : str) (st : State) :
  deletePatient baseURL srv uuid st
  = ({| sessionId := sessionId st; sent := sent st ++ [deleteRequest baseURL st uuid] |},
     Done tt).
Proof.
  unfold deletePatient, bind, tryCatch, getState, ret. rewrite send_step.
  now destruct (srv (List.length (sent st)) (deleteRequest baseURL st uuid)).
Qed.

(** [cleanupPatients] never rejects, whatever the server answers: it sends
    one DELETE request for each uuid of its list, in the order of the list,
    to the patient resource of that uuid, and keeps the session. *)
Theorem cleanupPatients_deletes_each_once (baseURL : str) (srv : Server)
  (patientUuids : list str) (st : State) :
  cleanupPatients baseURL srv patientUuids st
  = ({| sessionId := sessionId st;
        sent := sent st ++ map (deleteRequest baseURL st) patientUuids |},
     Done tt).
Proof.
  revert st; induction patientUuids as [|uuid rest IH]; intros st.
  - cbn. rewrite app_nil_r. now destruct st.
  - cbn [cleanupPatients]. unfold bind. rewrite deletePatient_step, IH.
    cbn [sessionId sent map]. rewrite <- app_assoc. reflexivity.
Qed.

End ApiFacts.
